(** * FinanceApp: the SMS parser of [app/services/parser.py]

    A shallow embedding of the SMS-to-record pipeline ([is_transactional_message],
    [detect_category], [extract_amount], [extract_merchant], [extract_date],
    [extract_balance], [extract_reference], [parse_sms_spacy]) together with
    the parts of the Python runtime it relies on ([str] methods, the [re]
    module, [float], [datetime]).

    Conventions of the model.
    - A Python [str] is a [string]; a character is a code point in
      U+0000..U+00FF.  [str.lower], [str.isspace] and the regular-expression
      classes follow Python's Unicode behaviour on that range.
    - Python integers are [Z]; positions, lengths and slices are computed in
      [Z] with Python's clamping rules.
    - A Python [float] is an IEEE-754 binary64 value ([spec_float] with
      precision 53 and maximal exponent 1024); [float(s)] rounds the decimal
      denoted by [s] to the nearest double.
    - Exceptions are values of an error monad; the spaCy pipeline [nlp] and
      the clock read by [datetime.now()] are parameters. *)

From Stdlib Require Import String Ascii List ZArith Lia Bool.
From Stdlib Require Import Floats.SpecFloat.
From Stdlib Require Import DecimalString.
Import ListNotations.

Local Open Scope string_scope.
Local Open Scope Z_scope.

(** ** Python strings *)

Module PyStr.

Definition code (c : ascii) : Z := Z.of_N (N_of_ascii c).
Definition chr (z : Z) : ascii := ascii_of_N (Z.to_N z).

Definition between (lo hi z : Z) : bool := (lo <=? z) && (z <=? hi).

(** [\d]: the decimal digits of the range. *)
Definition is_digit (c : ascii) : bool := between 48 57 (code c).

Definition is_ascii_upper (c : ascii) : bool := between 65 90 (code c).
Definition is_ascii_lower (c : ascii) : bool := between 97 122 (code c).
Definition is_ascii_alpha (c : ascii) : bool := is_ascii_upper c || is_ascii_lower c.

(** [str.isspace] and [\s]: TAB..CR, FS..US, SPACE, NEL and NBSP. *)
Definition isspace (c : ascii) : bool :=
  let z := code c in
  between 9 13 z || between 28 32 z || (z =? 133) || (z =? 160).

(** [str.isalnum]: letters, decimal digits and the other numeric characters
    (feminine/masculine ordinal, micro sign, superscripts, vulgar fractions). *)
Definition isalnum (c : ascii) : bool :=
  let z := code c in
  between 48 57 z || between 65 90 z || between 97 122 z
  || (z =? 170) || (z =? 178) || (z =? 179) || (z =? 181) || (z =? 185)
  || (z =? 186) || between 188 190 z
  || between 192 214 z || between 216 246 z || between 248 255 z.

(** [\w] *)
Definition is_word (c : ascii) : bool := isalnum c || (code c =? 95).

(** Upper-case letters of the range: A-Z and the accented capitals
    (U+00C0..U+00DE without the multiplication sign). *)
Definition is_upper (c : ascii) : bool :=
  let z := code c in
  between 65 90 z || (between 192 222 z && negb (z =? 215)).

(** Letters that are the lower case of a capital of the range. *)
Definition has_upper (c : ascii) : bool :=
  let z := code c in
  between 97 122 z || (between 224 254 z && negb (z =? 247)).

Definition lower_char (c : ascii) : ascii :=
  if is_upper c then chr (code c + 32) else c.

(** The capital whose lower case is [c], when the range has one. *)
Definition upper_char (c : ascii) : ascii :=
  if has_upper c then chr (code c - 32) else c.

Fixpoint map (f : ascii -> ascii) (s : string) : string :=
  match s with
  | EmptyString => EmptyString
  | String c s' => String (f c) (map f s')
  end.

(** [s.lower()] *)
Definition lower (s : string) : string := map lower_char s.

(** [len(s)] *)
Definition len (s : string) : Z := Z.of_nat (String.length s).

(** [sub in s] *)
Definition contains (sub s : string) : bool :=
  match index 0 sub s with Some _ => true | None => false end.

(** [s.find(sub)] *)
Definition find (sub s : string) : Z :=
  match index 0 sub s with Some n => Z.of_nat n | None => -1 end.

(** Slice bounds are clamped as Python does; a negative bound counts from
    the end. *)
Definition clamp (n i : Z) : Z :=
  if i <? 0 then Z.max 0 (i + n) else Z.min i n.

(** [s[i:j]] *)
Definition slice (s : string) (i j : Z) : string :=
  let n := len s in
  let a := clamp n i in
  let b := clamp n j in
  substring (Z.to_nat a) (Z.to_nat (b - a)) s.

(** [s[i:]] *)
Definition slice_from (s : string) (i : Z) : string := slice s i (len s).

(** [s[i]] for [0 <= i]; [None] stands for [IndexError]. *)
Definition item (s : string) (i : Z) : option ascii :=
  if i <? 0 then None else get (Z.to_nat i) s.

Fixpoint lstrip (s : string) : string :=
  match s with
  | String c s' => if isspace c then lstrip s' else s
  | EmptyString => EmptyString
  end.

Fixpoint rev_acc (s acc : string) : string :=
  match s with
  | EmptyString => acc
  | String c s' => rev_acc s' (String c acc)
  end.

Definition rev (s : string) : string := rev_acc s EmptyString.

(** [s.strip()] *)
Definition strip (s : string) : string := rev (lstrip (rev (lstrip s))).

(** [s.replace(old, new)] for a non-empty [old]. *)
Fixpoint replace_fuel (fuel : nat) (old new s : string) : string :=
  match fuel with
  | O => s
  | S f =>
      match s with
      | EmptyString => EmptyString
      | String c s' =>
          if prefix old s
          then new ++ replace_fuel f old new
                        (substring (String.length old)
                                   (String.length s - String.length old) s)
          else String c (replace_fuel f old new s')
      end
  end.

Definition replace (old new s : string) : string :=
  replace_fuel (S (String.length s)) old new s.

(** [s.replace(old, new, 1)] *)
Fixpoint replace_first (old new s : string) : string :=
  match s with
  | EmptyString => EmptyString
  | String c s' =>
      if prefix old s
      then new ++ substring (String.length old)
                            (String.length s - String.length old) s
      else String c (replace_first old new s')
  end.

Fixpoint forallb (p : ascii -> bool) (s : string) : bool :=
  match s with
  | EmptyString => true
  | String c s' => p c && forallb p s'
  end.

(** [str.isdigit] on one character: decimal digits and the superscript
    digits. *)
Definition isdigit_char (c : ascii) : bool :=
  let z := code c in
  between 48 57 z || (z =? 178) || (z =? 179) || (z =? 185).

(** [s.isdigit()] *)
Definition isdigit (s : string) : bool :=
  match s with
  | EmptyString => false
  | _ => forallb isdigit_char s
  end.

Definition of_list (l : list ascii) : string := string_of_list_ascii l.
Definition to_list (s : string) : list ascii := list_ascii_of_string s.

(** [sep.join(l)] *)
Fixpoint join (sep : string) (l : list string) : string :=
  match l with
  | [] => ""
  | [x] => x
  | x :: tl => x ++ sep ++ join sep tl
  end.

(** [s.split()]: the maximal runs of non-space characters. *)
Fixpoint split_acc (s : string) (cur : string) : list string :=
  let flush (l : list string) :=
    match cur with EmptyString => l | _ => rev cur :: l end in
  match s with
  | EmptyString => flush []
  | String c s' =>
      if isspace c then flush (split_acc s' EmptyString)
      else split_acc s' (String c cur)
  end.

Definition split (s : string) : list string := split_acc s EmptyString.

(** [s.upper()] on the words the parser applies it to, which are made of
    ASCII letters and digits; the sharp s becomes [SS]. *)
Fixpoint upper (s : string) : string :=
  match s with
  | EmptyString => EmptyString
  | String c s' =>
      if code c =? 223 then String "S"%char (String "S"%char (upper s'))
      else String (upper_char c) (upper s')
  end.

(** *** Results of case conversion

    Capitalising can leave the range of the input characters (the capitals
    of U+00FF and U+00B5 are U+0178 and U+039C), so the strings it builds
    are lists of code points. *)

Definition ustr : Type := list Z.

Definition u (s : string) : ustr := List.map code (to_list s).

(** The title case of a character. *)
Definition title_char (c : ascii) : ustr :=
  let z := code c in
  if z =? 223 then [83; 115]
  else if z =? 255 then [376]
  else if z =? 181 then [924]
  else [code (upper_char c)].

(** Cased characters: the letters with an upper or lower case form. *)
Definition is_cased (c : ascii) : bool :=
  let z := code c in
  between 65 90 z || between 97 122 z || (z =? 170) || (z =? 181) || (z =? 186)
  || between 192 214 z || between 216 246 z || between 248 255 z.

(** [s.capitalize()] *)
Definition capitalize (s : string) : ustr :=
  match s with
  | EmptyString => []
  | String c s' => (title_char c ++ u (lower s'))%list
  end.

(** [s.title()] *)
Fixpoint title_from (previous_is_cased : bool) (s : string) : ustr :=
  match s with
  | EmptyString => []
  | String c s' =>
      ((if previous_is_cased then [code (lower_char c)] else title_char c)
       ++ title_from (is_cased c) s')%list
  end.

Definition title (s : string) : ustr := title_from false s.

Definition u_isspace (z : Z) : bool :=
  between 9 13 z || between 28 32 z || (z =? 133) || (z =? 160).

Fixpoint u_lstrip (l : ustr) : ustr :=
  match l with
  | z :: tl => if u_isspace z then u_lstrip tl else l
  | [] => []
  end.

Definition u_strip (l : ustr) : ustr :=
  List.rev (u_lstrip (List.rev (u_lstrip l))).

Fixpoint u_join (sep : ustr) (l : list ustr) : ustr :=
  match l with
  | [] => []
  | [x] => x
  | x :: tl => (x ++ sep ++ u_join sep tl)%list
  end.

End PyStr.

(** ** The [re] module

    Patterns are kept as the source writes them; [compile] parses the
    pattern text into a syntax tree and [search], [finditer] and [sub] run a
    backtracking matcher with Python's priorities: the leftmost start, the
    first alternative, greedy repetition. *)

Module Re.
Import PyStr.

Inductive citem : Type :=
| CRange (lo hi : ascii)
| CDigit
| CWord
| CSpace.

Inductive regex : Type :=
| Eps
| Fail
| Dot
| Set_ (negated : bool) (items : list citem)
| Seq (r1 r2 : regex)
| Alt (r1 r2 : regex)
| Rep (r : regex) (lo : nat) (hi : option nat)
| Grp (n : nat) (r : regex)
| WordB
| Bol
| Eol.

(** *** Parsing pattern text *)

Definition parsed (A : Type) : Type := option (A * list ascii).

Fixpoint p_nat (l : list ascii) (acc : option nat) : option nat * list ascii :=
  match l with
  | c :: tl =>
      if is_digit c
      then p_nat tl (Some (10 * match acc with Some a => a | None => 0 end
                           + Z.to_nat (code c - 48))%nat)
      else (acc, l)
  | [] => (acc, l)
  end.

(** A class escape or an escaped literal. *)
Definition p_escape (c : ascii) : citem :=
  match c with
  | "d"%char => CDigit
  | "w"%char => CWord
  | "s"%char => CSpace
  | _ => CRange c c
  end.

(** The items of a bracket expression, up to the closing bracket. *)
Fixpoint p_items (fuel : nat) (l : list ascii) (acc : list citem)
  : parsed (list citem) :=
  match fuel with
  | O => None
  | S f =>
      match l with
      | [] => None
      | "]"%char :: tl => Some (rev' acc, tl)
      | "\"%char :: c :: tl => p_items f tl (p_escape c :: acc)
      | lo :: "-"%char :: "]"%char :: tl =>
          Some (rev' (CRange "-" "-" :: CRange lo lo :: acc), tl)
      | lo :: "-"%char :: "\"%char :: hi :: tl => p_items f tl (CRange lo hi :: acc)
      | lo :: "-"%char :: hi :: tl => p_items f tl (CRange lo hi :: acc)
      | c :: tl => p_items f tl (CRange c c :: acc)
      end
  end.

Definition p_set (l : list ascii) : parsed regex :=
  match l with
  | "^"%char :: tl =>
      match p_items (S (length tl)) tl [] with
      | Some (it, rest) => Some (Set_ true it, rest)
      | None => None
      end
  | _ =>
      match p_items (S (length l)) l [] with
      | Some (it, rest) => Some (Set_ false it, rest)
      | None => None
      end
  end.

(** A quantifier after an atom, if there is one. *)
Definition p_quant (r : regex) (l : list ascii) : regex * list ascii :=
  match l with
  | "*"%char :: tl => (Rep r 0 None, tl)
  | "+"%char :: tl => (Rep r 1 None, tl)
  | "?"%char :: tl => (Rep r 0 (Some 1%nat), tl)
  | "{"%char :: tl =>
      match p_nat tl None with
      | (Some lo, "}"%char :: tl') => (Rep r lo (Some lo), tl')
      | (Some lo, ","%char :: tl') =>
          match p_nat tl' None with
          | (hi, "}"%char :: tl'') => (Rep r lo hi, tl'')
          | _ => (r, l)
          end
      | _ => (r, l)
      end
  | _ => (r, l)
  end.

Section Grammar.
(** [p_group] parses the alternation inside a pair of parentheses; it
    receives and returns the number of capturing groups opened so far. *)
Variable p_group : list ascii -> nat -> option (regex * list ascii * nat).

Definition p_atom (l : list ascii) (g : nat)
  : option (regex * list ascii * nat) :=
  match l with
  | "("%char :: "?"%char :: ":"%char :: tl =>
      match p_group tl g with
      | Some (r, ")"%char :: rest, g') => Some (r, rest, g')
      | _ => None
      end
  | "("%char :: tl =>
      match p_group tl (S g) with
      | Some (r, ")"%char :: rest, g') => Some (Grp (S g) r, rest, g')
      | _ => None
      end
  | "["%char :: tl =>
      match p_set tl with
      | Some (r, rest) => Some (r, rest, g)
      | None => None
      end
  | "\"%char :: "b"%char :: tl => Some (WordB, tl, g)
  | "\"%char :: c :: tl => Some (Set_ false [p_escape c], tl, g)
  | "."%char :: tl => Some (Dot, tl, g)
  | "^"%char :: tl => Some (Bol, tl, g)
  | "$"%char :: tl => Some (Eol, tl, g)
  | c :: tl => Some (Set_ false [CRange c c], tl, g)
  | [] => None
  end.

(** A concatenation: atoms with their quantifiers up to [|], [)] or the
    end of the pattern. *)
Fixpoint p_seq (fuel : nat) (l : list ascii) (g : nat)
  : option (regex * list ascii * nat) :=
  match fuel with
  | O => None
  | S f =>
      match l with
      | [] | "|"%char :: _ | ")"%char :: _ => Some (Eps, l, g)
      | _ =>
          match p_atom l g with
          | Some (a, rest, g') =>
              let (a', rest') := p_quant a rest in
              match p_seq f rest' g' with
              | Some (Eps, rest'', g'') => Some (a', rest'', g'')
              | Some (r, rest'', g'') => Some (Seq a' r, rest'', g'')
              | None => None
              end
          | None => None
          end
      end
  end.

Fixpoint p_alt (fuel : nat) (l : list ascii) (g : nat)
  : option (regex * list ascii * nat) :=
  match fuel with
  | O => None
  | S f =>
      match p_seq (S (length l)) l g with
      | Some (r, "|"%char :: rest, g') =>
          match p_alt f rest g' with
          | Some (r', rest', g'') => Some (Alt r r', rest', g'')
          | None => None
          end
      | other => other
      end
  end.
End Grammar.

Fixpoint p_regex (depth : nat) (l : list ascii) (g : nat)
  : option (regex * list ascii * nat) :=
  match depth with
  | O => None
  | S d => p_alt (p_regex d) (S (length l)) l g
  end.

(** A compiled pattern: the tree, the [re.IGNORECASE] flag and the number of
    capturing groups. *)
Record pattern : Type := {
  p_re : regex;
  p_icase : bool;
  p_groups : nat
}.

Definition parse (s : string) : option (regex * nat) :=
  let l := to_list s in
  match p_regex (S (length l)) l 0 with
  | Some (r, [], g) => Some (r, g)
  | _ => None
  end.

(** [re.compile(s)] and [re.compile(s, re.IGNORECASE)]; a pattern the parser
    refuses matches nothing. *)
Definition compile_flags (icase : bool) (s : string) : pattern :=
  match parse s with
  | Some (r, g) => {| p_re := r; p_icase := icase; p_groups := g |}
  | None => {| p_re := Fail; p_icase := icase; p_groups := 0 |}
  end.

Definition compile : string -> pattern := compile_flags false.
Definition compile_i : string -> pattern := compile_flags true.

(** *** Matching *)

Definition in_range (lo hi c : ascii) : bool :=
  (code lo <=? code c) && (code c <=? code hi).

Definition item_mem (icase : bool) (it : citem) (c : ascii) : bool :=
  match it with
  | CRange lo hi =>
      if icase
      then in_range lo hi (lower_char c) || in_range lo hi (upper_char (lower_char c))
      else in_range lo hi c
  | CDigit => is_digit c
  | CWord => is_word c
  | CSpace => isspace c
  end.

Definition set_mem (icase negated : bool) (items : list citem) (c : ascii) : bool :=
  xorb negated (existsb (fun it => item_mem icase it c) items).

(** The matcher's cursor: the position, the character before it and the
    text after it. *)
Record cursor : Type := {
  c_pos : nat;
  c_prev : option ascii;
  c_rest : list ascii
}.

Definition advance (st : cursor) (a : ascii) (tl : list ascii) : cursor :=
  {| c_pos := S (c_pos st); c_prev := Some a; c_rest := tl |}.

Definition opt_word (o : option ascii) : bool :=
  match o with Some c => is_word c | None => false end.

Definition at_boundary (st : cursor) : bool :=
  xorb (opt_word (c_prev st)) (opt_word (hd_error (c_rest st))).

Definition newline : ascii := chr 10.

Definition at_end (st : cursor) : bool :=
  match c_rest st with
  | [] => true
  | [c] => (code c =? 10)
  | _ => false
  end.

(** Group spans, most recent first. *)
Definition caps : Type := list (nat * (nat * nat)).

Definition under (hi : option nat) (n : nat) : bool :=
  match hi with Some h => (n <? h)%nat | None => true end.

Section Run.
Context {R : Type}.
Variable icase : bool.

Definition cont : Type := cursor -> caps -> option R.

(** Greedy repetition of [body] between [lo] and [hi] times, [n] rounds
    being done: one more round if it can be made to succeed, else stop
    here.  A round must consume text, so [fuel], the length of the text
    left at the start, bounds the rounds. *)
Fixpoint rep_loop (body : cont -> cursor -> caps -> option R)
         (lo : nat) (hi : option nat) (k : cont)
         (fuel n : nat) (st : cursor) (c : caps) {struct fuel} : option R :=
  let stop := if (lo <=? n)%nat then k st c else None in
  match fuel with
  | O => stop
  | S f =>
      if under hi n
      then match body
                   (fun st' c' =>
                      if (c_pos st <? c_pos st')%nat
                      then rep_loop body lo hi k f (S n) st' c' else None) st c with
           | Some x => Some x
           | None => stop
           end
      else stop
  end.

(** [run r k st c] tries [r] at [st] and hands every way of matching it,
    in priority order, to the continuation [k] until one succeeds. *)
Fixpoint run (r : regex) (k : cont) (st : cursor) (c : caps) {struct r}
  : option R :=
  match r with
  | Eps => k st c
  | Fail => None
  | Dot =>
      match c_rest st with
      | a :: tl => if code a =? 10 then None else k (advance st a tl) c
      | [] => None
      end
  | Set_ negated items =>
      match c_rest st with
      | a :: tl => if set_mem icase negated items a then k (advance st a tl) c else None
      | [] => None
      end
  | Seq r1 r2 => run r1 (fun st' c' => run r2 k st' c') st c
  | Alt r1 r2 =>
      match run r1 k st c with
      | Some x => Some x
      | None => run r2 k st c
      end
  | Rep r' lo hi => rep_loop (run r') lo hi k (length (c_rest st)) O st c
  | Grp g r' => run r' (fun st' c' => k st' ((g, (c_pos st, c_pos st')) :: c')) st c
  | WordB => if at_boundary st then k st c else None
  | Bol => if (c_pos st =? 0)%nat then k st c else None
  | Eol => if at_end st then k st c else None
  end.
End Run.

(** A match object: the subject, the span of the whole match and the spans
    of the groups. *)
Record match_ : Type := {
  m_string : string;
  m_start_n : nat;
  m_end_n : nat;
  m_caps : caps
}.

Definition m_start (m : match_) : Z := Z.of_nat (m_start_n m).
Definition m_end (m : match_) : Z := Z.of_nat (m_end_n m).

Fixpoint cap_lookup (g : nat) (c : caps) : option (nat * nat) :=
  match c with
  | [] => None
  | (g', span) :: tl => if (g =? g')%nat then Some span else cap_lookup g tl
  end.

(** [m.group(0)] *)
Definition group0 (m : match_) : string :=
  substring (m_start_n m) (m_end_n m - m_start_n m) (m_string m).

(** [m.group(g)] for [g >= 1]; [None] when the group took no part. *)
Definition group (m : match_) (g : nat) : option string :=
  match cap_lookup g (m_caps m) with
  | Some (a, b) => Some (substring a (b - a) (m_string m))
  | None => None
  end.

(** The match of [p] that starts exactly at the cursor. *)
Definition match_here (p : pattern) (s : string) (st : cursor) : option match_ :=
  run (p_icase p) (p_re p)
      (fun st' c => Some {| m_string := s; m_start_n := c_pos st;
                            m_end_n := c_pos st'; m_caps := c |})
      st [].

(** Try every start from the cursor on, leftmost first. *)
Fixpoint scan (p : pattern) (s : string) (pos : nat) (prev : option ascii)
         (rest : list ascii) : option match_ :=
  match match_here p s {| c_pos := pos; c_prev := prev; c_rest := rest |} with
  | Some m => Some m
  | None =>
      match rest with
      | [] => None
      | a :: tl => scan p s (S pos) (Some a) tl
      end
  end.

(** [p.search(s)] *)
Definition search (p : pattern) (s : string) : option match_ :=
  scan p s 0 None (to_list s).

(** [re.match(p, s)] *)
Definition match_start (p : pattern) (s : string) : option match_ :=
  match_here p s {| c_pos := 0; c_prev := None; c_rest := to_list s |}.

(** The cursor at position [n] of [l]. *)
Fixpoint cursor_at (n : nat) (pos : nat) (prev : option ascii) (l : list ascii)
  : cursor :=
  match n, l with
  | S n', a :: tl => cursor_at n' (S pos) (Some a) tl
  | _, _ => {| c_pos := pos; c_prev := prev; c_rest := l |}
  end.

(** [p.finditer(s)]: successive non-overlapping matches.  After an empty
    match the scan resumes one character further. *)
Fixpoint finditer_from (fuel : nat) (p : pattern) (s : string) (from : nat)
  : list match_ :=
  match fuel with
  | O => []
  | S f =>
      if (String.length s <? from)%nat then []
      else
        let st := cursor_at from 0 None (to_list s) in
        match scan p s (c_pos st) (c_prev st) (c_rest st) with
        | None => []
        | Some m =>
            m :: finditer_from f p s
                   (if (m_start_n m <? m_end_n m)%nat then m_end_n m else S (m_end_n m))
        end
  end.

Definition finditer (p : pattern) (s : string) : list match_ :=
  finditer_from (S (String.length s)) p s 0.

(** [p.sub(repl, s)] for a replacement without group references. *)
Fixpoint sub_from (ms : list match_) (repl s : string) (from : nat) : string :=
  match ms with
  | [] => substring from (String.length s - from) s
  | m :: tl =>
      substring from (m_start_n m - from) s ++ repl ++ sub_from tl repl s (m_end_n m)
  end.

Definition sub (p : pattern) (repl s : string) : string :=
  sub_from (finditer p s) repl s 0.

(** *** What a pattern tells before it is run *)

(** The groups that take part in every match. *)
Fixpoint must (r : regex) : list nat :=
  match r with
  | Seq a b => must a ++ must b
  | Grp g r' => g :: must r'
  | Rep r' (S _) _ => must r'
  | _ => []
  end.

Definition all_ascii : list ascii := List.map ascii_of_nat (seq 0 256).

(** Every character that the set accepts satisfies [P]. *)
Definition set_within (icase negated : bool) (items : list citem)
           (P : ascii -> bool) : bool :=
  List.forallb (fun a => implb (set_mem icase negated items a) (P a)) all_ascii.

(** Every character that [r] can consume satisfies [P]. *)
Fixpoint chars_ok (icase : bool) (P : ascii -> bool) (r : regex) : bool :=
  match r with
  | Dot => List.forallb (fun a => implb (negb (code a =? 10)) (P a)) all_ascii
  | Set_ negated items => set_within icase negated items P
  | Seq a b | Alt a b => chars_ok icase P a && chars_ok icase P b
  | Rep r' _ _ | Grp _ r' => chars_ok icase P r'
  | _ => true
  end.

(** Every character that group [g] can capture satisfies [Q g]. *)
Fixpoint groups_ok (icase : bool) (Q : nat -> ascii -> bool) (r : regex) : bool :=
  match r with
  | Seq a b | Alt a b => groups_ok icase Q a && groups_ok icase Q b
  | Rep r' _ _ => groups_ok icase Q r'
  | Grp g r' => chars_ok icase (Q g) r' && groups_ok icase Q r'
  | _ => true
  end.

End Re.

(** ** Python floats *)

Module PyFloat.
Import PyStr.

Definition float : Type := spec_float.

Definition prec : Z := 53.
Definition emax : Z := 1024.

(** The double nearest to [n / d]. *)
Definition of_ratio (neg : bool) (n d : positive) : float :=
  SFdiv prec emax (S754_finite neg n 0) (S754_finite false d 0).

(** The double nearest to [m * 10 ^ e]. *)
Definition of_decimal (neg : bool) (m : N) (e : Z) : float :=
  match m with
  | N0 => S754_zero neg
  | Npos p =>
      if 0 <=? e
      then of_ratio neg (p * Z.to_pos (10 ^ e)) 1
      else of_ratio neg p (Z.to_pos (10 ^ (- e)))
  end.

(** An integer literal or an [int] converted for a comparison. *)
Definition of_Z (z : Z) : float :=
  match z with
  | Z0 => S754_zero false
  | Zpos p => of_ratio false p 1
  | Zneg p => of_ratio true p 1
  end.

Definition leb (x y : float) : bool := SFleb x y.
Definition ltb (x y : float) : bool := SFltb x y.

(** A digit run: its value and its length. *)
Fixpoint digits (l : list ascii) (acc : N) (n : Z) : N * Z * list ascii :=
  match l with
  | c :: tl =>
      if is_digit c
      then digits tl (10 * acc + Z.to_N (code c - 48))%N (n + 1)
      else (acc, n, l)
  | [] => (acc, n, l)
  end.

(** Underscores may only separate two digits; they are dropped. *)
Fixpoint drop_underscores (prev : option ascii) (l : list ascii)
  : option (list ascii) :=
  match l with
  | [] => Some []
  | c :: tl =>
      if code c =? 95
      then match prev, tl with
           | Some p, n :: _ =>
               if is_digit p && is_digit n then drop_underscores (Some c) tl else None
           | _, _ => None
           end
      else option_map (cons c) (drop_underscores (Some c) tl)
  end.

Definition p_sign (l : list ascii) : bool * list ascii :=
  match l with
  | "+"%char :: tl => (false, tl)
  | "-"%char :: tl => (true, tl)
  | _ => (false, l)
  end.

Definition p_exponent (l : list ascii) : option Z :=
  match l with
  | [] => Some 0
  | c :: tl =>
      if (code (lower_char c) =? 101)
      then let (neg, tl') := p_sign tl in
           match digits tl' 0%N 0 with
           | (v, n, []) =>
               if 0 <? n then Some (if neg then - Z.of_N v else Z.of_N v) else None
           | _ => None
           end
      else None
  end.

Definition p_number (neg : bool) (l : list ascii) : option float :=
  let '(ip, ni, l1) := digits l 0%N 0 in
  let '(fp, nf, l2) :=
    match l1 with
    | "."%char :: tl => digits tl 0%N 0
    | _ => (0%N, 0, l1)
    end in
  if (ni + nf =? 0) then None
  else match p_exponent l2 with
       | Some e => Some (of_decimal neg (ip * 10 ^ Z.to_N nf + fp)%N (e - nf))
       | None => None
       end.

(** [float(s)]; [None] stands for [ValueError]. *)
Definition of_string (s : string) : option float :=
  match drop_underscores None (to_list (strip s)) with
  | None => None
  | Some l =>
      let (neg, body) := p_sign l in
      let w := lower (of_list body) in
      if (w =? "inf")%string || (w =? "infinity")%string then Some (S754_infinity neg)
      else if (w =? "nan")%string then Some S754_nan
      else p_number neg body
  end.

(** A float literal of the source. *)
Definition lit (s : string) : float :=
  match of_string s with Some x => x | None => S754_nan end.

(** [1 <= amount <= 10_000_000] *)
Definition plausible (x : float) : bool :=
  leb (of_Z 1) x && leb x (of_Z 10000000).

(** *** Formatting with [format(x, ",.2f")] *)

Definition half_even (num den : Z) : Z :=
  let q := num / den in
  let r := num mod den in
  match 2 * r ?= den with
  | Lt => q
  | Gt => q + 1
  | Eq => if Z.even q then q else q + 1
  end.

(** The value in hundredths, rounded half to even. *)
Definition hundredths (m : positive) (e : Z) : Z :=
  if 0 <=? e then Zpos m * 2 ^ e * 100
  else half_even (Zpos m * 100) (2 ^ (- e)).

Definition dec (z : Z) : string := NilZero.string_of_uint (N.to_uint (Z.to_N z)).

(** Commas between groups of three digits, counted from the right. *)
Fixpoint group3 (l : list ascii) : list ascii :=
  match l with
  | [] => []
  | c :: tl =>
      let k := length tl in
      c :: (if ((0 <? k) && (k mod 3 =? 0))%nat then ","%char :: group3 tl
            else group3 tl)
  end.

Definition two (z : Z) : string :=
  if z <? 10 then "0" ++ dec z else dec z.

Definition format_2f (x : float) : string :=
  let sgn (s : bool) := if s then "-" else "" in
  match x with
  | S754_nan => "nan"
  | S754_infinity s => sgn s ++ "inf"
  | S754_zero s => sgn s ++ "0.00"
  | S754_finite s m e =>
      let h := hundredths m e in
      sgn s ++ of_list (group3 (to_list (dec (h / 100)))) ++ "." ++ two (h mod 100)
  end.

End PyFloat.

(** ** Python [datetime] *)

Module PyDate.
Import PyStr.

Definition is_leap (y : Z) : bool :=
  (y mod 4 =? 0) && (negb (y mod 100 =? 0) || (y mod 400 =? 0)).

Definition days_in_month (y m : Z) : Z :=
  if m =? 2 then (if is_leap y then 29 else 28)
  else if (m =? 4) || (m =? 6) || (m =? 9) || (m =? 11) then 30
  else 31.

(** The checks of the [datetime] constructor. *)
Definition valid_fields (y m d hh mm ss us : Z) : bool :=
  between 1 9999 y && between 1 12 m && between 1 (days_in_month y m) d
  && between 0 23 hh && between 0 59 mm && between 0 59 ss
  && between 0 999999 us.

(** A [datetime] object always denotes a real instant of the proleptic
    Gregorian calendar between the years 1 and 9999. *)
Record datetime : Type := mk_datetime {
  year : Z;
  month : Z;
  day : Z;
  hour : Z;
  minute : Z;
  second : Z;
  microsecond : Z;
  dt_ok : valid_fields year month day hour minute second microsecond = true
}.

(** [datetime(y, m, d, hh, mm, ss, us)]; [None] stands for [ValueError]. *)
Definition make (y m d hh mm ss us : Z) : option datetime :=
  match bool_dec (valid_fields y m d hh mm ss us) true with
  | left H => Some (mk_datetime y m d hh mm ss us H)
  | right _ => None
  end.

Definition with_date (t : datetime) (y m d : Z) : option datetime :=
  make y m d (hour t) (minute t) (second t) (microsecond t).

Definition tomorrow (t : datetime) : option datetime :=
  if day t <? days_in_month (year t) (month t)
  then with_date t (year t) (month t) (day t + 1)
  else if month t <? 12 then with_date t (year t) (month t + 1) 1
  else with_date t (year t + 1) 1 1.

Definition yesterday (t : datetime) : option datetime :=
  if 1 <? day t then with_date t (year t) (month t) (day t - 1)
  else if 1 <? month t
  then with_date t (year t) (month t - 1) (days_in_month (year t) (month t - 1))
  else with_date t (year t - 1) 12 31.

Definition bind_opt {A B : Type} (f : A -> option B) (o : option A) : option B :=
  match o with Some a => f a | None => None end.

(** [t + timedelta(days=n)]; [None] stands for
    [OverflowError("date value out of range")]. *)
Definition add_days (t : datetime) (n : Z) : option datetime :=
  match n with
  | Z0 => Some t
  | Zpos p => Pos.iter (bind_opt tomorrow) (Some t) p
  | Zneg p => Pos.iter (bind_opt yesterday) (Some t) p
  end.

Definition dec (z : Z) : string := NilZero.string_of_uint (N.to_uint (Z.to_N z)).

Fixpoint zeros (n : nat) : string :=
  match n with O => "" | S n' => "0" ++ zeros n' end.

(** [z] in decimal, zero-filled to [w] digits. *)
Definition pad (w : nat) (z : Z) : string :=
  let d := dec z in zeros (w - String.length d) ++ d.

(** [t.strftime("%Y-%m-%d")].  [strftime] hands the format to the C
    library, and the C library of Linux (glibc) writes [%Y] without leading
    zeros: the year 999 comes out as [999], not as [0999].  [%m] and [%d]
    are zero-filled to two digits. *)
Definition strftime_ymd (t : datetime) : string :=
  dec (year t) ++ "-" ++ pad 2 (month t) ++ "-" ++ pad 2 (day t).

(** [t.isoformat()], which formats the fields itself and zero-fills the year
    to four digits. *)
Definition isoformat (t : datetime) : string :=
  pad 4 (year t) ++ "-" ++ pad 2 (month t) ++ "-" ++ pad 2 (day t)
  ++ "T" ++ pad 2 (hour t) ++ ":" ++ pad 2 (minute t)
  ++ ":" ++ pad 2 (second t)
  ++ (if microsecond t =? 0 then "" else "." ++ pad 6 (microsecond t)).

(** *** [datetime.strptime]

    The format is turned into a regular expression, as [_strptime] does: a
    directive becomes a group, white space becomes [\s+], characters special
    to [re] are escaped.  The names are those of the C locale. *)

Definition months_abbr : list string :=
  ["jan"; "feb"; "mar"; "apr"; "may"; "jun";
   "jul"; "aug"; "sep"; "oct"; "nov"; "dec"].

Definition months_full : list string :=
  ["january"; "february"; "march"; "april"; "may"; "june";
   "july"; "august"; "september"; "october"; "november"; "december"].

Definition directive_re (c : ascii) : option string :=
  match c with
  | "d"%char => Some "(3[0-1]|[1-2]\d|0[1-9]|[1-9]| [1-9])"
  | "m"%char => Some "(1[0-2]|0[1-9]|[1-9])"
  | "Y"%char => Some "(\d\d\d\d)"
  | "b"%char => Some "(jan|feb|mar|apr|may|jun|jul|aug|sep|oct|nov|dec)"
  | "B"%char =>
      Some "(september|february|november|december|january|october|august|march|april|june|july|may)"
  | _ => None
  end.

Definition re_special (c : ascii) : bool :=
  existsb (Ascii.eqb c) (to_list "\.^$*+?(){}[]|").

(** The pattern text and the directives of its groups, in order. *)
Fixpoint format_re (l : list ascii) (in_space : bool)
  : option (string * list ascii) :=
  match l with
  | [] => Some ("", [])
  | "%"%char :: c :: tl =>
      match directive_re c, format_re tl false with
      | Some r, Some (rest, ds) => Some (r ++ rest, c :: ds)
      | _, _ => None
      end
  | c :: tl =>
      if isspace c
      then match format_re tl true with
           | Some (rest, ds) => Some ((if in_space then "" else "\s+") ++ rest, ds)
           | None => None
           end
      else match format_re tl false with
           | Some (rest, ds) =>
               Some ((if re_special c then "\" else "") ++ String c rest, ds)
           | None => None
           end
  end.

(** The value of a run of decimal digits, as [int] gives for the digit
    groups it is applied to. *)
Fixpoint int_acc (s : string) (acc : Z) : Z :=
  match s with
  | EmptyString => acc
  | String c s' => int_acc s' (if is_digit c then 10 * acc + (code c - 48) else acc)
  end.

Definition int_ (s : string) : Z := int_acc s 0.

Fixpoint index_of (w : string) (l : list string) (n : Z) : option Z :=
  match l with
  | [] => None
  | x :: tl => if (x =? w)%string then Some n else index_of w tl (n + 1)
  end.

(** The fields read so far: year, month, day (1900-01-01 by default). *)
Fixpoint fields (m : Re.match_) (ds : list ascii) (g : nat) (ymd : Z * Z * Z)
  : option (Z * Z * Z) :=
  match ds with
  | [] => Some ymd
  | c :: tl =>
      let '(y, mo, d) := ymd in
      match Re.group m g with
      | None => None
      | Some txt =>
          match c with
          | "d"%char => fields m tl (S g) (y, mo, int_ txt)
          | "m"%char => fields m tl (S g) (y, int_ txt, d)
          | "Y"%char => fields m tl (S g) (int_ txt, mo, d)
          | "b"%char =>
              match index_of (lower txt) months_abbr 1 with
              | Some k => fields m tl (S g) (y, k, d)
              | None => None
              end
          | "B"%char =>
              match index_of (lower txt) months_full 1 with
              | Some k => fields m tl (S g) (y, k, d)
              | None => None
              end
          | _ => None
          end
      end
  end.

(** [datetime.strptime(data, fmt)]; [None] stands for [ValueError]. *)
Definition strptime (data fmt : string) : option datetime :=
  match format_re (to_list fmt) false with
  | None => None
  | Some (re_text, ds) =>
      match Re.match_start (Re.compile_i re_text) data with
      | None => None
      | Some m =>
          if Re.m_end m =? len data
          then match fields m ds 1 (1900, 1, 1) with
               | Some (y, mo, d) => make y mo d 0 0 0 0
               | None => None
               end
          else None
      end
  end.

End PyDate.

(** ** Exceptions *)

Inductive exn : Type :=
| AnalyzerError (msg : string)
| IndexError (msg : string)
| KeyError (msg : string)
| AttributeError (msg : string)
| TypeError (msg : string)
| OverflowError (msg : string).

(** [str(e)] *)
Definition str_exn (e : exn) : string :=
  match e with
  | AnalyzerError m | IndexError m | KeyError m | AttributeError m
  | TypeError m | OverflowError m => m
  end.

Inductive result (A : Type) : Type :=
| Ok (a : A)
| Raise (e : exn).

Arguments Ok {A} a.
Arguments Raise {A} e.

Definition bind {A B : Type} (x : result A) (f : A -> result B) : result B :=
  match x with
  | Ok a => f a
  | Raise e => Raise e
  end.

Notation "x <- c1 ;; c2" := (bind c1 (fun x => c2))
  (at level 61, c1 at next level, right associativity).

(** ** The linguistic analyzer

    What the parser reads of a spaCy [Doc]: the tokens with their lemma,
    part of speech, [like_num] flag and entity type, the entity spans, and
    the noun chunks with the head and dependency of their root. *)

Record Token : Type := {
  text_ : string;
  lemma_ : string;
  pos_ : string;
  like_num : bool;
  ent_type_ : string
}.

Record Span : Type := {
  label_ : string;
  start_char : Z;
  span_text : string
}.

Record Chunk : Type := {
  root_head_i : Z;
  root_dep_ : string;
  chunk_tokens : list Token
}.

Record Doc : Type := {
  tokens : list Token;
  ents : list Span;
  noun_chunks : list Chunk
}.

(** ** The pattern library *)

(** The entries of [FINANCIAL_PATTERNS] that the functions use (["amount"],
    ["account"], ["phone"] and ["email"] are used by none). *)
Module Patterns.
Import Re.

Definition reference : pattern :=
  compile_i "\b(?:ref|txn|trans|upi|trf|id|crn|urn)[:\-]?\s*[a-z0-9]{5,20}\b".
Definition balance : pattern :=
  compile_i "(?:bal(?:ance)?|avail(?:able)?)(?:[:\-]|\s+of|\s+is)?\s*(rs|inr|usd|aed|eur)?\s*(\d{1,3}(?:[.,]\d{3})*(?:[.,]\d{1,2})?)".
Definition date_compact : pattern :=
  compile_i "(\d{1,2})([a-z]{3})(\d{2,4})".
Definition date_standard : pattern :=
  compile_i "(\d{1,2})[-/.](\d{1,2})[-/.](\d{2,4})".
Definition date_verbose : pattern :=
  compile_i "(\d{1,2})\s+([a-z]{3,9})\s+(\d{4})".
Definition transaction_indicators : pattern :=
  compile_i "\b(debited|credited|paid|sent|received|transfer|recharge|withdrawn|billed|utilized|charged|repayment|emi|purchase)\b".

End Patterns.

(** A category's configuration: a key that the source dictionary lacks is
    [None].  The value under ["providers"] is a dictionary of aliases for
    loans and a plain list elsewhere. *)
Inductive providers_t : Type :=
| ProviderAliases (d : list (string * list string))
| ProviderNames (l : list string).

Record config : Type := {
  keywords : option (list string);
  providers : option providers_t;
  context_phrases : option (list string);
  exceptions : option (list string);
  exclusions : option (list string)
}.

Definition loan_config : config := {|
  keywords := Some
    ["loan"; "emi"; "equated monthly installment"; "repayment"; "disbursement";
     "borrow"; "lend"; "credit limit"; "credit line"; "credit score"; "creditline";
     "pre-approved"; "sanctioned"; "borrow limit"; "loan a/c"; "loan account"];
  providers := Some (ProviderAliases
    [("slice", ["slice"; "pluxee"]);
     ("airtel", ["airtel black"; "airtel payments bank"]);
     ("hdfc", ["hdfc credit"; "hdfc bank credit"]);
     ("icici", ["icici credit"; "icici bank credit"]);
     ("kotak", ["kotak credit"; "kotak 811"]);
     ("cred", ["cred"; "cRED"]);
     ("lazyPay", ["lazypay"; "lazy pay"]);
     ("sbi", ["sbi credit"; "state bank credit"])]);
  context_phrases := Some
    ["repay\s+(?:rs|inr)?\s*\d+\.?\d*";
     "credit\s+score";
     "slice\s+app";
     "airtel\s+black\s+id";
     "emi\s+for";
     "due\s+date"];
  exceptions := None;
  exclusions := None
|}.

Definition credit_config : config := {|
  keywords := Some
    ["credited"; "received"; "load"; "added"; "topped up"; "deposit";
     "income"; "salary"; "recredited"; "refund"; "reversal"; "cashback";
     "interest"; "bonus"; "credit"; "reimbursed"; "transfer received";
     "funds added"; "amount credited"; "deposit successful"];
  providers := None;
  context_phrases := None;
  exceptions := Some
    ["reversal of credit"; "credit card payment"; "credit score";
     "credit limit"; "credit line"; "creditline"];
  exclusions := None
|}.

Definition debit_config : config := {|
  keywords := Some
    ["debited"; "spent"; "withdrawn"; "paid"; "sent"; "deducted";
     "purchase"; "billed"; "used"; "withdrew"; "transfer"; "payment";
     "utilized"; "charged"; "reversal"; "outstanding"; "minimum due";
     "past due"; "overdue"; "amount debited"; "transaction successful"];
  providers := None;
  context_phrases := None;
  exceptions := Some
    ["reversal of debit"; "credit card payment"; "emi payment"];
  exclusions := None
|}.

Definition investment_config : config := {|
  keywords := Some
    ["mf"; "mutual fund"; "sip"; "stock"; "equity"; "investment";
     "portfolio"; "groww"; "coin"; "zerodha"; "upstox"; "mf red";
     "mutualfund"; "investment account"];
  providers := None;
  context_phrases := Some
    ["mf\s+investment";
     "sip\s+on";
     "stock\s+purchased"];
  exceptions := None;
  exclusions := None
|}.

Definition insurance_config : config := {|
  keywords := Some
    ["insurance"; "premium"; "policy"; "claim"; "renewal"; "term plan";
     "health insurance"; "life insurance"; "car insurance"; "bike insurance"];
  providers := Some (ProviderNames
    ["lic"; "bharti axa"; "hdfc ergo"; "icici lombard"; "tata aig"]);
  context_phrases := None;
  exceptions := None;
  exclusions := None
|}.

Definition emi_config : config := {|
  keywords := Some
    ["emi"; "equated monthly installment"; "installment"; "emi payment";
     "emi due"; "emi processed"; "emi debited"];
  providers := None;
  context_phrases := Some
    ["emi\s+for\s+\w+";
     "emi\s+processed\s+for"];
  exceptions := None;
  exclusions := None
|}.

Definition recharge_config : config := {|
  keywords := Some
    ["recharge"; "topup"; "top-up"; "validity"; "mobile recharge";
     "dth recharge"; "data pack"; "voice plan"; "renewal"];
  providers := Some (ProviderNames
    ["airtel"; "jio"; "vi"; "vodafone"; "idea"; "bsnl"; "reliance"]);
  context_phrases := None;
  exceptions := None;
  exclusions := None
|}.

Definition atm_config : config := {|
  keywords := Some
    ["atm"; "cash withdrawal"; "cash withdraw"; "withdrawn at atm";
     "atm transaction"; "atm withdrawal"];
  providers := None;
  context_phrases := None;
  exceptions := None;
  exclusions := None
|}.

Definition cheque_config : config := {|
  keywords := Some
    ["cheque"; "check"; "cheque deposit"; "cheque cleared";
     "cheque bounce"; "cheque issued"];
  providers := None;
  context_phrases := None;
  exceptions := None;
  exclusions := None
|}.

Definition informational_config : config := {|
  keywords := Some
    ["balance"; "fund balance"; "security balance"; "portfolio"; "update";
     "notification"; "alert"; "reminder"; "promotional"; "offer"; "deal";
     "price"; "rate"; "buy"; "sell"; "investment opportunity"; "market update"];
  providers := None;
  context_phrases := None;
  exceptions := None;
  exclusions := Some
    ["debited"; "credited"; "paid"; "sent"; "received"; "transfer"; "recharge";
     "withdrawn"; "billed"; "utilized"; "charged"; "repayment"; "emi"]
|}.

(** The dictionary in insertion order, which is the order of iteration. *)
Definition TRANSACTION_CATEGORIES : list (string * config) :=
  [("loan", loan_config);
   ("credit", credit_config);
   ("debit", debit_config);
   ("investment", investment_config);
   ("insurance", insurance_config);
   ("emi", emi_config);
   ("recharge", recharge_config);
   ("atm", atm_config);
   ("cheque", cheque_config);
   ("informational", informational_config)].

(** The set of words never taken for a merchant. *)
Definition MERCHANT_BLACKLIST : list string :=
  ["bank"; "account"; "a/c"; "savings"; "current"; "balance"; "available";
   "wallet"; "upi"; "refno"; "reference"; "id"; "user"; "app"; "details";
   "call"; "if not"; "not you"; "please"; "contact"; "customer care";
   "mobile"; "recharge"; "validity"; "prepaid"; "postpaid"; "plan";
   "transaction"; "amount"; "rs"; "inr"; "usd"; "aed"; "eur"; "date";
   "time"; "location"; "terminal"; "pos"; "card"; "credit"; "debit";
   "payment"; "transfer"; "to"; "from"; "at"; "on"; "for"; "your";
   "account"; "acc"; "a/c"; "xxx"; "xx"; "xxxx"; "****"; "card";
   "cardnumber"; "crd"; "crdno"; "cardno"; "card number"; "cvv";
   "expiry"; "exp"; "valid"; "thru"; "thru date"; "mm/yy"; "mm/yy";
   "thank"; "thanks"; "regards"; "team"; "banking"; "online"; "app";
   "sms"; "message"; "alert"; "notification"; "service"; "charges";
   "fund"; "securities"; "balance"; "bal"; "reported"; "excludes"].

(** A key of the currency table: a word or sign of the modelled range, or a
    sign beyond it (given by its code point), which no text of the model
    contains. *)
Inductive currency_key : Type :=
| Word (s : string)
| Sign (code_point : Z).

Definition CURRENCY_CODES : list (currency_key * string) :=
  [(Word "rs", "INR"); (Word "inr", "INR"); (Sign 8377, "INR");
   (Word "usd", "USD"); (Word "$", "USD"); (Word "dollars", "USD");
   (Word "aed", "AED"); (Word "dirhams", "AED");
   (Word "eur", "EUR"); (Sign 8364, "EUR"); (Word "euros", "EUR");
   (Word "gbp", "GBP"); (Word (String (PyStr.chr 163) ""), "GBP"); (Word "pounds", "GBP");
   (Word "sgd", "SGD"); (Word "singapore dollars", "SGD");
   (Word "jpy", "JPY"); (Word (String (PyStr.chr 165) ""), "JPY"); (Word "yen", "JPY")].

(** ** Control flow

    A step of a cascade either returns a value, falls through to the next
    step, or raises. *)

Definition step (A : Type) : Type := result (option A).

Definition returns {A : Type} (a : A) : step A := Ok (Some a).
Definition falls_through {A : Type} : step A := Ok None.

Definition or_else {A : Type} (s : step A) (next : step A) : step A :=
  r <- s ;;
  match r with
  | Some a => Ok (Some a)
  | None => next
  end.

Definition or_default {A : Type} (s : step A) (a : A) : result A :=
  r <- s ;;
  match r with
  | Some x => Ok x
  | None => Ok a
  end.

Definition is_some {A : Type} (o : option A) : bool :=
  match o with Some _ => true | None => false end.

(** [x in l] for a list or set of strings. *)
Definition mem (x : string) (l : list string) : bool := existsb (String.eqb x) l.

(** [d[key]] *)
Definition getitem {A : Type} (key : string) (field : option A) : result A :=
  match field with
  | Some a => Ok a
  | None => Raise (KeyError key)
  end.

Fixpoint lookup {A : Type} (key : string) (d : list (string * A)) : option A :=
  match d with
  | [] => None
  | (k, v) :: tl => if (k =? key)%string then Some v else lookup key tl
  end.

(** [{"value": ..., "currency": ..., "formatted": ...}] *)
Record MonetaryAmount : Type := {
  value : PyFloat.float;
  currency : string;
  formatted : string
}.

(** [f"{currency} {amount:,.2f}"] *)
Definition money (amount : PyFloat.float) (cur : string) : MonetaryAmount :=
  {| value := amount; currency := cur;
     formatted := cur ++ " " ++ PyFloat.format_2f amount |}.

Definition key_in (k : currency_key) (s : string) : bool :=
  match k with
  | Word w => PyStr.contains w s
  | Sign _ => false
  end.

(** The code of the first key of [CURRENCY_CODES] found in the text,
    ["INR"] when there is none. *)
Fixpoint first_currency (d : list (currency_key * string)) (text_lower : string)
  : string :=
  match d with
  | [] => "INR"
  | (currency_name, code) :: tl =>
      if key_in currency_name text_lower then code else first_currency tl text_lower
  end.

(** A stable sort by an integer key, as [list.sort(key=...)]. *)
Section Sort.
Context {A : Type} (key : A -> Z).

Fixpoint insert (x : A) (l : list A) : list A :=
  match l with
  | [] => [x]
  | y :: tl => if key y <=? key x then y :: insert x tl else x :: l
  end.

Definition sort_by (l : list A) : list A := fold_right insert [] (rev l).
End Sort.

(** The dictionary that [parse_sms_spacy] returns.  The four keys added
    for some categories only are optional fields; a key whose value is
    [None] is [Some None]. *)
Module Txn.
Record t : Type := {
  raw_text : string;
  category : string;
  subcategory : string;
  amount : option PyFloat.float;
  currency : option string;
  formatted_amount : option string;
  merchant : option PyStr.ustr;
  date : string;
  balance : option MonetaryAmount;
  reference : option string;
  description : string;
  parser : string;
  timestamp : string;
  confidence : PyFloat.float;
  loan_provider : option (option PyStr.ustr);
  investment_platform : option (option PyStr.ustr);
  insurance_provider : option (option PyStr.ustr);
  info_type : option string
}.
End Txn.

(** What a call of [parse_sms_spacy] ends in: the dictionary, or
    [SMSParseError] with its message. *)
Inductive outcome : Type :=
| Parsed (r : Txn.t)
| SMSParseError (msg : string).

(** ** The parser *)

Section Parser.
Import PyStr.

(** The loaded spaCy pipeline; a failure inside it is a raised exception. *)
Variable nlp : string -> result Doc.

Definition c095 : PyFloat.float := PyFloat.lit "0.95".
Definition c090 : PyFloat.float := PyFloat.lit "0.90".
Definition c085 : PyFloat.float := PyFloat.lit "0.85".
Definition c080 : PyFloat.float := PyFloat.lit "0.80".
Definition c075 : PyFloat.float := PyFloat.lit "0.75".
Definition c070 : PyFloat.float := PyFloat.lit "0.70".

Definition transaction_verbs : list string :=
  ["pay"; "send"; "transfer"; "spend"; "use"; "purchase"; "withdraw"; "recharge"].

Definition is_transaction_verb (token : Token) : bool :=
  mem (lemma_ token) transaction_verbs && (pos_ token =? "VERB")%string.

Definition amount_indicators : list string :=
  ["by"; "of"; "for"; "rs"; "inr"; "amount"; "charged"].

(** An amount within the 30 characters after the first occurrence of the
    indicator. *)
Definition amount_follows (text_lower indicator : string) : bool :=
  if contains indicator text_lower then
    let pos := find indicator text_lower + len indicator in
    if pos <? len text_lower then
      let context := slice text_lower pos (pos + 30) in
      is_some (Re.search (Re.compile "\d{1,3}(?:[.,]\d{3})*(?:[.,]\d{1,2})?") context)
    else false
  else false.

Definition is_transactional_message (text : string) : result bool :=
  let text_lower := lower text in
  (* 1. explicit transaction indicators *)
  if is_some (Re.search Patterns.transaction_indicators text_lower) then Ok true
  else
    (* 2. transaction verbs in context *)
    doc <- nlp text_lower ;;
    if existsb is_transaction_verb (tokens doc) then Ok true
    (* 3. amount patterns with transaction context *)
    else if existsb (amount_follows text_lower) amount_indicators then Ok true
    (* 4. reference numbers *)
    else if is_some (Re.search Patterns.reference text_lower) then Ok true
    (* 5. likely informational *)
    else Ok false.

Definition classification : Type := (string * string * PyFloat.float)%type.

(** [re.sub(r"\s+", " ", re.sub(r"[^\w\s]", " ", text.lower())).strip()] *)
Definition normalize (text : string) : string :=
  strip (Re.sub (Re.compile "\s+") " "
           (Re.sub (Re.compile "[^\w\s]") " " (lower text))).

(** [any(re.search(pattern, text_lower) for pattern in phrases)] *)
Definition any_search (phrases : list string) (text_lower : string) : bool :=
  existsb (fun pattern => is_some (Re.search (Re.compile pattern) text_lower)) phrases.

(** The first provider one of whose aliases occurs in the text. *)
Fixpoint find_provider (d : list (string * list string)) (text_lower : string)
  : option string :=
  match d with
  | [] => None
  | (provider, aliases) :: tl =>
      if existsb (fun alias => contains alias text_lower) aliases
      then Some provider
      else find_provider tl text_lower
  end.

(** [config["providers"].items()] *)
Definition items (p : providers_t) : result (list (string * list string)) :=
  match p with
  | ProviderAliases d => Ok d
  | ProviderNames _ => Raise (AttributeError "'list' object has no attribute 'items'")
  end.

(** What the specialised scan returns once a keyword of [category] is found
    in the text. *)
Definition on_keyword (category : string) (cfg : config) (text_lower : string)
  : result classification :=
  let plain := Ok (category, "", c085) in
  match context_phrases cfg with
  | Some phrases =>
      (* verify context if needed *)
      if any_search phrases text_lower then
        match (category =? "loan")%string, providers cfg with
        | true, Some p =>
            d <- items p ;;
            match find_provider d text_lower with
            | Some provider => Ok (category, provider, c095)
            | None => Ok (category, "", c090)
            end
        | _, _ => Ok (category, "", c090)
        end
      else plain
  | None => plain
  end.

Fixpoint scan_keywords (category : string) (cfg : config) (text_lower : string)
         (kws : list string) : step classification :=
  match kws with
  | [] => falls_through
  | kw :: tl =>
      if contains kw text_lower
      then r <- on_keyword category cfg text_lower ;; returns r
      else scan_keywords category cfg text_lower tl
  end.

(** 2. The specialised categories, in the order of the table. *)
Fixpoint scan_categories (cats : list (string * config)) (text_lower : string)
  : step classification :=
  match cats with
  | [] => falls_through
  | (category, cfg) :: tl =>
      if mem category ["credit"; "debit"; "informational"]
      then scan_categories tl text_lower
      else
        match keywords cfg with
        | Some kws =>
            or_else (scan_keywords category cfg text_lower kws)
                    (scan_categories tl text_lower)
        | None => scan_categories tl text_lower
        end
  end.

(** 3. The loan category with provider identification. *)
Fixpoint recheck_keywords (loan_config : config) (text_lower : string)
         (kws : list string) : step classification :=
  match kws with
  | [] => falls_through
  | kw :: tl =>
      if contains kw text_lower then
        phrases <- getitem "context_phrases" (context_phrases loan_config) ;;
        if any_search phrases text_lower then
          (* identify the specific loan provider *)
          p <- getitem "providers" (providers loan_config) ;;
          d <- items p ;;
          match find_provider d text_lower with
          | Some provider => returns ("loan", provider, c095)
          | None => returns ("loan", "generic", c090)
          end
        else recheck_keywords loan_config text_lower tl
      else recheck_keywords loan_config text_lower tl
  end.

Definition loan_recheck (text_lower : string) : step classification :=
  match lookup "loan" TRANSACTION_CATEGORIES with
  | Some loan_config =>
      kws <- getitem "keywords" (keywords loan_config) ;;
      recheck_keywords loan_config text_lower kws
  | None => falls_through
  end.

Definition any_in (l : list string) (text_lower : string) : bool :=
  existsb (fun x => contains x text_lower) l.

(** 4. Credit indicators. *)
Fixpoint credit_keywords (credit_config : config) (text_lower : string)
         (kws : list string) : step classification :=
  match kws with
  | [] => falls_through
  | kw :: tl =>
      if contains kw text_lower then
        excs <- getitem "exceptions" (exceptions credit_config) ;;
        if negb (any_in excs text_lower) then
          (* special handling for EMI-related credits *)
          if contains "emi" text_lower && contains "credit" text_lower
          then returns ("emi", "credit", c085)
          else returns ("credit", "", c080)
        else credit_keywords credit_config text_lower tl
      else credit_keywords credit_config text_lower tl
  end.

(** 5. Debit indicators. *)
Fixpoint debit_keywords (debit_config : config) (text_lower : string)
         (kws : list string) : step classification :=
  match kws with
  | [] => falls_through
  | kw :: tl =>
      if contains kw text_lower then
        excs <- getitem "exceptions" (exceptions debit_config) ;;
        if negb (any_in excs text_lower) then
          (* special handling for EMI payments *)
          if contains "emi" text_lower then returns ("emi", "debit", c085)
          (* the transaction method *)
          else if contains "upi" text_lower then returns ("debit", "upi", c080)
          else if contains "atm" text_lower then returns ("debit", "atm", c080)
          else if contains "pos" text_lower || contains "swipe" text_lower
               then returns ("debit", "pos", c080)
          else returns ("debit", "general", c075)
        else debit_keywords debit_config text_lower tl
      else debit_keywords debit_config text_lower tl
  end.

(** The scan of a basic category: [TRANSACTION_CATEGORIES[name]] and the
    loop over its keywords. *)
Definition basic_scan
           (loop : config -> string -> list string -> step classification)
           (name : string) (text_lower : string) : step classification :=
  cfg <- getitem name (lookup name TRANSACTION_CATEGORIES) ;;
  kws <- getitem "keywords" (keywords cfg) ;;
  loop cfg text_lower kws.

(** Steps 2 to 6, for a message that is transactional. *)
Definition classify_transactional (text_lower : string) : result classification :=
  or_default
    (or_else (scan_categories TRANSACTION_CATEGORIES text_lower)
    (or_else (loan_recheck text_lower)
    (or_else (basic_scan credit_keywords "credit" text_lower)
             (basic_scan debit_keywords "debit" text_lower))))
    (* 6. fallback to debit *)
    ("debit", "general", c070).

Definition detect_category (text : string) : result classification :=
  let text_lower := normalize text in
  (* 1. is this even a transactional message *)
  transactional <- is_transactional_message text ;;
  if negb transactional then Ok ("informational", "general", c095)
  else classify_transactional text_lower.

(** [detect_category] with step 3, the loan re-check, taken out. *)
Definition classify_no_recheck (text_lower : string) : result classification :=
  or_default
    (or_else (scan_categories TRANSACTION_CATEGORIES text_lower)
    (or_else (basic_scan credit_keywords "credit" text_lower)
             (basic_scan debit_keywords "debit" text_lower)))
    ("debit", "general", c070).

Definition detect_category_no_recheck (text : string) : result classification :=
  let text_lower := normalize text in
  transactional <- is_transactional_message text ;;
  if negb transactional then Ok ("informational", "general", c095)
  else classify_no_recheck text_lower.

(** *** Amounts *)

Definition transaction_indicators : list string :=
  ["by"; "of"; "for"; "rs"; "inr"; "amount"; "charged"; "debited"; "credited"].

Definition char_in (c : ascii) (l : string) : bool := existsb (Ascii.eqb c) (to_list l).

(** [text[i]] *)
Definition char_at (text : string) (i : Z) : result ascii :=
  match item text i with
  | Some c => Ok c
  | None => Raise (IndexError "string index out of range")
  end.

(** [m.group(g)] where the source goes on to call a string method. *)
Definition group_str (m : Re.match_) (g : nat) : result string :=
  match Re.group m g with
  | Some s => Ok s
  | None => Raise (AttributeError "'NoneType' object has no attribute 'replace'")
  end.

(** One round of the indicator loop: the candidate [(amount, position)]
    that the indicator adds to [amounts], if any. *)
Definition indicator_candidate (text text_lower indicator : string)
  : result (option (PyFloat.float * Z)) :=
  if contains indicator text_lower then
    let pos := find indicator text_lower + len indicator in
    (* the amount pattern in the next 30 characters *)
    let context := slice text pos (pos + 30) in
    let amount_pattern := "(\d{1,3}(?:,\d{3})*(?:\.\d{1,2})?|\d+\.\d{1,2}|\d+)" in
    match Re.search (Re.compile amount_pattern) context with
    | Some m =>
        g <- group_str m 1 ;;
        let amount_str := replace "," "" g in
        match PyFloat.of_string amount_str with
        | Some amount =>
            if PyFloat.plausible amount then
              (* likely an account number: preceded by X or # *)
              let actual_pos := pos + Re.m_start m in
              account <-
                (if actual_pos >? 0 then
                   prev_char <- char_at text (actual_pos - 1) ;;
                   Ok (char_in prev_char "Xx#")
                 else Ok false) ;;
              if account then Ok None
              else
                (* the amount must be properly separated *)
                glued <-
                  (if actual_pos + len (Re.group0 m) <? len text then
                     next_char <- char_at text (actual_pos + len (Re.group0 m)) ;;
                     Ok (negb (isspace next_char) && negb (char_in next_char ".,)]}"))
                   else Ok false) ;;
                if glued then Ok None
                else Ok (Some (amount, actual_pos))
            else Ok None
        | None => Ok None
        end
    | None => Ok None
    end
  else Ok None.

(** The list [amounts] after the loop over the indicators. *)
Fixpoint collect_amounts (text text_lower : string) (indicators : list string)
  : result (list (PyFloat.float * Z)) :=
  match indicators with
  | [] => Ok []
  | indicator :: tl =>
      c <- indicator_candidate text text_lower indicator ;;
      rest <- collect_amounts text text_lower tl ;;
      Ok (match c with Some x => x :: rest | None => rest end)
  end.

(** 1. The amount after a transaction indicator; the earliest wins. *)
Definition amount_by_indicator (text text_lower : string) : step MonetaryAmount :=
  amounts <- collect_amounts text text_lower transaction_indicators ;;
  match sort_by snd amounts with
  | (amount, _) :: _ => returns (money amount (first_currency CURRENCY_CODES text_lower))
  | [] => falls_through
  end.

(** 2. [MONEY] entities near a transaction keyword. *)
Fixpoint amount_by_entity (text_lower : string) (l : list Span) : step MonetaryAmount :=
  match l with
  | [] => falls_through
  | ent :: tl =>
      let next := amount_by_entity text_lower tl in
      if (label_ ent =? "MONEY")%string then
        let start_idx := Z.max 0 (start_char ent - 50) in
        let context := slice text_lower start_idx (start_char ent) in
        if existsb (fun kw => contains kw context) transaction_indicators then
          let clean_amt := Re.sub (Re.compile "[^\d.]") "" (span_text ent) in
          if isdigit (replace_first "." "" clean_amt) then
            match PyFloat.of_string clean_amt with
            | Some amount =>
                if PyFloat.plausible amount
                then returns (money amount (first_currency CURRENCY_CODES text_lower))
                else next
            | None => next
            end
          else next
        else next
      else next
  end.

(** 3. An amount after a currency prefix. *)
Definition amount_by_prefix (text_lower : string) : step MonetaryAmount :=
  let amount_pattern := "(?:rs\.?\s*|inr\s*)(\d{1,3}(?:,\d{3})*(?:\.\d{1,2})?)\b" in
  match Re.search (Re.compile amount_pattern) text_lower with
  | Some m =>
      g <- group_str m 1 ;;
      match PyFloat.of_string (replace "," "" g) with
      | Some amount =>
          if PyFloat.plausible amount
          then returns (money amount (first_currency CURRENCY_CODES text_lower))
          else falls_through
      | None => falls_through
      end
  | None => falls_through
  end.

(** 4. Any number-like token; [prev] is the token before, when [token.i > 0]. *)
Fixpoint amount_by_token (prev : option Token) (l : list Token) : step MonetaryAmount :=
  match l with
  | [] => falls_through
  | token :: tl =>
      let next := amount_by_token (Some token) tl in
      if like_num token && negb (ent_type_ token =? "DATE")%string then
        match PyFloat.of_string (replace "," "" (text_ token)) with
        | Some amount =>
            (* skip account numbers (X1234 pattern) *)
            if match prev with
               | Some p => is_some (Re.match_start (Re.compile "^[a-zA-Z]$") (text_ p))
               | None => false
               end
            then next
            else if PyFloat.plausible amount then returns (money amount "INR")
            else next
        | None => next
        end
      else next
  end.

Definition extract_amount (text : string) : result (option MonetaryAmount) :=
  let text_lower := lower text in
  or_else (amount_by_indicator text text_lower)
 (or_else (doc <- nlp text ;; amount_by_entity text_lower (ents doc))
 (or_else (amount_by_prefix text_lower)
          (doc <- nlp text ;; amount_by_token None (tokens doc)))).

(** *** Merchants *)

(** Iterating over the value under ["providers"]: the names of a list, the
    keys of a dictionary. *)
Definition provider_names (p : providers_t) : list string :=
  match p with
  | ProviderNames l => l
  | ProviderAliases d => List.map fst d
  end.

(** [TRANSACTION_CATEGORIES[name]["providers"]] *)
Definition providers_of (name : string) : result (list string) :=
  cfg <- getitem name (lookup name TRANSACTION_CATEGORIES) ;;
  p <- getitem "providers" (providers cfg) ;;
  Ok (provider_names p).

(** The first provider named in the text, with [suffix] after its title
    form; [default] when none is. *)
Fixpoint provider_merchant (l : list string) (text_lower : string)
         (suffix default : string) : ustr :=
  match l with
  | [] => u default
  | provider :: tl =>
      if contains provider text_lower
      then (title provider ++ u suffix)%list
      else provider_merchant tl text_lower suffix default
  end.

(** A group that the source formats or strips without a check. *)
Definition group_of (m : Re.match_) (g : nat) : result string :=
  match Re.group m g with
  | Some s => Ok s
  | None => Raise (AttributeError "'NoneType' object has no attribute 'strip'")
  end.

(** 1. Informational messages: an app or institution name, or nothing. *)
Definition informational_merchant (text text_lower : string) : result (option ustr) :=
  let app :=
    if contains "app" text_lower || contains "buy" text_lower
       || contains "sell" text_lower
    then
      match Re.search (Re.compile_i "on your ([a-zA-Z]+) App") text with
      | Some m => g <- group_of m 1 ;; returns (u g ++ u " App")%list
      | None =>
          match Re.search (Re.compile_i "only on ([a-zA-Z]+)") text with
          | Some m => g <- group_of m 1 ;; returns (u g ++ u " App")%list
          | None => falls_through
          end
      end
    else falls_through in
  let institution :=
    if contains "balance" text_lower || contains "fund" text_lower
    then
      match Re.search (Re.compile "^([A-Z\s]+) on") text with
      | Some m => g <- group_of m 1 ;; returns (u (strip g))
      | None => falls_through
      end
    else falls_through in
  or_else app institution.

(** 3. UPI transactions: the name after "trf to", "sent to", ... *)
Definition upi_patterns : list string :=
  ["trf\s+to\s+([a-zA-Z0-9\s]{3,30})";
   "sent\s+to\s+([a-zA-Z0-9\s]{3,30})";
   "paid\s+to\s+([a-zA-Z0-9\s]{3,30})";
   "transfer\s+to\s+([a-zA-Z0-9\s]{3,30})"].

Fixpoint upi_merchant (text : string) (patterns : list string) : step ustr :=
  match patterns with
  | [] => falls_through
  | pattern :: tl =>
      match Re.search (Re.compile_i pattern) text with
      | Some m =>
          g <- group_of m 1 ;;
          let merchant := strip g in
          let merchant := Re.sub (Re.compile "\s+Ref.*$") "" merchant in
          let merchant := Re.sub (Re.compile "\s+(?:UPI|ref|id|crn).*") "" merchant in
          returns (title merchant)
      | None => upi_merchant text tl
      end
  end.

(** 4. The words after a merchant indicator. *)
Definition merchant_indicators : list string :=
  ["to"; "at"; "from"; "trf"; "transfer"; "recharge"; "paid"].

Fixpoint firstn_words (n : nat) (l : list string) : list string :=
  match n, l with
  | S n', w :: tl => w :: firstn_words n' tl
  | _, _ => []
  end.

Definition merchant_words (candidate : string) : list ustr :=
  List.map capitalize
    (filter (fun w => negb (mem (lower w) MERCHANT_BLACKLIST) && (1 <? len w))
            (firstn_words 5 (split candidate))).

Fixpoint general_merchant (text text_lower : string) (indicators : list string)
  : step ustr :=
  match indicators with
  | [] => falls_through
  | indicator :: tl =>
      let next := general_merchant text text_lower tl in
      if contains indicator text_lower then
        let pos := find indicator text_lower + len indicator in
        if pos <? len text then
          (* the next words as a potential merchant *)
          let candidate := slice text pos (pos + 50) in
          let candidate :=
            Re.sub (Re.compile_i "\b(?:ref|id|user|upi|rs|inr|amount|charged)\b.*")
                   "" candidate in
          let candidate := Re.sub (Re.compile "[^\w\s]") " " candidate in
          match merchant_words candidate with
          | [] => next
          | words => returns (u_strip (u_join (u " ") words))
          end
        else next
      else next
  end.

(** 5. A noun chunk that is the object of a transaction verb. *)
Fixpoint chunk_merchant (i : Z) (chunks : list Chunk) : option ustr :=
  match chunks with
  | [] => None
  | chunk :: tl =>
      if (root_head_i chunk =? i) && mem (root_dep_ chunk) ["dobj"; "pobj"] then
        match List.map (fun w => capitalize (text_ w))
                (filter (fun w => negb (mem (lower (text_ w)) MERCHANT_BLACKLIST))
                        (chunk_tokens chunk)) with
        | [] => chunk_merchant i tl
        | words => Some (u_join (u " ") words)
        end
      else chunk_merchant i tl
  end.

Fixpoint verb_merchant (doc : Doc) (i : Z) (l : list Token) : option ustr :=
  match l with
  | [] => None
  | token :: tl =>
      if is_transaction_verb token then
        match chunk_merchant i (noun_chunks doc) with
        | Some merchant => Some merchant
        | None => verb_merchant doc (i + 1) tl
        end
      else verb_merchant doc (i + 1) tl
  end.

(** 6. Default merchants for known transaction types. *)
Definition default_merchant (text_lower : string) : ustr :=
  if contains "atm" text_lower then u "ATM Withdrawal"
  else if contains "pos" text_lower || contains "swipe" text_lower
       then u "Card Purchase"
  else if contains "cheque" text_lower then u "Cheque Transaction"
  else u "Merchant".

Definition extract_merchant (text category subcategory : string)
  : result (option ustr) :=
  let text_lower := lower text in
  if (category =? "informational")%string
  then informational_merchant text text_lower
  (* 2. special handling for specific categories *)
  else if (category =? "loan")%string && negb (subcategory =? "generic")%string
  then Ok (Some (title subcategory ++ u " Loan")%list)
  else if (category =? "recharge")%string
  then l <- providers_of "recharge" ;;
       Ok (Some (provider_merchant l text_lower " Recharge" "Mobile Recharge"))
  else if (category =? "insurance")%string
  then l <- providers_of "insurance" ;;
       Ok (Some (provider_merchant l text_lower " Insurance" "Insurance Premium"))
  else if (category =? "investment")%string
  then Ok (Some (provider_merchant
                   ["groww"; "coin"; "zerodha"; "upstox"; "mf utility"]
                   text_lower " Investment" "Investment"))
  else
    merchant <-
      or_default
        (or_else
           (if (category =? "debit")%string && (subcategory =? "upi")%string
            then upi_merchant text upi_patterns else falls_through)
        (or_else (general_merchant text text_lower merchant_indicators)
                 (doc <- nlp text ;; Ok (verb_merchant doc 0 (tokens doc)))))
        (default_merchant text_lower) ;;
    Ok (Some merchant).

(** *** Dates *)

Import PyDate.

(** The table of relative dates, in insertion order. *)
Definition relative_dates : list (string * Z) :=
  [("today", 0); ("yesterday", -1); ("tomorrow", 1);
   ("now", 0); ("just now", 0); ("a moment ago", 0)].

(** [sms_timestamp or datetime.now()]: a [datetime] is never false. *)
Definition or_now (sms_timestamp : option datetime) (now : datetime) : datetime :=
  match sms_timestamp with
  | Some t => t
  | None => now
  end.

(** 1. Relative dates. *)
Fixpoint relative_date (text_lower : string) (sms_timestamp : option datetime)
         (now : datetime) (d : list (string * Z)) : step string :=
  match d with
  | [] => falls_through
  | (rel_date, offset) :: tl =>
      if contains rel_date text_lower then
        let base := or_now sms_timestamp now in
        match add_days base offset with
        | Some t => returns (strftime_ymd t)
        | None => Raise (OverflowError "date value out of range")
        end
      else relative_date text_lower sms_timestamp now tl
  end.

(** [match.groups()] of a pattern with three groups that always take part. *)
Definition groups3 (m : Re.match_) : result (string * string * string) :=
  match Re.group m 1, Re.group m 2, Re.group m 3 with
  | Some a, Some b, Some c => Ok (a, b, c)
  | _, _, _ => Raise (TypeError "object of type 'NoneType' has no len()")
  end.

(** A two-digit year: below 50 in the 2000s, else in the 1900s. *)
Definition full_year (year : string) : string :=
  if len year =? 2 then (if int_ year <? 50 then "20" ++ year else "19" ++ year)
  else year.

(** [strptime(s, fmt).strftime("%Y-%m-%d")] inside [try ... except ValueError]. *)
Definition reformat (s fmt : string) : option string :=
  option_map strftime_ymd (strptime s fmt).

(** 2. Compact dates (15May25). *)
Definition compact_date (text : string) : step string :=
  match Re.search Patterns.date_compact text with
  | Some m =>
      g <- groups3 m ;;
      let '(day, month_abbr, year) := g in
      let year := full_year year in
      Ok (reformat (day ++ " " ++ month_abbr ++ " " ++ year) "%d %b %Y")
  | None => falls_through
  end.

Definition standard_formats : list string :=
  ["%d/%m/%Y"; "%m/%d/%Y"; "%d-%m-%Y"; "%m-%d-%Y"; "%d.%m.%Y"; "%m.%d.%Y"].

Fixpoint first_format (s : string) (fmts : list string) : option string :=
  match fmts with
  | [] => None
  | fmt :: tl =>
      match reformat s (replace "-" " " (replace "/" " " fmt)) with
      | Some d => Some d
      | None => first_format s tl
      end
  end.

(** 3. Standard dates (dd/mm/yy, dd-mm-yyyy, ...). *)
Definition standard_date (text : string) : step string :=
  match Re.search Patterns.date_standard text with
  | Some m =>
      parts <- groups3 m ;;
      let '(p0, p1, p2) := parts in
      Ok (first_format (p0 ++ " " ++ p1 ++ " " ++ full_year p2) standard_formats)
  | None => falls_through
  end.

(** 4. Verbose dates (15 May 2025). *)
Definition verbose_date (text : string) : step string :=
  match Re.search Patterns.date_verbose text with
  | Some m =>
      g <- groups3 m ;;
      let '(day, month, year) := g in
      let s := day ++ " " ++ month ++ " " ++ year in
      match reformat s "%d %B %Y" with
      | Some d => returns d
      | None => Ok (reformat s "%d %b %Y")
      end
  | None => falls_through
  end.

Definition date_indicators : list string := ["on"; "date"; "for"; "by"; "at"].

(** 5. A date indicator and the text after it. *)
Fixpoint indicated_date (text text_lower : string) (indicators : list string)
  : step string :=
  match indicators with
  | [] => falls_through
  | indicator :: tl =>
      let next := indicated_date text text_lower tl in
      let pos := find indicator text_lower in
      if negb (pos =? -1) then
        let date_candidate :=
          slice text (pos + len indicator) (pos + len indicator + 30) in
        match Re.search (Re.compile_i "(\d{1,2})\s+([a-z]{3,9})\s+(\d{4})")
                        date_candidate with
        | Some m =>
            g <- groups3 m ;;
            let '(g1, g2, g3) := g in
            match reformat (g1 ++ " " ++ g2 ++ " " ++ g3) "%d %b %Y" with
            | Some d => returns d
            | None => next
            end
        | None => next
        end
      else next
  end.

(** [now] is what [datetime.now()] gives if the function comes to call it. *)
Definition extract_date (text : string) (sms_timestamp : option datetime)
           (now : datetime) : result string :=
  let text_lower := lower text in
  or_default
    (or_else (relative_date text_lower sms_timestamp now relative_dates)
    (or_else (compact_date text)
    (or_else (standard_date text)
    (or_else (verbose_date text)
             (indicated_date text text_lower date_indicators)))))
    (* 6. fallback to the SMS timestamp or today *)
    (strftime_ymd (or_now sms_timestamp now)).

(** *** Balances and references *)

(** [CURRENCY_CODES.get(key, default)] *)
Fixpoint currency_get (d : list (currency_key * string)) (key default : string)
  : string :=
  match d with
  | [] => default
  | (Word w, code) :: tl => if (w =? key)%string then code else currency_get tl key default
  | (Sign _, _) :: tl => currency_get tl key default
  end.

(** The list [balances] after the loop over the matches. *)
Fixpoint collect_balances (ms : list Re.match_)
  : result (list (PyFloat.float * string * Z)) :=
  match ms with
  | [] => Ok []
  | m :: tl =>
      let currency :=
        match Re.group m 1 with
        | Some "" | None => "INR"
        | Some c => c
        end in
      g <- group_str m 2 ;;
      let amount_str := replace "," "" g in
      rest <- collect_balances tl ;;
      match PyFloat.of_string amount_str with
      | Some amount => Ok ((amount, currency, Re.m_start m) :: rest)
      | None => Ok rest
      end
  end.

Definition extract_balance (text : string) : result (option MonetaryAmount) :=
  (* 1. find balance patterns *)
  balances <- collect_balances (Re.finditer Patterns.balance text) ;;
  (* 2. the earliest one *)
  match sort_by snd balances with
  | (amount, currency, _) :: _ =>
      let currency_code := currency_get CURRENCY_CODES (lower currency) (upper currency) in
      Ok (Some (money amount currency_code))
  | [] => Ok None
  end.

Definition extract_reference (text : string) : option string :=
  match Re.search Patterns.reference text with
  | Some m =>
      let ref := Re.group0 m in
      let ref := Re.sub (Re.compile "[:\-]\s*") " " ref in
      let ref := Re.sub (Re.compile "\s+") " " ref in
      Some (upper (strip ref))
  | None => None
  end.

(** *** The orchestrator *)

(** [subcategory or merchant] *)
Definition or_merchant (subcategory : string) (merchant : option ustr) : option ustr :=
  match subcategory with
  | EmptyString => merchant
  | _ => Some (u subcategory)
  end.

(** The body of the [try] block.  [now_date] and [now_record] are the
    readings of the clock in [extract_date] and at the assembly of the
    record. *)
Definition parse_body (sms_text : string) (sms_timestamp : option datetime)
           (now_date now_record : datetime) : result Txn.t :=
  (* 1. the transaction category *)
  c <- detect_category sms_text ;;
  let '(category, subcategory, confidence) := c in
  (* 2. the financial data, for actual transactions only *)
  x <- (if negb (category =? "informational")%string then
          amount <- extract_amount sms_text ;;
          merchant <- extract_merchant sms_text category subcategory ;;
          Ok (amount, merchant, extract_reference sms_text)
        else Ok (None, None, None)) ;;
  let '(amount, merchant, reference) := x in
  transaction_date <- extract_date sms_text sms_timestamp now_date ;;
  balance <- extract_balance sms_text ;;
  (* 3. the response and 4. the category-specific metadata *)
  let sms_lower := lower sms_text in
  Ok {|
    Txn.raw_text := sms_text;
    Txn.category := category;
    Txn.subcategory := subcategory;
    Txn.amount := option_map value amount;
    Txn.currency := option_map currency amount;
    Txn.formatted_amount := option_map formatted amount;
    Txn.merchant := merchant;
    Txn.date := transaction_date;
    Txn.balance := balance;
    Txn.reference := reference;
    Txn.description := sms_text;
    Txn.parser := "spacy_universal_v4";
    Txn.timestamp := isoformat now_record;
    Txn.confidence := confidence;
    Txn.loan_provider :=
      if (category =? "loan")%string
      then Some (if negb (subcategory =? "generic")%string
                 then Some (u subcategory) else merchant)
      else None;
    Txn.investment_platform :=
      if negb (category =? "loan")%string && (category =? "investment")%string
      then Some (or_merchant subcategory merchant) else None;
    Txn.insurance_provider :=
      if negb (category =? "loan")%string && negb (category =? "investment")%string
         && (category =? "insurance")%string
      then Some (or_merchant subcategory merchant) else None;
    Txn.info_type :=
      if (category =? "informational")%string then
        if contains "price" sms_lower || contains "rate" sms_lower
        then Some "market_update"
        else if contains "balance" sms_lower || contains "fund" sms_lower
        then Some "balance_update"
        else if contains "offer" sms_lower || contains "deal" sms_lower
                || contains "buy" sms_lower
        then Some "promotion"
        else None
      else None
  |}.

(** [not sms_text or not sms_text.strip()] *)
Definition is_blank (sms_text : string) : bool :=
  match strip sms_text with
  | EmptyString => true
  | _ => false
  end.

Definition parse_sms_spacy (sms_text : string) (sms_timestamp : option datetime)
           (now_date now_record : datetime) : outcome :=
  if is_blank sms_text then SMSParseError "Empty SMS content"
  else
    match parse_body sms_text sms_timestamp now_date now_record with
    | Ok r => Parsed r
    | Raise e => SMSParseError ("Universal SMS parsing failed: " ++ str_exn e)
    end.

End Parser.


(** ** Vocabulary of the properties *)

(** [re.match(r"^\d{4}-\d{2}-\d{2}$", d)] *)
Definition iso_date : Re.pattern := Re.compile "^\d{4}-\d{2}-\d{2}$".

Definition is_iso_date (d : string) : bool := is_some (Re.match_start iso_date d).

(** No date pattern of [extract_date] matches: no relative keyword occurs,
    the compact, standard and verbose patterns have no match in the text,
    and the verbose pattern has none after a date indicator. *)
Definition no_date_pattern (text : string) : Prop :=
  (forall rel_date offset, In (rel_date, offset) relative_dates ->
     PyStr.contains rel_date (PyStr.lower text) = false)
  /\ Re.search Patterns.date_compact text = None
  /\ Re.search Patterns.date_standard text = None
  /\ Re.search Patterns.date_verbose text = None
  /\ (forall indicator, In indicator date_indicators ->
        let pos := PyStr.find indicator (PyStr.lower text) in
        Re.search (Re.compile_i "(\d{1,2})\s+([a-z]{3,9})\s+(\d{4})")
                  (PyStr.slice text (pos + PyStr.len indicator)
                                    (pos + PyStr.len indicator + 30)) = None).

(** Two records that agree on every key but ["timestamp"]. *)
Definition same_but_timestamp (r1 r2 : Txn.t) : Prop :=
  Txn.raw_text r1 = Txn.raw_text r2
  /\ Txn.category r1 = Txn.category r2
  /\ Txn.subcategory r1 = Txn.subcategory r2
  /\ Txn.amount r1 = Txn.amount r2
  /\ Txn.currency r1 = Txn.currency r2
  /\ Txn.formatted_amount r1 = Txn.formatted_amount r2
  /\ Txn.merchant r1 = Txn.merchant r2
  /\ Txn.date r1 = Txn.date r2
  /\ Txn.balance r1 = Txn.balance r2
  /\ Txn.reference r1 = Txn.reference r2
  /\ Txn.description r1 = Txn.description r2
  /\ Txn.parser r1 = Txn.parser r2
  /\ Txn.confidence r1 = Txn.confidence r2
  /\ Txn.loan_provider r1 = Txn.loan_provider r2
  /\ Txn.investment_platform r1 = Txn.investment_platform r2
  /\ Txn.insurance_provider r1 = Txn.insurance_provider r2
  /\ Txn.info_type r1 = Txn.info_type r2.

(** *** Sample inputs

    An analyzer that takes the words between white space for tokens, calls
    a token number-like when it is made of digits, commas and full stops,
    and reports neither entities nor noun chunks; two instants. *)

Definition word_token (w : string) : Token := {|
  text_ := w;
  lemma_ := PyStr.lower w;
  pos_ := "X";
  like_num := PyStr.isdigit (PyStr.replace "," "" (PyStr.replace "." "" w));
  ent_type_ := ""
|}.

Definition words_nlp (text : string) : result Doc :=
  Ok {| tokens := List.map word_token (PyStr.split text);
        ents := [];
        noun_chunks := [] |}.

Definition noon_10_june_2025 : PyDate.datetime :=
  PyDate.mk_datetime 2025 6 10 12 0 0 0 eq_refl.

Definition morning_2_jan_2026 : PyDate.datetime :=
  PyDate.mk_datetime 2026 1 2 3 4 5 6 eq_refl.

(** The messages of the scenarios. *)
Definition balance_alert : string :=
  "Balance alert: Your savings account balance is Rs 45000".

Definition account_message : string := "Rs.5000 debited from A/c X6072".

Definition loan_message : string := "Loan of Rs 5000 debited".

Definition payment_message : string := "paid Rs 500 to Ravi".

Definition low_balance_message : string := "Your balance is low".

(** A payment dated in the year 999. *)
Definition old_date_message : string := "Paid on 15 May 0999".

Definition plain_token (w : string) (num : bool) : Token :=
  {| text_ := w; lemma_ := PyStr.lower w; pos_ := "X"; like_num := num;
     ent_type_ := "" |}.

(** A message whose number follows a hash sign, and its tokens when the
    sign is split off as a prefix. *)
Definition hash_message : string := "Paid #6072".

Definition hash_doc : Doc := {|
  tokens := [plain_token "Paid" false; plain_token "#" false;
             plain_token "6072" true];
  ents := [];
  noun_chunks := []
|}.

(** An analysis of [account_message] that marks the digits after the X as a
    [MONEY] entity (they begin at character 26). *)
Definition entity_doc : Doc := {|
  tokens := List.map word_token (PyStr.split account_message);
  ents := [{| label_ := "MONEY"; start_char := 26; span_text := "6072" |}];
  noun_chunks := []
|}.

Definition zero_balance_message : string := "Avl Bal: Rs 0".

Definition large_balance_message : string :=
  "Available balance: Rs 25,000,000.00".

(** The characters that group 2 of the balance pattern can capture: digits,
    the point and the comma. *)
Definition balance_chars (g : nat) (c : ascii) : bool :=
  if (g =? 2)%nat
  then PyStr.is_digit c || (PyStr.code c =? 46) || (PyStr.code c =? 44)
  else true.

(** The keys of the loan provider table. *)
Definition loan_providers : list string :=
  ["slice"; "airtel"; "hdfc"; "icici"; "kotak"; "cred"; "lazyPay"; "sbi"].

(** The classifications that [detect_category] can return. *)
Definition classifications : list classification :=
  (("informational", "general", c095)
   :: List.map (fun provider => ("loan", provider, c095)) loan_providers
   ++ [("loan", "", c090); ("loan", "", c085);
       ("investment", "", c090); ("investment", "", c085);
       ("insurance", "", c085);
       ("emi", "", c085);
       ("recharge", "", c085);
       ("atm", "", c085);
       ("cheque", "", c085);
       ("credit", "", c080);
       ("debit", "upi", c080); ("debit", "pos", c080);
       ("debit", "general", c075); ("debit", "general", c070)])%list.

(** The codes of [CURRENCY_CODES]. *)
Definition currency_codes : list string :=
  ["INR"; "USD"; "AED"; "EUR"; "GBP"; "SGD"; "JPY"].

(** The merchants of the recharge, insurance and investment categories. *)
Definition recharge_merchants : list string :=
  ["Airtel Recharge"; "Jio Recharge"; "Vi Recharge"; "Vodafone Recharge";
   "Idea Recharge"; "Bsnl Recharge"; "Reliance Recharge"; "Mobile Recharge"].

Definition insurance_merchants : list string :=
  ["Lic Insurance"; "Bharti Axa Insurance"; "Hdfc Ergo Insurance";
   "Icici Lombard Insurance"; "Tata Aig Insurance"; "Insurance Premium"].

Definition investment_merchants : list string :=
  ["Groww Investment"; "Coin Investment"; "Zerodha Investment";
   "Upstox Investment"; "Mf Utility Investment"; "Investment"].

(** ** The route [POST /api/parse_expense] of [app/routes/expenses.py] *)

Module Routes.
Import PyDate.

(** A validated request body. *)
Record SMSRequest : Type := {
  message : string;
  timestamp : datetime
}.

(** [SMSRequest(message=..., timestamp=...)] with [timestamp] optional.  The
    class body gives the field the default [datetime.now()], an expression
    that is evaluated once, when the module is imported: [class_default] is
    that instant. *)
Definition new_SMSRequest (class_default : datetime) (message : string)
           (timestamp : option datetime) : SMSRequest :=
  {| message := message;
     timestamp := match timestamp with
                  | Some t => t
                  | None => class_default
                  end |}.

(** The answer of the route: [{"success": True, "data": parsed_data}] or an
    [HTTPException]. *)
Inductive response : Type :=
| Success (data : Txn.t)
| HTTPException (status_code : Z) (detail : string).

(** [parse_sms_spacy] raises nothing but [SMSParseError], which the first
    [except] clause turns into status 400 with the message as detail. *)
Definition parse_expense (nlp : string -> result Doc) (sms : SMSRequest)
           (now_date now_record : datetime) : response :=
  match parse_sms_spacy nlp (message sms) (Some (timestamp sms))
                        now_date now_record with
  | Parsed parsed_data => Success parsed_data
  | SMSParseError msg => HTTPException 400 msg
  end.

End Routes.

(** More sample messages. *)
Definition recharge_message : string := "Recharge of Rs 199 done for Jio".

Definition insurance_message : string := "Policy renewed, paid Rs 2000 to LIC".

Definition investment_message : string := "SIP of Rs 500 debited for Groww".

Definition slice_message : string :=
  "EMI of Rs 900 paid via SLICE app, repay Rs 900".

Definition transfers_message : string := "Transfers of USD 50 done".

Definition premium_message : string := "Premium of Rs 900 paid".

Definition today_message : string := "Paid Rs 20 today for the bill of 15 May 2025".

(** Keywords of other categories that contain a loan keyword. *)
Definition shadowed_keywords : list string :=
  ["premium"; "emi"; "equated monthly installment"; "emi payment";
   "emi due"; "emi processed"; "emi debited"].

(** The characters that [detect_category] leaves in the text it scans: word
    characters and white space, none of them a capital. *)
Definition plain_char (c : ascii) : bool :=
  (PyStr.is_word c || PyStr.isspace c) && negb (PyStr.is_upper c).

(** A date read day first, and month first when that is no date. *)
Definition day_first (s : string) : option string :=
  match reformat s "%d %m %Y" with
  | Some d => Some d
  | None => reformat s "%m %d %Y"
  end.

(** The characters of a cleaned reference: capitals, digits and the
    space. *)
Definition ref_char (c : ascii) : bool :=
  PyStr.is_ascii_upper c || PyStr.is_digit c || (c =? " ")%char.

(** The currency words that the balance pattern reads, and the codes they
    stand for. *)
Definition balance_currency_words : list string := ["rs"; "inr"; "usd"; "aed"; "eur"].

Definition balance_currency_codes : list string := ["INR"; "USD"; "AED"; "EUR"].

(** A payment with a reference, and a balance in dollars. *)
Definition reference_message : string := "Paid Rs 20 to Ravi, Ref:  ab12cd34".

Definition dollar_balance_message : string := "Paid. Avl bal usd 120.50".

(** A recharge written with the hyphenated keyword. *)
Definition top_up_message : string := "Top-up of Rs 199 done".

(** A payment dated in the compact form with a two-digit year. *)
Definition compact_message : string := "Paid Rs 20 on 15May25 to Ravi".

(** * Properties *)

(** ** The error monad and the cascade *)

Lemma Ok_inj {A : Type} (a b : A) : Ok a = Ok b -> a = b.
Proof. intros H. injection H as H. exact H. Qed.

Lemma bind_Ok {A B : Type} (x : result A) (f : A -> result B) (b : B) :
  bind x f = Ok b -> exists a, x = Ok a /\ f a = Ok b.
Proof.
  destruct x as [a|e]; simpl; intros H.
  - exists a. split; [reflexivity | exact H].
  - discriminate H.
Qed.

Lemma bind_Raise {A B : Type} (x : result A) (f : A -> result B) (e : exn) :
  bind x f = Raise e ->
  x = Raise e \/ exists a, x = Ok a /\ f a = Raise e.
Proof.
  destruct x as [a|e']; simpl; intros H.
  - right. exists a. split; [reflexivity | exact H].
  - left. injection H as ->. reflexivity.
Qed.

Lemma or_else_falls {A : Type} (s next : step A) :
  or_else s next = Ok None -> s = Ok None /\ next = Ok None.
Proof.
  unfold or_else. destruct s as [[a|]|e]; simpl; intros H;
    try discriminate H.
  split; [reflexivity | exact H].
Qed.

Lemma or_else_returns {A : Type} (s next : step A) (a : A) :
  or_else s next = Ok (Some a) ->
  s = Ok (Some a) \/ (s = Ok None /\ next = Ok (Some a)).
Proof.
  unfold or_else. destruct s as [[x|]|e]; simpl; intros H;
    try discriminate H.
  - left. exact H.
  - right. split; [reflexivity | exact H].
Qed.

Lemma or_default_Ok {A : Type} (s : step A) (d a : A) :
  or_default s d = Ok a -> s = Ok (Some a) \/ (s = Ok None /\ a = d).
Proof.
  unfold or_default. destruct s as [[x|]|e]; simpl; intros H;
    try discriminate H; injection H as <-.
  - left. reflexivity.
  - right. split; reflexivity.
Qed.

Lemma or_else_Some {A : Type} (a : A) (next : step A) :
  or_else (Ok (Some a)) next = Ok (Some a).
Proof. reflexivity. Qed.

Lemma or_else_None {A : Type} (next : step A) :
  or_else (Ok None) next = next.
Proof. reflexivity. Qed.

Lemma or_else_Raise {A : Type} (e : exn) (next : step A) :
  or_else (Raise e) next = Raise e.
Proof. reflexivity. Qed.

(** ** The matcher

    A successful run hands its continuation a cursor further on in the same
    text and captures that lie inside the text; the groups of [must] are
    among them, and the characters consumed and captured are those the sets
    of the pattern allow. *)

Module ReFacts.
Import PyStr Re.

Lemma all_ascii_complete (a : ascii) : In a all_ascii.
Proof.
  unfold all_ascii. rewrite <- (ascii_nat_embedding a).
  apply in_map. apply in_seq. pose proof (nat_ascii_bounded a). lia.
Qed.

Lemma chars_ok_and icase P1 P2 r :
  chars_ok icase P1 r = true -> chars_ok icase P2 r = true ->
  chars_ok icase (fun a => P1 a && P2 a) r = true.
Proof.
  induction r as [| | |negated items|r1 IHr1 r2 IHr2|r1 IHr1 r2 IHr2|r' IHr lo hi
                 |g r' IHr| | |];
    cbn [chars_ok]; intros H1 H2; try reflexivity.
  - rewrite forallb_forall in *. intros a Ha.
    specialize (H1 a Ha). specialize (H2 a Ha).
    destruct (negb (code a =? 10)); cbn in *; [|reflexivity].
    rewrite H1, H2. reflexivity.
  - unfold set_within in *. rewrite forallb_forall in *. intros a Ha.
    specialize (H1 a Ha). specialize (H2 a Ha).
    destruct (set_mem icase negated items a); cbn in *; [|reflexivity].
    rewrite H1, H2. reflexivity.
  - apply andb_true_iff in H1 as [? ?]. apply andb_true_iff in H2 as [? ?].
    rewrite IHr1, IHr2; auto.
  - apply andb_true_iff in H1 as [? ?]. apply andb_true_iff in H2 as [? ?].
    rewrite IHr1, IHr2; auto.
  - auto.
  - auto.
Qed.

Section Invariant.
Context {R : Type}.
Variable icase : bool.
Variable l : list ascii.
Variable Q : nat -> ascii -> bool.

Definition cursor_ok (st : cursor) : Prop :=
  exists pre, l = (pre ++ c_rest st)%list /\ length pre = c_pos st.

(** The characters of [l] from [a] up to [b] satisfy [P]. *)
Definition within (P : ascii -> bool) (a b : nat) : Prop :=
  forall i, (a <= i < b)%nat -> exists ch, nth_error l i = Some ch /\ P ch = true.

Definition entry_ok (e : nat * (nat * nat)) : Prop :=
  (fst (snd e) <= snd (snd e))%nat /\ (snd (snd e) <= length l)%nat
  /\ within (Q (fst e)) (fst (snd e)) (snd (snd e)).

Definition caps_ok (c : caps) : Prop := Forall entry_ok c.

Definition has (g : nat) (c : caps) : Prop := cap_lookup g c <> None.

Definition post (P : ascii -> bool) (grs : list nat)
           (st : cursor) (c : caps) (st' : cursor) (c' : caps) : Prop :=
  cursor_ok st' /\ (c_pos st <= c_pos st')%nat
  /\ within P (c_pos st) (c_pos st') /\ caps_ok c'
  /\ (forall g, has g c -> has g c') /\ (forall g, In g grs -> has g c').

Lemma post_refl P st c : cursor_ok st -> caps_ok c -> post P [] st c st c.
Proof.
  intros Hst Hc. unfold post. repeat split; auto.
  - intros i Hi. lia.
  - intros g [].
Qed.

Lemma post_trans P g1 g2 st c st1 c1 st2 c2 :
  post P g1 st c st1 c1 -> post P g2 st1 c1 st2 c2 ->
  post P (g1 ++ g2) st c st2 c2.
Proof.
  intros (_ & Hle1 & Hw1 & _ & Hm1 & Hg1) (Hst2 & Hle2 & Hw2 & Hc2 & Hm2 & Hg2).
  unfold post. repeat split; auto.
  - lia.
  - intros i Hi. destruct (Nat.lt_ge_cases i (c_pos st1)).
    + apply Hw1. lia.
    + apply Hw2. lia.
  - intros g Hg. apply in_app_or in Hg as [Hg|Hg]; auto.
Qed.

Lemma post_weaken P grs grs' st c st' c' :
  (forall g, In g grs' -> In g grs) ->
  post P grs st c st' c' -> post P grs' st c st' c'.
Proof.
  intros Hsub (H1 & H2 & H3 & H4 & H5 & H6). unfold post. repeat split; auto.
Qed.

Lemma cursor_ok_advance st a tl :
  cursor_ok st -> c_rest st = a :: tl ->
  cursor_ok (advance st a tl) /\ nth_error l (c_pos st) = Some a.
Proof.
  intros (pre & Hl & Hlen) Hrest. rewrite Hrest in Hl. split.
  - exists (pre ++ [a])%list. cbn. split.
    + rewrite <- app_assoc. exact Hl.
    + rewrite length_app. cbn. lia.
  - rewrite Hl, <- Hlen. rewrite nth_error_app2 by lia.
    rewrite Nat.sub_diag. reflexivity.
Qed.

(** One character consumed. *)
Lemma post_advance P st c a tl :
  cursor_ok st -> caps_ok c -> c_rest st = a :: tl -> P a = true ->
  post P [] st c (advance st a tl) c.
Proof.
  intros Hst Hc Hrest HP.
  destruct (cursor_ok_advance st a tl Hst Hrest) as [Hst' Hnth].
  unfold post. repeat split; auto.
  - cbn. lia.
  - intros i Hi. cbn in Hi. assert (i = c_pos st) as -> by lia.
    exists a. split; assumption.
  - intros g [].
Qed.

Lemma rep_loop_inv (body : @cont R -> cursor -> caps -> option R)
      P grs lo hi (k : @cont R) :
  (forall (k' : @cont R) st c x, cursor_ok st -> caps_ok c ->
     body k' st c = Some x ->
     exists st' c', post P grs st c st' c' /\ k' st' c' = Some x) ->
  forall fuel n st c x, cursor_ok st -> caps_ok c ->
    rep_loop body lo hi k fuel n st c = Some x ->
    exists st' c',
      post P (if (n <? lo)%nat then grs else []) st c st' c' /\ k st' c' = Some x.
Proof.
  intros Hbody.
  assert (Hstop : forall n st c x, cursor_ok st -> caps_ok c ->
            (if (lo <=? n)%nat then k st c else None) = Some x ->
            exists st' c',
              post P (if (n <? lo)%nat then grs else []) st c st' c'
              /\ k st' c' = Some x).
  { intros n st c x Hst Hc H. destruct (lo <=? n)%nat eqn:Hlo; [|discriminate].
    apply Nat.leb_le in Hlo. exists st, c. split; [|exact H].
    replace (n <? lo)%nat with false by (symmetry; apply Nat.ltb_ge; lia).
    apply post_refl; assumption. }
  induction fuel as [|f IH]; intros n st c x Hst Hc H; cbn [rep_loop] in H.
  - apply Hstop; assumption.
  - destruct (under hi n); [|apply Hstop; assumption].
    match type of H with
    | match ?b with _ => _ end = _ => destruct b as [x0|] eqn:Hb
    end; [|apply Hstop; assumption].
    injection H as ->.
    apply Hbody in Hb as (st1 & c1 & Hpost1 & Hk1); [|assumption..].
    destruct (c_pos st <? c_pos st1)%nat; [|discriminate].
    pose proof Hpost1 as (Hst1 & _ & _ & Hc1 & _ & _).
    apply IH in Hk1 as (st2 & c2 & Hpost2 & Hk2); [|assumption..].
    exists st2, c2. split; [|exact Hk2].
    apply (post_weaken P (grs ++ (if (S n <? lo)%nat then grs else []))).
    + intros g Hg. apply in_or_app. left.
      destruct (n <? lo)%nat; [exact Hg | destruct Hg].
    + eapply post_trans; eassumption.
Qed.

Lemma has_cons g e c : has g c -> has g (e :: c).
Proof.
  unfold has. destruct e as [g' span]. cbn.
  destruct (g =? g')%nat; [discriminate | auto].
Qed.

Lemma has_head g span c : has g ((g, span) :: c).
Proof. unfold has. cbn. rewrite Nat.eqb_refl. discriminate. Qed.

Lemma cursor_ok_le st : cursor_ok st -> (c_pos st <= length l)%nat.
Proof.
  intros (pre & Hl & Hlen). rewrite Hl, length_app. lia.
Qed.

Lemma set_within_mem negated items P a :
  set_within icase negated items P = true ->
  set_mem icase negated items a = true -> P a = true.
Proof.
  unfold set_within. rewrite forallb_forall. intros H Hm.
  specialize (H a (all_ascii_complete a)). rewrite Hm in H. exact H.
Qed.

Theorem run_inv (r : regex) :
  forall P (k : @cont R) st c x,
    chars_ok icase P r = true -> groups_ok icase Q r = true ->
    cursor_ok st -> caps_ok c ->
    run icase r k st c = Some x ->
    exists st' c', post P (must r) st c st' c' /\ k st' c' = Some x.
Proof.
  induction r as [| | |negated items|r1 IH1 r2 IH2|r1 IH1 r2 IH2|r' IH lo hi
                 |g r' IH| | |];
    intros P k st c x HP HQ Hst Hc H; cbn [run must] in *.
  - exists st, c. split; [apply post_refl; assumption | exact H].
  - discriminate.
  - destruct (c_rest st) as [|a tl] eqn:Hrest; [discriminate|].
    destruct (code a =? 10) eqn:Hnl; [discriminate|].
    exists (advance st a tl), c. split; [|exact H].
    apply post_advance; auto.
    cbn [chars_ok] in HP. rewrite forallb_forall in HP.
    specialize (HP a (all_ascii_complete a)). rewrite Hnl in HP. exact HP.
  - destruct (c_rest st) as [|a tl] eqn:Hrest; [discriminate|].
    destruct (set_mem icase negated items a) eqn:Hm; [|discriminate].
    exists (advance st a tl), c. split; [|exact H].
    apply post_advance; auto.
    cbn [chars_ok] in HP. eapply set_within_mem; eassumption.
  - cbn [chars_ok groups_ok] in HP, HQ.
    apply andb_true_iff in HP as [HP1 HP2]. apply andb_true_iff in HQ as [HQ1 HQ2].
    apply IH1 with (P := P) in H as (st1 & c1 & Hpost1 & H); auto.
    pose proof Hpost1 as (Hst1 & _ & _ & Hc1 & _ & _).
    apply IH2 with (P := P) in H as (st2 & c2 & Hpost2 & H); auto.
    exists st2, c2. split; [|exact H]. eapply post_trans; eassumption.
  - cbn [chars_ok groups_ok] in HP, HQ.
    apply andb_true_iff in HP as [HP1 HP2]. apply andb_true_iff in HQ as [HQ1 HQ2].
    destruct (run icase r1 k st c) as [x0|] eqn:H1.
    + injection H as ->.
      apply IH1 with (P := P) in H1 as (st1 & c1 & Hpost1 & H1); auto.
      exists st1, c1. split; [|exact H1].
      eapply post_weaken; [|eassumption]. intros g [].
    + apply IH2 with (P := P) in H as (st1 & c1 & Hpost1 & H); auto.
      exists st1, c1. split; [|exact H].
      eapply post_weaken; [|eassumption]. intros g [].
  - cbn [chars_ok groups_ok] in HP, HQ.
    assert (Hbody : forall (k' : @cont R) st0 c0 x0,
               cursor_ok st0 -> caps_ok c0 ->
               run icase r' k' st0 c0 = Some x0 ->
               exists st' c', post P (must r') st0 c0 st' c' /\ k' st' c' = Some x0).
    { intros k' st0 c0 x0 Hst0 Hc0 H0. eapply IH; eassumption. }
    destruct (rep_loop_inv _ P (must r') lo hi k Hbody _ _ _ _ _ Hst Hc H)
      as (st1 & c1 & Hpost1 & H1).
    exists st1, c1. split; [|exact H1].
    eapply post_weaken; [|eassumption].
    destruct lo; cbn; auto.
  - cbn [chars_ok groups_ok] in HP, HQ.
    apply andb_true_iff in HQ as [HQ1 HQ2].
    apply IH with (P := fun a => P a && Q g a) in H; auto using chars_ok_and.
    destruct H as (st1 & c1 & (Hst1 & Hle & Hw & Hc1 & Hm & Hg) & H).
    exists st1, ((g, (c_pos st, c_pos st1)) :: c1). split; [|exact H].
    unfold post. repeat split; auto.
    + intros i Hi. destruct (Hw i Hi) as (ch & Hnth & Hch).
      apply andb_true_iff in Hch as [Hch _]. exists ch. split; assumption.
    + constructor; [|exact Hc1]. unfold entry_ok. cbn. repeat split; auto.
      * apply cursor_ok_le. exact Hst1.
      * intros i Hi. destruct (Hw i Hi) as (ch & Hnth & Hch).
        apply andb_true_iff in Hch as [_ Hch]. exists ch. split; assumption.
    + intros g0 Hg0. apply has_cons. auto.
    + intros g0 [<-|Hg0]; [apply has_head | apply has_cons; auto].
  - destruct (at_boundary st); [|discriminate].
    exists st, c. split; [apply post_refl; assumption | exact H].
  - destruct (c_pos st =? 0)%nat; [|discriminate].
    exists st, c. split; [apply post_refl; assumption | exact H].
  - destruct (at_end st); [|discriminate].
    exists st, c. split; [apply post_refl; assumption | exact H].
Qed.

(** *** Match objects *)

(** What holds of a match object [m] of pattern [p] on [s]. *)
Record match_ok (P : ascii -> bool) (p : pattern) (s : string) (m : match_)
  : Prop := {
  ok_string : m_string m = s;
  ok_span : (m_start_n m <= m_end_n m <= String.length s)%nat;
  ok_must : forall g, In g (must (p_re p)) -> exists txt, group m g = Some txt;
  ok_group : forall g txt, group m g = Some txt -> PyStr.forallb (Q g) txt = true;
  ok_whole : PyStr.forallb P (group0 m) = true
}.

End Invariant.

Lemma length_to_list (s : string) : length (to_list s) = String.length s.
Proof. induction s; cbn; [reflexivity | f_equal; assumption]. Qed.

(** The characters of a substring are those of the positions it spans. *)
Lemma forallb_substring (P : ascii -> bool) (s : string) :
  forall a n,
    within (to_list s) P a (a + n) -> PyStr.forallb P (substring a n s) = true.
Proof.
  induction s as [|ch s IH]; intros a n Hw.
  - destruct a, n; reflexivity.
  - destruct a as [|a].
    + destruct n as [|n]; [reflexivity|]. cbn [substring PyStr.forallb].
      destruct (Hw 0%nat ltac:(lia)) as (ch' & Hnth & Hch). cbn in Hnth.
      injection Hnth as <-. rewrite Hch. cbn. apply (IH 0%nat n).
      intros i Hi. destruct (Hw (S i) ltac:(lia)) as (c' & Hn & Hc).
      exists c'. split; assumption.
    + cbn [substring]. apply IH. intros i Hi.
      destruct (Hw (S i) ltac:(lia)) as (c' & Hn & Hc).
      exists c'. split; assumption.
Qed.

Lemma cap_lookup_In g c span : cap_lookup g c = Some span -> In (g, span) c.
Proof.
  induction c as [|[g' sp] tl IH]; cbn; [discriminate|].
  destruct (g =? g')%nat eqn:Hg.
  - apply Nat.eqb_eq in Hg as ->. intros H. injection H as ->. left. reflexivity.
  - intros H. right. apply IH. exact H.
Qed.

Section Matches.
Variable P : ascii -> bool.
Variable Q : nat -> ascii -> bool.
Variable p : pattern.
Variable s : string.
Hypothesis HP : chars_ok (p_icase p) P (p_re p) = true.
Hypothesis HQ : groups_ok (p_icase p) Q (p_re p) = true.

Lemma match_here_ok st m :
  cursor_ok (to_list s) st -> match_here p s st = Some m ->
  match_ok Q P p s m /\ m_start_n m = c_pos st.
Proof.
  intros Hst H. unfold match_here in H.
  apply (run_inv (p_icase p) (to_list s) Q (p_re p) P) in H;
    auto; [|constructor].
  destruct H as (st' & c' & (Hst' & Hle & Hw & Hc & _ & Hg) & H).
  injection H as <-. split; [|reflexivity].
  pose proof (cursor_ok_le _ _ Hst') as Hlen. rewrite length_to_list in Hlen.
  constructor; cbn [m_string m_start_n m_end_n m_caps].
  - reflexivity.
  - lia.
  - intros g Hin. specialize (Hg g Hin). unfold has in Hg. unfold group. cbn.
    destruct (cap_lookup g c') as [[a b]|]; [eauto | contradiction].
  - intros g txt. unfold group. cbn.
    destruct (cap_lookup g c') as [[a b]|] eqn:Hlk; [|discriminate].
    intros Htxt. injection Htxt as <-.
    apply cap_lookup_In in Hlk. unfold caps_ok in Hc.
    rewrite Forall_forall in Hc. specialize (Hc _ Hlk) as (Hab & Hb & Hwg).
    cbn in Hab, Hb, Hwg. apply forallb_substring.
    replace (a + (b - a))%nat with b by lia. exact Hwg.
  - unfold group0. cbn. apply forallb_substring.
    replace (c_pos st + (c_pos st' - c_pos st))%nat with (c_pos st') by lia.
    exact Hw.
Qed.

Lemma scan_ok rest :
  forall pos prev m pre,
    to_list s = (pre ++ rest)%list -> length pre = pos ->
    scan p s pos prev rest = Some m ->
    match_ok Q P p s m /\ (pos <= m_start_n m)%nat.
Proof.
  induction rest as [|a tl IH]; intros pos prev m pre Hl Hlen H; cbn [scan] in H.
  - destruct (match_here p s _) as [m'|] eqn:Hm; [|discriminate].
    injection H as ->. apply match_here_ok in Hm as [Hok Hs].
    + split; [exact Hok | cbn in Hs; lia].
    + exists pre. split; assumption.
  - destruct (match_here p s _) as [m'|] eqn:Hm.
    + injection H as ->. apply match_here_ok in Hm as [Hok Hs].
      * split; [exact Hok | cbn in Hs; lia].
      * exists pre. split; assumption.
    + apply (IH _ _ _ (pre ++ [a])%list) in H as [Hok Hs].
      * split; [exact Hok | lia].
      * rewrite <- app_assoc. exact Hl.
      * rewrite length_app. cbn. lia.
Qed.

Theorem search_ok m : search p s = Some m -> match_ok Q P p s m.
Proof.
  unfold search. intros H.
  apply (scan_ok _ _ _ _ []) in H as [Hok _]; [exact Hok | reflexivity..].
Qed.

Theorem match_start_ok m : match_start p s = Some m -> match_ok Q P p s m.
Proof.
  unfold match_start. intros H. apply match_here_ok in H as [Hok _]; [exact Hok|].
  exists []. split; reflexivity.
Qed.

Lemma firstn_prefix (pre rest : list ascii) :
  firstn (length pre) (pre ++ rest) = pre.
Proof.
  rewrite firstn_app, firstn_all, Nat.sub_diag. cbn. apply app_nil_r.
Qed.

Lemma cursor_at_ok n :
  forall pos prev rest pre,
    to_list s = (pre ++ rest)%list -> length pre = pos ->
    let st := cursor_at n pos prev rest in
    to_list s = (firstn (c_pos st) (to_list s) ++ c_rest st)%list
    /\ length (firstn (c_pos st) (to_list s)) = c_pos st.
Proof.
  induction n as [|n IH]; intros pos prev rest pre Hl Hlen; cbn [cursor_at].
  - cbn. subst pos. rewrite Hl, firstn_prefix. split; reflexivity.
  - destruct rest as [|a tl].
    + cbn. subst pos. rewrite Hl, firstn_prefix. split; reflexivity.
    + apply (IH _ _ _ (pre ++ [a])%list).
      * rewrite <- app_assoc. exact Hl.
      * rewrite length_app. cbn. lia.
Qed.

Theorem finditer_ok : Forall (match_ok Q P p s) (finditer p s).
Proof.
  unfold finditer. generalize (S (String.length s)) as fuel. generalize 0%nat as from.
  intros from fuel. revert from.
  induction fuel as [|f IH]; intros from; cbn [finditer_from]; [constructor|].
  destruct (String.length s <? from)%nat; [constructor|].
  destruct (scan p s _ _ _) as [m|] eqn:Hm; [|constructor].
  constructor; [|apply IH].
  destruct (cursor_at_ok from 0 None (to_list s) [] eq_refl eq_refl) as [Hl Hlen].
  apply (scan_ok _ _ _ _ _ Hl Hlen) in Hm as [Hok _]. exact Hok.
Qed.

End Matches.

Lemma chars_ok_top icase r : chars_ok icase (fun _ => true) r = true.
Proof.
  induction r; cbn [chars_ok]; unfold set_within;
    try reflexivity; try assumption;
    try (rewrite IHr1, IHr2; reflexivity);
    apply forallb_forall; intros a _; apply implb_true_r.
Qed.

Lemma groups_ok_top icase r : groups_ok icase (fun _ _ => true) r = true.
Proof.
  induction r; cbn [groups_ok];
    try reflexivity; try assumption;
    try (rewrite IHr1, IHr2; reflexivity).
  rewrite chars_ok_top, IHr. reflexivity.
Qed.

(** A match lies inside its subject and its compulsory groups took part. *)
Corollary search_span p s m :
  search p s = Some m ->
  m_string m = s /\ (m_start_n m <= m_end_n m <= String.length s)%nat
  /\ forall g, In g (must (p_re p)) -> exists txt, group m g = Some txt.
Proof.
  intros H.
  destruct (search_ok _ _ p s (chars_ok_top _ _) (groups_ok_top _ _) m H)
    as [H1 H2 H3 _ _].
  auto.
Qed.

End ReFacts.

(** ** Strings and positions *)

Module StrFacts.
Import PyStr.

Lemma length_map f s : String.length (map f s) = String.length s.
Proof. induction s; cbn; [reflexivity | f_equal; assumption]. Qed.

Lemma len_lower s : len (lower s) = len s.
Proof. unfold len, lower. rewrite length_map. reflexivity. Qed.

Lemma length_substring s :
  forall n m, String.length (substring n m s) = Nat.min m (String.length s - n).
Proof.
  induction s as [|c s IH]; intros n m.
  - destruct n, m; reflexivity.
  - destruct n as [|n].
    + destruct m as [|m]; [reflexivity|]. cbn [substring String.length].
      rewrite IH. cbn. rewrite Nat.sub_0_r. reflexivity.
    + cbn [substring String.length]. rewrite IH. reflexivity.
Qed.

(** A found substring ends inside the string. *)
Lemma find_bounds sub s :
  contains sub s = true -> 0 <= find sub s /\ find sub s + len sub <= len s.
Proof.
  unfold contains, find, len.
  destruct (index 0 sub s) as [n|] eqn:Hi; [|discriminate]. intros _.
  split; [lia|].
  destruct sub as [|c sub'].
  - cbn. pose proof (index_correct3 0 n EmptyString s) as H3.
    destruct (Nat.le_gt_cases n (String.length s)) as [Hle|Hgt]; [lia|].
    exfalso. pose proof (index_correct1 0 n EmptyString s Hi) as H1.
    clear H3. revert n Hi H1 Hgt. induction s as [|a s IH]; intros n Hi H1 Hgt.
    + cbn in Hi. injection Hi as <-. cbn in Hgt. lia.
    + cbn in Hi. injection Hi as <-. cbn in Hgt. lia.
  - pose proof (index_correct1 0 n (String c sub') s Hi) as H1.
    pose proof (length_substring s n (String.length (String c sub'))) as HL.
    rewrite H1 in HL. cbn [String.length] in *. lia.
Qed.

Lemma item_Some s i : 0 <= i < len s -> exists c, item s i = Some c.
Proof.
  unfold item, len. intros [H0 H1].
  destruct (i <? 0) eqn:Hneg; [apply Z.ltb_lt in Hneg; lia|].
  assert (Hn : (Z.to_nat i < String.length s)%nat) by lia.
  revert Hn. generalize (Z.to_nat i) as n. clear.
  induction s as [|a s IH]; intros n Hn; cbn in *; [lia|].
  destruct n as [|n]; [eauto|]. apply IH. lia.
Qed.

(** The slice from [pos] is no longer than what follows [pos]. *)
Lemma len_slice_from s pos j :
  0 <= pos <= len s -> len (slice s pos j) <= len s - pos.
Proof.
  unfold slice, len. intros Hp. rewrite length_substring.
  unfold clamp. destruct (pos <? 0) eqn:Hneg; [apply Z.ltb_lt in Hneg; lia|].
  fold (len s). unfold len. lia.
Qed.

Lemma substring_all s : substring 0 (String.length s) s = s.
Proof. induction s as [|c s IH]; cbn; [reflexivity | rewrite IH; reflexivity]. Qed.

Lemma prefix_empty s : prefix "" s = true.
Proof. destruct s; reflexivity. Qed.

Lemma code_inj c z : code c = z -> c = chr z.
Proof.
  unfold code, chr. intros <-. rewrite N2Z.id, ascii_N_embedding. reflexivity.
Qed.

(** Taking the commas out leaves the other characters. *)
Lemma forallb_replace_comma (P : ascii -> bool) :
  forall fuel s,
    (String.length s < fuel)%nat ->
    forallb (fun c => P c || (code c =? 44)) s = true ->
    forallb P (replace_fuel fuel "," "" s) = true.
Proof.
  induction fuel as [|f IH]; intros s Hlen Hs; [lia|].
  destruct s as [|c s]; [reflexivity|].
  cbn [forallb] in Hs. apply andb_true_iff in Hs as [Hc Hs].
  cbn [String.length] in Hlen.
  cbn [replace_fuel].
  destruct (prefix "," (String c s)) eqn:Hp.
  - cbn [String.length substring Nat.sub append].
    rewrite Nat.sub_0_r, substring_all. apply IH; [lia | exact Hs].
  - cbn [forallb]. rewrite IH by (lia || exact Hs).
    apply orb_true_iff in Hc as [Hc|Hc]; [rewrite Hc; reflexivity|].
    exfalso. apply Z.eqb_eq in Hc. apply code_inj in Hc. subst c.
    cbn in Hp. rewrite prefix_empty in Hp. discriminate.
Qed.

Lemma lstrip_empty s : lstrip s = "" <-> forallb isspace s = true.
Proof.
  induction s as [|c s IH]; cbn [lstrip forallb]; [tauto|].
  destruct (isspace c); cbn; [exact IH|]. split; discriminate.
Qed.

Lemma lstrip_head s c t : lstrip s = String c t -> isspace c = false.
Proof.
  induction s as [|a s IH]; cbn [lstrip]; [discriminate|].
  destruct (isspace a) eqn:Ha; [exact IH|].
  intros H. injection H as <- _. exact Ha.
Qed.

Lemma forallb_rev_acc P s :
  forall acc, forallb P (rev_acc s acc) = forallb P s && forallb P acc.
Proof.
  induction s as [|c s IH]; intros acc; cbn [rev_acc forallb]; [reflexivity|].
  rewrite IH. cbn [forallb]. destruct (P c), (forallb P s), (forallb P acc);
    reflexivity.
Qed.

Lemma rev_acc_empty s : forall acc, rev_acc s acc = "" -> s = "" /\ acc = "".
Proof.
  induction s as [|c s IH]; intros acc; cbn [rev_acc]; [auto|].
  intros H. apply IH in H as [_ H]. discriminate H.
Qed.

(** Stripping leaves nothing exactly when every character is white space. *)
Lemma strip_empty s : strip s = "" <-> forallb isspace s = true.
Proof.
  unfold strip, rev. split.
  - intros H. apply rev_acc_empty in H as [H _].
    apply lstrip_empty in H. rewrite forallb_rev_acc in H.
    apply andb_true_iff in H as [H _].
    destruct (lstrip s) as [|c t] eqn:Hl; [apply lstrip_empty; exact Hl|].
    apply lstrip_head in Hl. cbn [forallb] in H. rewrite Hl in H. discriminate.
  - intros H. apply lstrip_empty in H. rewrite H. reflexivity.
Qed.

End StrFacts.

(** ** Formatted dates *)

Module DateFacts.
Import PyStr PyDate.

Definition digits_of (n : nat) (s : string) : bool :=
  (String.length s =? n)%nat && forallb is_digit s.

(** Every number from 0 to [hi] is written with [w] digits. *)
Definition padded (w : nat) (hi : Z) : bool :=
  List.forallb (fun k => digits_of w (pad w (Z.of_nat k)))
               (seq 0 (S (Z.to_nat hi))).

Lemma padded_digits w hi z :
  padded w hi = true -> 0 <= z <= hi -> digits_of w (pad w z) = true.
Proof.
  unfold padded. rewrite forallb_forall. intros H Hz.
  rewrite <- (Z2Nat.id z) by lia. apply H. apply in_seq. lia.
Qed.

Lemma pad_two z : 1 <= z <= 31 -> digits_of 2 (pad 2 z) = true.
Proof.
  intros H. apply (padded_digits 2 31); [vm_compute; reflexivity | lia].
Qed.

Lemma between_spec lo hi z : between lo hi z = true -> lo <= z <= hi.
Proof. unfold between. intros H. apply andb_true_iff in H. lia. Qed.

Lemma days_in_month_le y m : days_in_month y m <= 31.
Proof.
  unfold days_in_month.
  destruct (m =? 2); [destruct (is_leap y); lia|].
  destruct (_ || _); lia.
Qed.

(** The ranges that the constructor of [datetime] checks. *)
Lemma date_fields (t : datetime) :
  1 <= year t <= 9999 /\ 1 <= month t <= 12 /\ 1 <= day t <= 31.
Proof.
  pose proof (dt_ok t) as H. unfold valid_fields in H.
  repeat (apply andb_true_iff in H as [H ?]).
  repeat match goal with
         | Hb : between _ _ _ = true |- _ => apply between_spec in Hb
         end.
  pose proof (days_in_month_le (year t) (month t)). lia.
Qed.

(** A string of [digits_of n] has exactly [n] characters, all digits. *)
Ltac digit_string s :=
  let H := fresh "H" in
  let Hc := fresh "Hc" in
  intros H; unfold digits_of in H; apply andb_true_iff in H as [Hc H];
  repeat (destruct s as [|? s]; [cbn in Hc; discriminate Hc|];
          cbn [forallb] in H; apply andb_true_iff in H as [? H]);
  destruct s; [|cbn in Hc; discriminate Hc].

(** Eight digits and two hyphens make a match of the ISO date pattern. *)
Lemma iso_shape a b c d e f g h :
  is_digit a = true -> is_digit b = true -> is_digit c = true ->
  is_digit d = true -> is_digit e = true -> is_digit f = true ->
  is_digit g = true -> is_digit h = true ->
  is_iso_date
    (String a (String b (String c (String d (String "-"
      (String e (String f (String "-" (String g (String h "")))))))))) = true.
Proof.
  intros Ha Hb Hc Hd He Hf Hg Hh.
  unfold is_iso_date, Re.match_start, Re.match_here.
  let p := eval vm_compute in iso_date in change iso_date with p.
  cbn [Re.p_re Re.p_icase to_list list_ascii_of_string].
  cbn [Re.run Re.rep_loop Re.c_pos Re.c_rest Re.c_prev Re.advance Re.under
       Nat.eqb Nat.leb Nat.ltb length is_some Re.set_mem existsb
       Re.item_mem xorb orb].
  rewrite Ha. cbn [Re.run Re.rep_loop Re.c_pos Re.c_rest Re.c_prev Re.advance
       Re.under Nat.eqb Nat.leb Nat.ltb length is_some Re.set_mem existsb
       Re.item_mem xorb orb].
  rewrite Hb. cbn. rewrite Hc. cbn. rewrite Hd. cbn.
  rewrite He. cbn. rewrite Hf. cbn. rewrite Hg. cbn. rewrite Hh. cbn.
  reflexivity.
Qed.

(** Every number from [lo] to [hi] is written with [w] digits by [dec],
    which fills nothing. *)
Definition written (w : nat) (lo hi : Z) : bool :=
  List.forallb (fun k => digits_of w (dec (lo + Z.of_nat k)))
               (seq 0 (S (Z.to_nat (hi - lo)))).

Lemma written_digits w lo hi z :
  written w lo hi = true -> lo <= z <= hi -> digits_of w (dec z) = true.
Proof.
  unfold written. rewrite forallb_forall. intros H Hz.
  replace z with (lo + Z.of_nat (Z.to_nat (z - lo))) by lia.
  apply H. apply in_seq. lia.
Qed.

(** With fewer than four digits for the year there is no match. *)
Lemma short_shape (sy : string) e f g h :
  digits_of 1 sy = true \/ digits_of 2 sy = true \/ digits_of 3 sy = true ->
  is_iso_date (sy ++ String "-" (String e (String f (String "-"
                 (String g (String h "")))))) = false.
Proof.
  intros [H|[H|H]]; revert H; digit_string sy; cbn [append];
    unfold is_iso_date, Re.match_start, Re.match_here;
    let p := eval vm_compute in iso_date in change iso_date with p;
    cbn [Re.p_re Re.p_icase to_list list_ascii_of_string];
    repeat (cbn;
            match goal with
            | Hd : is_digit _ = true |- _ => rewrite Hd; clear Hd
            end);
    cbn; reflexivity.
Qed.

(** The date that [strftime] writes matches the ISO date pattern exactly
    when the year has four digits. *)
Theorem strftime_iso (t : datetime) :
  is_iso_date (strftime_ymd t) = (1000 <=? year t).
Proof.
  destruct (date_fields t) as (Hy & Hm & Hd).
  unfold strftime_ymd.
  pose proof (pad_two (month t) ltac:(lia)) as Pm.
  pose proof (pad_two (day t) ltac:(lia)) as Pd.
  destruct (1000 <=? year t) eqn:Hk.
  - apply Z.leb_le in Hk.
    assert (Py : digits_of 4 (dec (year t)) = true).
    { apply (written_digits 4 1000 9999); [vm_compute; reflexivity | lia]. }
    revert Py Pm Pd.
    generalize (dec (year t)) as sy, (pad 2 (month t)) as sm,
               (pad 2 (day t)) as sd.
    intros sy sm sd.
    digit_string sy. digit_string sm. digit_string sd.
    cbn [append]. apply iso_shape; assumption.
  - apply Z.leb_gt in Hk.
    assert (Py : digits_of 1 (dec (year t)) = true
                 \/ digits_of 2 (dec (year t)) = true
                 \/ digits_of 3 (dec (year t)) = true).
    { destruct (Z_lt_le_dec (year t) 10) as [H1|H1];
        [left; apply (written_digits 1 1 9); [vm_compute; reflexivity | lia]|].
      destruct (Z_lt_le_dec (year t) 100) as [H2|H2];
        [right; left;
         apply (written_digits 2 10 99); [vm_compute; reflexivity | lia]|].
      right; right.
      apply (written_digits 3 100 999); [vm_compute; reflexivity | lia]. }
    revert Py Pm Pd.
    generalize (dec (year t)) as sy, (pad 2 (month t)) as sm,
               (pad 2 (day t)) as sd.
    intros sy sm sd Py.
    digit_string sm. digit_string sd.
    cbn [append]. apply short_shape. exact Py.
Qed.

End DateFacts.

(** ** Floats read from digits *)

Module FloatFacts.
Import PyStr PyFloat.

(** Neither negative nor NaN. *)
Definition nonneg (x : float) : bool :=
  match x with
  | S754_zero false | S754_infinity false | S754_finite false _ _ => true
  | _ => false
  end.

Lemma nonneg_leb x : nonneg x = true -> leb (of_Z 0) x = true.
Proof. destruct x as [[|]|[|]| |[|] m e]; cbn; intros H; congruence. Qed.

Lemma shr_1_nonneg mrs : 0 <= shr_m mrs -> 0 <= shr_m (shr_1 mrs).
Proof.
  destruct mrs as [m r s]. destruct m as [|[p|p|]|p]; cbn; lia.
Qed.

Lemma iter_shr_1_nonneg p :
  forall mrs, 0 <= shr_m mrs -> 0 <= shr_m (iter_pos shr_1 p mrs).
Proof.
  induction p as [p IH|p IH|]; intros mrs H; cbn [iter_pos].
  - apply IH, IH, shr_1_nonneg, H.
  - apply IH, IH, H.
  - apply shr_1_nonneg, H.
Qed.

Lemma shr_fexp_nonneg m e l :
  0 <= m -> 0 <= shr_m (fst (shr_fexp prec emax m e l)).
Proof.
  intros H. unfold shr_fexp, shr.
  assert (H0 : 0 <= shr_m (shr_record_of_loc m l))
    by (destruct l as [|[| |]]; exact H).
  destruct (fexp prec emax (Zdigits2 m + e) - e); cbn [fst]; try exact H0.
  apply iter_shr_1_nonneg, H0.
Qed.

Lemma round_nearest_even_nonneg m l : 0 <= m -> 0 <= round_nearest_even m l.
Proof.
  intros H. unfold round_nearest_even.
  destruct l as [|[| |]]; try lia. destruct (Z.even m); lia.
Qed.

Lemma binary_round_aux_nonneg mz ez lz :
  0 <= mz -> nonneg (binary_round_aux prec emax false mz ez lz) = true.
Proof.
  intros H. unfold binary_round_aux.
  pose proof (shr_fexp_nonneg mz ez lz H) as H1.
  destruct (shr_fexp prec emax mz ez lz) as [mrs' e']. cbn [fst] in H1.
  pose proof (shr_fexp_nonneg _ e' loc_Exact
                (round_nearest_even_nonneg _ (loc_of_shr_record mrs') H1)) as H2.
  destruct (shr_fexp prec emax _ e' loc_Exact) as [mrs'' e'']. cbn [fst] in H2.
  destruct (shr_m mrs'') as [|p|p]; [reflexivity | | lia].
  destruct (e'' <=? emax - prec); reflexivity.
Qed.

Lemma of_ratio_nonneg n d : nonneg (of_ratio false n d) = true.
Proof.
  unfold of_ratio. cbn [SFdiv xorb]. unfold SFdiv_core_binary.
  set (e' := Z.min _ _). set (m' := match 0 - 0 - e' with
                                    | Z0 => Zpos n
                                    | Zpos _ => Z.shiftl (Zpos n) (0 - 0 - e')
                                    | Zneg _ => 0
                                    end).
  assert (Hm : 0 <= m').
  { subst m'. destruct (0 - 0 - e') eqn:He; try lia.
    apply Z.shiftl_nonneg. lia. }
  pose proof (Z_div_mod m' (Zpos d) ltac:(lia)) as Hdiv.
  destruct (Z.div_eucl m' (Zpos d)) as [q r]. destruct Hdiv as [Hq Hr].
  apply binary_round_aux_nonneg. nia.
Qed.

Lemma of_decimal_nonneg m e : nonneg (of_decimal false m e) = true.
Proof.
  unfold of_decimal. destruct m as [|p]; [reflexivity|].
  destruct (0 <=? e); apply of_ratio_nonneg.
Qed.

(** Digits and the decimal point. *)
Definition numeric (c : ascii) : bool := is_digit c || (code c =? 46).

Lemma forallb_to_list P s : forallb P s = List.forallb P (to_list s).
Proof. induction s as [|c s IH]; cbn; [reflexivity | rewrite IH; reflexivity]. Qed.

Lemma forallb_lstrip P s : forallb P s = true -> forallb P (lstrip s) = true.
Proof.
  induction s as [|c s IH]; cbn [lstrip forallb]; [auto|].
  intros H. apply andb_true_iff in H as [Hc Hs].
  destruct (isspace c); [auto|]. cbn [forallb]. rewrite Hc, Hs. reflexivity.
Qed.

Lemma forallb_rev P s : forallb P (rev s) = forallb P s.
Proof. unfold rev. rewrite StrFacts.forallb_rev_acc. cbn. apply andb_true_r. Qed.

Lemma forallb_strip P s : forallb P s = true -> forallb P (strip s) = true.
Proof.
  intros H. unfold strip. rewrite forallb_rev. apply forallb_lstrip.
  rewrite forallb_rev. apply forallb_lstrip. exact H.
Qed.

Lemma drop_underscores_forallb P l :
  forall prev l', drop_underscores prev l = Some l' ->
  List.forallb P l = true -> List.forallb P l' = true.
Proof.
  induction l as [|c tl IH]; intros prev l' H Hl; cbn [drop_underscores] in H.
  - injection H as <-. reflexivity.
  - cbn [List.forallb] in Hl. apply andb_true_iff in Hl as [Hc Htl].
    destruct (code c =? 95).
    + destruct prev as [p|]; [|discriminate]. destruct tl as [|n tl']; [discriminate|].
      destruct (is_digit p && is_digit n); [|discriminate].
      eapply IH; eassumption.
    + destruct (drop_underscores (Some c) tl) as [r|] eqn:Hr; [|discriminate].
      injection H as <-. cbn [List.forallb]. rewrite Hc. cbn.
      eapply IH; eassumption.
Qed.

(** A numeric character is no sign and starts neither "inf" nor "nan". *)
Lemma numeric_head c :
  numeric c = true ->
  (c =? "+")%char = false /\ (c =? "-")%char = false
  /\ (lower_char c =? "i")%char = false /\ (lower_char c =? "n")%char = false.
Proof.
  assert (H : List.forallb
                (fun c => implb (numeric c)
                            (negb (c =? "+")%char && negb (c =? "-")%char
                             && negb (lower_char c =? "i")%char
                             && negb (lower_char c =? "n")%char))
                Re.all_ascii = true) by (vm_compute; reflexivity).
  rewrite forallb_forall in H. specialize (H c (ReFacts.all_ascii_complete c)).
  intros Hn. rewrite Hn in H. cbn in H.
  repeat (apply andb_true_iff in H as [H ?]).
  repeat split; apply negb_true_iff; assumption.
Qed.

(** What [float] reads from digits and a point is not negative. *)
Theorem of_string_nonneg s x :
  forallb numeric s = true -> of_string s = Some x -> nonneg x = true.
Proof.
  intros Hs. unfold of_string.
  apply forallb_strip in Hs. rewrite forallb_to_list in Hs.
  destruct (drop_underscores None (to_list (strip s))) as [l|] eqn:Hd;
    [|discriminate].
  pose proof (drop_underscores_forallb _ _ _ _ Hd Hs) as Hl.
  destruct l as [|c tl].
  - cbn. discriminate.
  - cbn [List.forallb] in Hl. apply andb_true_iff in Hl as [Hc _].
    destruct (numeric_head c Hc) as (Hplus & Hminus & Hi & Hn).
    assert (Hsign : p_sign (c :: tl) = (false, c :: tl)).
    { unfold p_sign. destruct c as [[|] [|] [|] [|] [|] [|] [|] [|]];
        try reflexivity; discriminate. }
    rewrite Hsign.
    assert (Hinf : (lower (of_list (c :: tl)) =? "inf")%string = false)
      by (cbn; rewrite Hi; reflexivity).
    assert (Hinfinity : (lower (of_list (c :: tl)) =? "infinity")%string = false)
      by (cbn; rewrite Hi; reflexivity).
    assert (Hnan : (lower (of_list (c :: tl)) =? "nan")%string = false)
      by (cbn; rewrite Hn; reflexivity).
    rewrite Hinf, Hinfinity, Hnan. cbn [orb].
    unfold p_number.
    destruct (digits (c :: tl) 0%N 0) as [[ip ni] l1].
    destruct (match l1 with
              | "."%char :: tl0 => digits tl0 0%N 0
              | _ => (0%N, 0, l1)
              end) as [[fp nf] l2].
    destruct (ni + nf =? 0); [discriminate|].
    destruct (p_exponent l2) as [e|]; [|discriminate].
    intros H. injection H as <-. apply of_decimal_nonneg.
Qed.

End FloatFacts.

(** The library functions are run on concrete inputs only; the structural
    proofs keep them folded. *)
#[local] Opaque Re.search Re.match_start Re.finditer Re.sub Re.compile_flags
  PyFloat.of_string PyFloat.format_2f PyStr.contains PyStr.find PyStr.lower
  PyStr.strip PyStr.slice.

(** ** The classifier *)

Section Classifier.
Import PyStr.

Variable nlp : string -> result Doc.

(** A keyword scan that falls through has found no keyword. *)
Lemma scan_keywords_falls category cfg text_lower kws :
  scan_keywords category cfg text_lower kws = Ok None ->
  any_in kws text_lower = false.
Proof.
  induction kws as [|kw tl IH]; simpl; intros H.
  - reflexivity.
  - destruct (contains kw text_lower).
    + destruct (on_keyword category cfg text_lower); discriminate H.
    + apply IH. exact H.
Qed.

(** Without a keyword in the text the re-check returns nothing. *)
Lemma recheck_keywords_falls cfg text_lower kws :
  any_in kws text_lower = false ->
  recheck_keywords cfg text_lower kws = falls_through.
Proof.
  induction kws as [|kw tl IH]; simpl; intros H.
  - reflexivity.
  - apply orb_false_iff in H as [Hkw Htl]. rewrite Hkw. apply IH. exact Htl.
Qed.

Lemma scan_categories_loan text_lower kws rest :
  keywords loan_config = Some kws ->
  scan_categories (("loan", loan_config) :: rest) text_lower =
  or_else (scan_keywords "loan" loan_config text_lower kws)
          (scan_categories rest text_lower).
Proof.
  intros H. cbn [scan_categories]. rewrite H. reflexivity.
Qed.

(** When the specialised scan falls through, so does the loan re-check. *)
Lemma loan_recheck_dead text_lower :
  scan_categories TRANSACTION_CATEGORIES text_lower = Ok None ->
  loan_recheck text_lower = Ok None.
Proof.
  unfold TRANSACTION_CATEGORIES.
  rewrite (scan_categories_loan _ _ _ eq_refl).
  intros H. apply or_else_falls in H as [H _].
  apply scan_keywords_falls in H.
  unfold loan_recheck.
  cbn [lookup String.eqb Ascii.eqb Bool.eqb].
  cbn [keywords loan_config getitem bind].
  apply recheck_keywords_falls. exact H.
Qed.

(** C9. The loan re-check (step 3) is redundant: on every text
    [detect_category] returns, or raises, exactly what the variant without
    the re-check does, because the specialised scan of step 2 already
    returns on every loan keyword found. *)
Theorem loan_recheck_redundant (text : string) :
  detect_category nlp text = detect_category_no_recheck nlp text.
Proof.
  unfold detect_category, detect_category_no_recheck.
  destruct (is_transactional_message nlp text) as [transactional|e];
    cbn [bind]; [|reflexivity].
  destruct transactional; cbn [negb]; [|reflexivity].
  unfold classify_transactional, classify_no_recheck.
  destruct (scan_categories TRANSACTION_CATEGORIES (normalize text))
    as [[c|]|e] eqn:Hscan.
  - rewrite !or_else_Some. reflexivity.
  - rewrite (or_else_None (or_else (loan_recheck _) _)).
    rewrite (loan_recheck_dead _ Hscan).
    rewrite (or_else_None (or_else (basic_scan _ _ _) _)). reflexivity.
  - rewrite !or_else_Raise. reflexivity.
Qed.

(** *** The classifier raises only what the analyzer raises *)

Definition dict_providers (entry : string * config) : Prop :=
  fst entry = "loan" -> forall l, providers (snd entry) <> Some (ProviderNames l).

Lemma on_keyword_total category cfg text_lower :
  dict_providers (category, cfg) ->
  exists c, on_keyword category cfg text_lower = Ok c.
Proof.
  unfold dict_providers, on_keyword. cbn [fst snd]. intros Hd.
  destruct (context_phrases cfg) as [phrases|]; [|eauto].
  destruct (any_search phrases text_lower); [|eauto].
  destruct (category =? "loan")%string eqn:Hloan; [|eauto].
  apply String.eqb_eq in Hloan.
  destruct (providers cfg) as [[d|l]|] eqn:Hp; cbn [items bind].
  - destruct (find_provider d text_lower); eauto.
  - exfalso. apply (Hd Hloan l). reflexivity.
  - eauto.
Qed.

Lemma scan_keywords_total category cfg text_lower kws :
  dict_providers (category, cfg) ->
  exists r, scan_keywords category cfg text_lower kws = Ok r.
Proof.
  intros Hd. induction kws as [|kw tl IH]; cbn [scan_keywords].
  - unfold falls_through. eauto.
  - destruct (contains kw text_lower); [|exact IH].
    destruct (on_keyword_total category cfg text_lower Hd) as [c ->].
    cbn. unfold returns. eauto.
Qed.

Lemma scan_categories_total cats text_lower :
  Forall dict_providers cats ->
  exists r, scan_categories cats text_lower = Ok r.
Proof.
  induction 1 as [|[category cfg] tl Hd _ IH]; cbn [scan_categories].
  - unfold falls_through. eauto.
  - destruct (mem category _); [exact IH|].
    destruct (keywords cfg) as [kws|]; [|exact IH].
    destruct (scan_keywords_total category cfg text_lower kws Hd) as [[c|] ->].
    + rewrite or_else_Some. eauto.
    + rewrite or_else_None. exact IH.
Qed.

Lemma table_dict_providers : Forall dict_providers TRANSACTION_CATEGORIES.
Proof.
  unfold TRANSACTION_CATEGORIES.
  repeat constructor; intros H l; cbn in *; discriminate.
Qed.

Lemma loan_recheck_total text_lower :
  exists r, loan_recheck text_lower = Ok r.
Proof.
  unfold loan_recheck. cbn [lookup TRANSACTION_CATEGORIES String.eqb Ascii.eqb Bool.eqb].
  cbn [keywords loan_config getitem bind].
  match goal with |- exists r, recheck_keywords _ _ ?kws = _ => generalize kws end.
  intros kws. induction kws as [|kw tl IH]; cbn [recheck_keywords].
  - unfold falls_through. eauto.
  - destruct (contains kw text_lower); [|exact IH].
    cbn [context_phrases loan_config getitem bind].
    destruct (any_search _ text_lower); [|exact IH].
    cbn [providers loan_config getitem bind items].
    destruct (find_provider _ text_lower); unfold returns; eauto.
Qed.

Lemma credit_scan_total text_lower :
  exists r, basic_scan credit_keywords "credit" text_lower = Ok r.
Proof.
  unfold basic_scan.
  cbn [lookup TRANSACTION_CATEGORIES String.eqb Ascii.eqb Bool.eqb].
  cbn [keywords credit_config getitem bind].
  match goal with |- exists r, credit_keywords _ _ ?kws = _ => generalize kws end.
  intros kws. induction kws as [|kw tl IH]; cbn [credit_keywords].
  - unfold falls_through. eauto.
  - destruct (contains kw text_lower); [|exact IH].
    cbn [exceptions credit_config getitem bind].
    destruct (negb (any_in _ text_lower)); [|exact IH].
    destruct (contains "emi" text_lower && contains "credit" text_lower);
      unfold returns; eauto.
Qed.

Lemma debit_scan_total text_lower :
  exists r, basic_scan debit_keywords "debit" text_lower = Ok r.
Proof.
  unfold basic_scan.
  cbn [lookup TRANSACTION_CATEGORIES String.eqb Ascii.eqb Bool.eqb].
  cbn [keywords debit_config getitem bind].
  match goal with |- exists r, debit_keywords _ _ ?kws = _ => generalize kws end.
  intros kws. induction kws as [|kw tl IH]; cbn [debit_keywords].
  - unfold falls_through. eauto.
  - destruct (contains kw text_lower); [|exact IH].
    cbn [exceptions debit_config getitem bind].
    destruct (negb (any_in _ text_lower)); [|exact IH].
    destruct (contains "emi" text_lower); [unfold returns; eauto|].
    destruct (contains "upi" text_lower); [unfold returns; eauto|].
    destruct (contains "atm" text_lower); [unfold returns; eauto|].
    destruct (contains "pos" text_lower || contains "swipe" text_lower);
      unfold returns; eauto.
Qed.

Lemma classify_transactional_total text_lower :
  exists c, classify_transactional text_lower = Ok c.
Proof.
  unfold classify_transactional.
  destruct (scan_categories_total _ text_lower table_dict_providers) as [[c|] ->];
    [rewrite or_else_Some; cbn; eauto | rewrite or_else_None].
  destruct (loan_recheck_total text_lower) as [[c|] ->];
    [rewrite or_else_Some; cbn; eauto | rewrite or_else_None].
  destruct (credit_scan_total text_lower) as [[c|] ->];
    [rewrite or_else_Some; cbn; eauto | rewrite or_else_None].
  destruct (debit_scan_total text_lower) as [[c|] ->]; cbn; eauto.
Qed.

Lemma is_transactional_raises text e :
  is_transactional_message nlp text = Raise e -> nlp (lower text) = Raise e.
Proof.
  unfold is_transactional_message.
  destruct (is_some (Re.search _ _)); [discriminate|].
  destruct (nlp (lower text)) as [doc|e']; cbn [bind].
  - destruct (existsb _ _); [discriminate|].
    destruct (existsb _ _); [discriminate|].
    destruct (is_some _); discriminate.
  - intros H. injection H as ->. reflexivity.
Qed.

Lemma detect_category_raises text e :
  detect_category nlp text = Raise e -> nlp (lower text) = Raise e.
Proof.
  unfold detect_category.
  destruct (is_transactional_message nlp text) as [t|e'] eqn:Ht; cbn [bind].
  - destruct t; cbn [negb]; [|discriminate].
    destruct (classify_transactional_total (normalize text)) as [c ->].
    discriminate.
  - intros H. injection H as ->. apply is_transactional_raises. exact Ht.
Qed.

End Classifier.

(** C2. On [loan_message] a loan keyword is found and none of the loan
    context phrases matches the normalised text, yet [detect_category]
    returns the loan category with confidence 0.85: the return commented
    "no context verification needed" is also reached when the verification
    was needed and failed. *)
Theorem loan_without_context (nlp : string -> result Doc) :
  context_phrases loan_config <> None /\
  (forall phrases, context_phrases loan_config = Some phrases ->
     any_search phrases (normalize loan_message) = false) /\
  detect_category nlp loan_message = Ok ("loan", "", c085).
Proof.
  split; [discriminate|]. split.
  - intros phrases H. injection H as <-. vm_compute. reflexivity.
  - vm_compute. reflexivity.
Qed.

(** ** The orchestrator *)

Section Orchestrator.
Import PyStr PyDate.

Variable nlp : string -> result Doc.

(** What a returned record tells about the calls made to build it. *)
Lemma parse_body_inv text ts now_date now_record r :
  parse_body nlp text ts now_date now_record = Ok r ->
  detect_category nlp text
    = Ok (Txn.category r, Txn.subcategory r, Txn.confidence r)
  /\ (if (Txn.category r =? "informational")%string
      then Txn.amount r = None /\ Txn.currency r = None
           /\ Txn.formatted_amount r = None /\ Txn.merchant r = None
           /\ Txn.reference r = None
      else exists a,
           extract_amount nlp text = Ok a
           /\ Txn.amount r = option_map value a
           /\ Txn.currency r = option_map currency a
           /\ Txn.formatted_amount r = option_map formatted a
           /\ extract_merchant nlp text (Txn.category r) (Txn.subcategory r)
              = Ok (Txn.merchant r)
           /\ Txn.reference r = extract_reference text)
  /\ extract_date text ts now_date = Ok (Txn.date r)
  /\ extract_balance text = Ok (Txn.balance r)
  /\ Txn.timestamp r = isoformat now_record
  /\ ((Txn.category r =? "informational")%string = false ->
      Txn.info_type r = None).
Proof.
  unfold parse_body.
  destruct (detect_category nlp text) as [[[category subcategory] confidence]|e];
    cbn [bind]; [|discriminate].
  destruct (category =? "informational")%string eqn:Hcat; cbn [negb bind].
  - destruct (extract_date text ts now_date) as [d|e]; cbn [bind]; [|discriminate].
    destruct (extract_balance text) as [b|e]; cbn [bind]; [|discriminate].
    intros H. injection H as <-. cbn. rewrite Hcat.
    repeat split; try reflexivity. discriminate.
  - destruct (extract_amount nlp text) as [a|e] eqn:Ha; cbn [bind];
      [|discriminate].
    destruct (extract_merchant nlp text category subcategory) as [m|e] eqn:Hm;
      cbn [bind]; [|discriminate].
    destruct (extract_date text ts now_date) as [d|e]; cbn [bind]; [|discriminate].
    destruct (extract_balance text) as [b|e]; cbn [bind]; [|discriminate].
    intros H. injection H as <-. cbn. rewrite Hcat.
    repeat split; try reflexivity.
    exists a. repeat split; try reflexivity. exact Hm.
Qed.

Lemma parse_Parsed text ts now_date now_record r :
  parse_sms_spacy nlp text ts now_date now_record = Parsed r ->
  is_blank text = false /\ parse_body nlp text ts now_date now_record = Ok r.
Proof.
  unfold parse_sms_spacy. destruct (is_blank text); [discriminate|].
  destruct (parse_body nlp text ts now_date now_record) as [r'|e];
    [|discriminate].
  intros H. injection H as <-. split; reflexivity.
Qed.

(** C4. A record that [parse_sms_spacy] returns with category
    "informational" has no amount, currency, formatted amount, merchant or
    reference. *)
Theorem informational_fields_null text ts now_date now_record r :
  parse_sms_spacy nlp text ts now_date now_record = Parsed r ->
  Txn.category r = "informational" ->
  Txn.amount r = None /\ Txn.currency r = None
  /\ Txn.formatted_amount r = None /\ Txn.merchant r = None
  /\ Txn.reference r = None.
Proof.
  intros H Hcat. apply parse_Parsed in H as [_ H].
  apply parse_body_inv in H as (_ & H & _). rewrite Hcat in H. exact H.
Qed.

End Orchestrator.

(** ** Sorting *)

Section SortFacts.
Context {A : Type} (key : A -> Z).

Lemma insert_In (x y : A) (l : list A) :
  In y (insert key x l) <-> y = x \/ In y l.
Proof.
  induction l as [|z tl IH]; cbn [insert].
  - cbn. intuition auto.
  - destruct (key z <=? key x); cbn; rewrite ?IH; intuition auto.
Qed.

Lemma sort_by_In (y : A) (l : list A) : In y (sort_by key l) <-> In y l.
Proof.
  unfold sort_by. rewrite (in_rev l y). generalize (rev l) as l'.
  induction l' as [|x tl IH]; cbn [fold_right].
  - reflexivity.
  - rewrite insert_In, IH. cbn. intuition auto.
Qed.

Lemma sort_by_head (x : A) (tl l : list A) :
  sort_by key l = x :: tl -> In x l.
Proof.
  intros H. apply sort_by_In. rewrite H. left. reflexivity.
Qed.

End SortFacts.

(** ** Amounts *)

Section Amounts.
Import PyStr.

Variable nlp : string -> result Doc.

(** The two comparisons of [1 <= amount <= 10_000_000]. *)
Definition in_range (x : PyFloat.float) : Prop :=
  PyFloat.leb (PyFloat.of_Z 1) x = true
  /\ PyFloat.leb x (PyFloat.of_Z 10000000) = true.

Lemma plausible_in_range x : PyFloat.plausible x = true -> in_range x.
Proof. unfold PyFloat.plausible, in_range. apply andb_true_iff. Qed.

(** A candidate of the indicator scan is in range, and the character
    before it is none of X, x and #. *)
Lemma indicator_candidate_inv text text_lower indicator amount pos :
  indicator_candidate text text_lower indicator = Ok (Some (amount, pos)) ->
  PyFloat.plausible amount = true
  /\ ((pos >? 0) = true ->
      exists prev_char, item text (pos - 1) = Some prev_char
                        /\ char_in prev_char "Xx#" = false).
Proof.
  unfold indicator_candidate.
  destruct (contains indicator text_lower); [|discriminate].
  destruct (Re.search _ _) as [m|]; [|discriminate].
  destruct (group_str m 1) as [g|e]; cbn [bind]; [|discriminate].
  destruct (PyFloat.of_string _) as [a|]; [|discriminate].
  destruct (PyFloat.plausible a) eqn:Hpl; [|discriminate].
  set (actual_pos := find indicator text_lower + len indicator + Re.m_start m).
  destruct (actual_pos >? 0) eqn:Hpos.
  - unfold char_at at 1.
    destruct (item text (actual_pos - 1)) as [prev_char|] eqn:Hprev;
      cbn [bind]; [|discriminate].
    destruct (char_in prev_char "Xx#") eqn:Hacc; [discriminate|].
    destruct (actual_pos + len (Re.group0 m) <? len text).
    + destruct (char_at text _) as [next_char|e]; cbn [bind]; [|discriminate].
      destruct (negb (isspace next_char) && negb (char_in next_char ".,)]}"));
        [discriminate|].
      intros H. injection H as <- <-. split; [exact Hpl|]. eauto.
    + cbn [bind]. intros H. injection H as <- <-. split; [exact Hpl|]. eauto.
  - cbn [bind].
    destruct (actual_pos + len (Re.group0 m) <? len text).
    + destruct (char_at text _) as [next_char|e]; cbn [bind]; [|discriminate].
      destruct (negb (isspace next_char) && negb (char_in next_char ".,)]}"));
        [discriminate|].
      intros H. injection H as <- <-. split; [exact Hpl|].
      rewrite Hpos. discriminate.
    + cbn [bind]. intros H. injection H as <- <-. split; [exact Hpl|].
      rewrite Hpos. discriminate.
Qed.

Lemma collect_amounts_inv text text_lower indicators amounts :
  collect_amounts text text_lower indicators = Ok amounts ->
  forall amount pos, In (amount, pos) amounts ->
    exists indicator, In indicator indicators
      /\ indicator_candidate text text_lower indicator = Ok (Some (amount, pos)).
Proof.
  revert amounts. induction indicators as [|ind tl IH]; intros amounts;
    cbn [collect_amounts].
  - intros H. injection H as <-. intros ? ? [].
  - destruct (indicator_candidate text text_lower ind) as [c|e] eqn:Hc;
      cbn [bind]; [|discriminate].
    destruct (collect_amounts text text_lower tl) as [rest|e]; cbn [bind];
      [|discriminate].
    intros H. injection H as <-. intros amount pos Hin.
    assert (Hrest : In (amount, pos) rest ->
            exists indicator, In indicator (ind :: tl)
              /\ indicator_candidate text text_lower indicator
                 = Ok (Some (amount, pos))).
    { intros Hr. destruct (IH rest eq_refl amount pos Hr) as (i & Hi & Hci).
      exists i. split; [right; exact Hi | exact Hci]. }
    destruct c as [[a0 p0]|]; [|auto].
    destruct Hin as [Heq|Hr]; [|auto].
    injection Heq as <- <-. exists ind. split; [left; reflexivity | exact Hc].
Qed.

Lemma amount_by_indicator_plausible text text_lower m :
  amount_by_indicator text text_lower = Ok (Some m) ->
  PyFloat.plausible (value m) = true.
Proof.
  unfold amount_by_indicator.
  destruct (collect_amounts text text_lower transaction_indicators)
    as [amounts|e] eqn:Hc; cbn [bind]; [|discriminate].
  destruct (sort_by snd amounts) as [|[amount pos] tl] eqn:Hs; [discriminate|].
  intros H. injection H as <-. cbn [value money].
  apply sort_by_head in Hs.
  destruct (collect_amounts_inv _ _ _ _ Hc _ _ Hs) as (ind & _ & Hi).
  apply indicator_candidate_inv in Hi as [Hpl _]. exact Hpl.
Qed.

Lemma amount_by_entity_plausible text_lower l m :
  amount_by_entity text_lower l = Ok (Some m) ->
  PyFloat.plausible (value m) = true.
Proof.
  induction l as [|ent tl IH]; cbn [amount_by_entity]; [discriminate|].
  destruct (label_ ent =? "MONEY")%string; [|exact IH].
  destruct (existsb _ _); [|exact IH].
  destruct (isdigit _); [|exact IH].
  destruct (PyFloat.of_string _) as [amount|]; [|exact IH].
  destruct (PyFloat.plausible amount) eqn:Hpl; [|exact IH].
  intros H. injection H as <-. exact Hpl.
Qed.

Lemma amount_by_prefix_plausible text_lower m :
  amount_by_prefix text_lower = Ok (Some m) ->
  PyFloat.plausible (value m) = true.
Proof.
  unfold amount_by_prefix.
  destruct (Re.search _ _) as [mt|]; [|discriminate].
  destruct (group_str mt 1) as [g|e]; cbn [bind]; [|discriminate].
  destruct (PyFloat.of_string _) as [amount|]; [|discriminate].
  destruct (PyFloat.plausible amount) eqn:Hpl; [|discriminate].
  intros H. injection H as <-. exact Hpl.
Qed.

Lemma amount_by_token_plausible l :
  forall prev m, amount_by_token prev l = Ok (Some m) ->
  PyFloat.plausible (value m) = true.
Proof.
  induction l as [|token tl IH]; intros prev m; cbn [amount_by_token];
    [discriminate|].
  destruct (like_num token && negb (ent_type_ token =? "DATE")%string);
    [|apply IH].
  destruct (PyFloat.of_string _) as [amount|]; [|apply IH].
  destruct (match prev with Some _ => _ | None => _ end); [apply IH|].
  destruct (PyFloat.plausible amount) eqn:Hpl; [|apply IH].
  intros H. injection H as <-. exact Hpl.
Qed.

Lemma extract_amount_plausible text m :
  extract_amount nlp text = Ok (Some m) -> PyFloat.plausible (value m) = true.
Proof.
  unfold extract_amount. intros H.
  apply or_else_returns in H as [H|[_ H]];
    [eapply amount_by_indicator_plausible; eassumption|].
  apply or_else_returns in H as [H|[_ H]].
  { destruct (nlp text) as [doc|e]; cbn [bind] in H; [|discriminate].
    eapply amount_by_entity_plausible; eassumption. }
  apply or_else_returns in H as [H|[_ H]];
    [eapply amount_by_prefix_plausible; eassumption|].
  destruct (nlp text) as [doc|e]; cbn [bind] in H; [|discriminate].
  eapply amount_by_token_plausible; eassumption.
Qed.

(** *** The amount extractor raises only what the analyzer raises *)

Lemma group_str_total p s m g :
  Re.search p s = Some m -> In g (Re.must (Re.p_re p)) ->
  exists txt, group_str m g = Ok txt.
Proof.
  intros H Hin. destruct (ReFacts.search_span _ _ _ H) as (_ & _ & Hm).
  destruct (Hm g Hin) as [txt Htxt]. exists txt. unfold group_str.
  rewrite Htxt. reflexivity.
Qed.

Lemma char_at_total s i : 0 <= i < len s -> exists c, char_at s i = Ok c.
Proof.
  intros H. destruct (StrFacts.item_Some s i H) as [c Hc].
  exists c. unfold char_at. rewrite Hc. reflexivity.
Qed.

Lemma indicator_candidate_total text indicator :
  exists r, indicator_candidate text (lower text) indicator = Ok r.
Proof.
  unfold indicator_candidate.
  destruct (contains indicator (lower text)) eqn:Hc; [|eauto].
  apply StrFacts.find_bounds in Hc. rewrite StrFacts.len_lower in Hc.
  set (pos := find indicator (lower text) + len indicator) in *.
  destruct (Re.search _ _) as [m|] eqn:Hs; [|eauto].
  destruct (group_str_total _ _ _ 1%nat Hs) as [g ->];
    [vm_compute; auto|]. cbn [bind].
  destruct (PyFloat.of_string _) as [amount|]; [|eauto].
  destruct (PyFloat.plausible amount); [|eauto].
  destruct (ReFacts.search_span _ _ _ Hs) as (_ & Hspan & _).
  assert (Hind : 0 <= len indicator) by (unfold len; lia).
  assert (Hctx : len (slice text pos (pos + 30)) <= len text - pos)
    by (apply StrFacts.len_slice_from; lia).
  assert (Hstart : 0 <= Re.m_start m <= len text - pos)
    by (unfold Re.m_start; unfold len in Hctx |- *; lia).
  assert (Hacc : exists account,
             (if pos + Re.m_start m >? 0
              then prev_char <- char_at text (pos + Re.m_start m - 1) ;;
                   Ok (char_in prev_char "Xx#")
              else Ok false) = Ok account).
  { destruct (pos + Re.m_start m >? 0) eqn:Hpos; [|eauto].
    apply Z.gtb_lt in Hpos.
    destruct (char_at_total text (pos + Re.m_start m - 1)) as [c ->]; [lia|].
    cbn. eauto. }
  destruct Hacc as [account ->]. cbn [bind].
  destruct account; [eauto|].
  destruct (pos + Re.m_start m + len (Re.group0 m) <? len text) eqn:Hnext.
  - apply Z.ltb_lt in Hnext.
    destruct (char_at_total text (pos + Re.m_start m + len (Re.group0 m)))
      as [c ->]; [unfold len in *; lia|].
    cbn [bind]. destruct (negb (isspace c) && negb (char_in c ".,)]}")); eauto.
  - cbn [bind]. eauto.
Qed.

Lemma collect_amounts_total text indicators :
  exists l, collect_amounts text (lower text) indicators = Ok l.
Proof.
  induction indicators as [|ind tl [rest IH]]; cbn [collect_amounts]; [eauto|].
  destruct (indicator_candidate_total text ind) as [c ->]. rewrite IH.
  cbn. eauto.
Qed.

Lemma amount_by_indicator_total text :
  exists r, amount_by_indicator text (lower text) = Ok r.
Proof.
  unfold amount_by_indicator.
  destruct (collect_amounts_total text transaction_indicators) as [l ->].
  cbn [bind]. destruct (sort_by snd l) as [|[amount pos] tl];
    unfold returns, falls_through; eauto.
Qed.

Lemma amount_by_entity_total text_lower l :
  exists r, amount_by_entity text_lower l = Ok r.
Proof.
  induction l as [|ent tl IH]; cbn [amount_by_entity];
    [unfold falls_through; eauto|].
  destruct (label_ ent =? "MONEY")%string; [|exact IH].
  destruct (existsb _ _); [|exact IH].
  destruct (isdigit _); [|exact IH].
  destruct (PyFloat.of_string _) as [amount|]; [|exact IH].
  destruct (PyFloat.plausible amount); [unfold returns; eauto | exact IH].
Qed.

Lemma amount_by_prefix_total text_lower :
  exists r, amount_by_prefix text_lower = Ok r.
Proof.
  unfold amount_by_prefix.
  destruct (Re.search _ _) as [m|] eqn:Hs; [|unfold falls_through; eauto].
  destruct (group_str_total _ _ _ 1%nat Hs) as [g ->];
    [vm_compute; auto|]. cbn [bind].
  destruct (PyFloat.of_string _) as [amount|]; [|unfold falls_through; eauto].
  destruct (PyFloat.plausible amount); unfold returns, falls_through; eauto.
Qed.

Lemma amount_by_token_total l :
  forall prev, exists r, amount_by_token prev l = Ok r.
Proof.
  induction l as [|token tl IH]; intros prev; cbn [amount_by_token];
    [unfold falls_through; eauto|].
  destruct (like_num token && negb (ent_type_ token =? "DATE")%string);
    [|apply IH].
  destruct (PyFloat.of_string _) as [amount|]; [|apply IH].
  destruct (match prev with Some _ => _ | None => _ end); [apply IH|].
  destruct (PyFloat.plausible amount); [unfold returns; eauto | apply IH].
Qed.

Lemma extract_amount_raises text e :
  extract_amount nlp text = Raise e -> nlp text = Raise e.
Proof.
  unfold extract_amount.
  destruct (amount_by_indicator_total text) as [[m|] ->];
    [rewrite or_else_Some; discriminate | rewrite or_else_None].
  destruct (nlp text) as [doc|e'] eqn:Hnlp; cbn [bind].
  - destruct (amount_by_entity_total (lower text) (ents doc)) as [[m|] ->];
      [rewrite or_else_Some; discriminate | rewrite or_else_None].
    destruct (amount_by_prefix_total (lower text)) as [[m|] ->];
      [rewrite or_else_Some; discriminate | rewrite or_else_None].
    destruct (amount_by_token_total (tokens doc) None) as [r ->]. discriminate.
  - rewrite or_else_Raise. intros H. injection H as ->. reflexivity.
Qed.

(** C3. Whatever stage of [extract_amount] produces it, a non-null amount
    satisfies 1 <= value <= 10,000,000; so does the amount of every record
    that [parse_sms_spacy] returns. *)
Theorem amount_in_range text :
  (forall m, extract_amount nlp text = Ok (Some m) -> in_range (value m))
  /\ (forall ts now_date now_record r amount,
        parse_sms_spacy nlp text ts now_date now_record = Parsed r ->
        Txn.amount r = Some amount -> in_range amount).
Proof.
  split.
  - intros m H. apply plausible_in_range. eapply extract_amount_plausible.
    exact H.
  - intros ts now_date now_record r amount H Ha.
    apply parse_Parsed in H as [_ H].
    apply parse_body_inv in H as (_ & H & _).
    destruct (Txn.category r =? "informational")%string.
    + destruct H as [H _]. rewrite H in Ha. discriminate.
    + destruct H as (a & Hext & Hamt & _). rewrite Hamt in Ha.
      destruct a as [m|]; [|discriminate]. injection Ha as <-.
      apply plausible_in_range. eapply extract_amount_plausible. exact Hext.
Qed.

End Amounts.

(** ** Merchants, dates and balances: what can be raised *)

Section Extractors.
Import PyStr PyDate.

Variable nlp : string -> result Doc.

Lemma group_of_total p s m g :
  Re.search p s = Some m -> In g (Re.must (Re.p_re p)) ->
  exists txt, group_of m g = Ok txt.
Proof.
  intros H Hin. destruct (ReFacts.search_span _ _ _ H) as (_ & _ & Hm).
  destruct (Hm g Hin) as [txt Htxt]. exists txt. unfold group_of.
  rewrite Htxt. reflexivity.
Qed.

(** A search followed by the use of group 1 does not raise. *)
Ltac search_group1 :=
  match goal with
  | |- context [match Re.search ?p ?s with _ => _ end] =>
      let m := fresh "m" in
      let Hs := fresh "Hs" in
      let g := fresh "g" in
      destruct (Re.search p s) as [m|] eqn:Hs;
      [destruct (group_of_total _ _ _ 1%nat Hs) as [g ->];
       [vm_compute; auto | cbn [bind]; unfold returns; eauto] |]
  end.

Lemma informational_merchant_total text text_lower :
  exists r, informational_merchant text text_lower = Ok r.
Proof.
  unfold informational_merchant.
  assert (Happ : exists r,
             (if contains "app" text_lower || contains "buy" text_lower
                 || contains "sell" text_lower
              then
                match Re.search (Re.compile_i "on your ([a-zA-Z]+) App") text with
                | Some m => g <- group_of m 1 ;; returns (u g ++ u " App")%list
                | None =>
                    match Re.search (Re.compile_i "only on ([a-zA-Z]+)") text with
                    | Some m => g <- group_of m 1 ;; returns (u g ++ u " App")%list
                    | None => falls_through
                    end
                end
              else falls_through) = Ok r).
  { destruct (_ || _); [|unfold falls_through; eauto].
    search_group1. search_group1. unfold falls_through. eauto. }
  destruct Happ as [[r|] ->]; [rewrite or_else_Some; eauto | rewrite or_else_None].
  destruct (_ || _); [|unfold falls_through; eauto].
  search_group1. unfold falls_through. eauto.
Qed.

Lemma upi_merchant_total text :
  exists r, upi_merchant text upi_patterns = Ok r.
Proof.
  unfold upi_patterns. cbn [upi_merchant].
  do 4 search_group1. unfold falls_through. eauto.
Qed.

Lemma general_merchant_total text text_lower indicators :
  exists r, general_merchant text text_lower indicators = Ok r.
Proof.
  induction indicators as [|ind tl IH]; cbn [general_merchant];
    [unfold falls_through; eauto|].
  destruct (contains ind text_lower); [|exact IH].
  destruct (_ <? _); [|exact IH].
  destruct (merchant_words _); [exact IH | unfold returns; eauto].
Qed.

Lemma providers_of_recharge : exists l, providers_of "recharge" = Ok l.
Proof. vm_compute. eauto. Qed.

Lemma providers_of_insurance : exists l, providers_of "insurance" = Ok l.
Proof. vm_compute. eauto. Qed.

Lemma extract_merchant_raises text category subcategory e :
  extract_merchant nlp text category subcategory = Raise e -> nlp text = Raise e.
Proof.
  unfold extract_merchant.
  destruct (category =? "informational")%string.
  { destruct (informational_merchant_total text (lower text)) as [r ->].
    discriminate. }
  destruct (_ && _); [discriminate|].
  destruct (category =? "recharge")%string.
  { destruct providers_of_recharge as [l ->]. discriminate. }
  destruct (category =? "insurance")%string.
  { destruct providers_of_insurance as [l ->]. discriminate. }
  destruct (category =? "investment")%string; [discriminate|].
  assert (Hupi : exists r,
             (if (category =? "debit")%string && (subcategory =? "upi")%string
              then upi_merchant text upi_patterns else falls_through) = Ok r).
  { destruct (_ && _); [apply upi_merchant_total | unfold falls_through; eauto]. }
  destruct Hupi as [[r|] ->];
    [rewrite or_else_Some; discriminate | rewrite or_else_None].
  destruct (general_merchant_total text (lower text) merchant_indicators)
    as [[r|] ->]; [rewrite or_else_Some; discriminate | rewrite or_else_None].
  destruct (nlp text) as [doc|e'] eqn:Hnlp; cbn [bind or_default].
  - destruct (verb_merchant doc 0 (tokens doc)); discriminate.
  - intros H. injection H as ->. reflexivity.
Qed.

(** *** Dates *)

Lemma groups3_total p s m :
  Re.search p s = Some m ->
  In 1%nat (Re.must (Re.p_re p)) -> In 2%nat (Re.must (Re.p_re p)) ->
  In 3%nat (Re.must (Re.p_re p)) ->
  exists g, groups3 m = Ok g.
Proof.
  intros H H1 H2 H3. destruct (ReFacts.search_span _ _ _ H) as (_ & _ & Hm).
  destruct (Hm _ H1) as [t1 E1]. destruct (Hm _ H2) as [t2 E2].
  destruct (Hm _ H3) as [t3 E3]. unfold groups3. rewrite E1, E2, E3. eauto.
Qed.

Ltac search_groups3 :=
  match goal with
  | |- context [match Re.search ?p ?s with _ => _ end] =>
      let m := fresh "m" in
      let Hs := fresh "Hs" in
      let g := fresh "g" in
      destruct (Re.search p s) as [m|] eqn:Hs;
      [destruct (groups3_total _ _ _ Hs) as [[[? ?] ?] ->];
       [vm_compute; auto.. | cbn [bind]] |]
  end.

Lemma compact_date_total text : exists r, compact_date text = Ok r.
Proof.
  unfold compact_date. search_groups3; [eauto | unfold falls_through; eauto].
Qed.

Lemma standard_date_total text : exists r, standard_date text = Ok r.
Proof.
  unfold standard_date. search_groups3; [eauto | unfold falls_through; eauto].
Qed.

Lemma verbose_date_total text : exists r, verbose_date text = Ok r.
Proof.
  unfold verbose_date. search_groups3; [|unfold falls_through; eauto].
  destruct (reformat _ "%d %B %Y"); unfold returns; eauto.
Qed.

Lemma indicated_date_total text text_lower indicators :
  exists r, indicated_date text text_lower indicators = Ok r.
Proof.
  induction indicators as [|ind tl IH]; cbn [indicated_date];
    [unfold falls_through; eauto|].
  destruct (negb _); [|exact IH].
  search_groups3; [|exact IH].
  destruct (reformat _ _); [unfold returns; eauto | exact IH].
Qed.

Definition date_overflow : exn := OverflowError "date value out of range".

Lemma relative_date_raises text_lower ts now d e :
  relative_date text_lower ts now d = Raise e -> e = date_overflow.
Proof.
  induction d as [|[rel_date offset] tl IH]; cbn [relative_date];
    [discriminate|].
  destruct (contains rel_date text_lower); [|exact IH].
  destruct (add_days _ _); [discriminate|].
  intros H. injection H as <-. reflexivity.
Qed.

Lemma extract_date_raises text ts now e :
  extract_date text ts now = Raise e -> e = date_overflow.
Proof.
  unfold extract_date.
  destruct (relative_date (lower text) ts now relative_dates) as [[d|]|e'] eqn:Hr.
  - rewrite or_else_Some. discriminate.
  - rewrite or_else_None.
    destruct (compact_date_total text) as [[d|] ->];
      [rewrite or_else_Some; discriminate | rewrite or_else_None].
    destruct (standard_date_total text) as [[d|] ->];
      [rewrite or_else_Some; discriminate | rewrite or_else_None].
    destruct (verbose_date_total text) as [[d|] ->];
      [rewrite or_else_Some; discriminate | rewrite or_else_None].
    destruct (indicated_date_total text (lower text) date_indicators) as [[d|] ->];
      discriminate.
  - rewrite or_else_Raise. cbn. intros H. injection H as <-.
    eapply relative_date_raises. exact Hr.
Qed.

(** *** Balances *)

Lemma collect_balances_total ms :
  Forall (fun m => exists txt, Re.group m 2 = Some txt) ms ->
  exists l, collect_balances ms = Ok l.
Proof.
  induction 1 as [|m tl [txt Hg] _ [rest IH]]; cbn [collect_balances]; [eauto|].
  unfold group_str. rewrite Hg. cbn [bind]. rewrite IH. cbn [bind].
  destruct (PyFloat.of_string _); eauto.
Qed.

Lemma extract_balance_total text : exists b, extract_balance text = Ok b.
Proof.
  unfold extract_balance.
  destruct (collect_balances_total (Re.finditer Patterns.balance text)) as [l ->].
  - pose proof (ReFacts.finditer_ok _ _ Patterns.balance text
                  (ReFacts.chars_ok_top _ _) (ReFacts.groups_ok_top _ _)) as H.
    eapply Forall_impl; [|exact H]. intros m [_ _ Hm _ _].
    apply Hm. vm_compute. auto.
  - cbn [bind]. destruct (sort_by snd l) as [|[[amount cur] pos] tl]; eauto.
Qed.

End Extractors.

(** ** Errors *)

Section Errors.
Import PyStr PyDate.

Variable nlp : string -> result Doc.

Lemma is_blank_iff text : is_blank text = true <-> forallb isspace text = true.
Proof.
  rewrite <- StrFacts.strip_empty. unfold is_blank.
  destruct (strip text); split; intros H; try reflexivity; discriminate.
Qed.

(** An exception inside the [try] block is one the analyzer raised, or the
    overflow of the date arithmetic. *)
Lemma parse_body_raises text ts now_date now_record e :
  parse_body nlp text ts now_date now_record = Raise e ->
  nlp (lower text) = Raise e \/ nlp text = Raise e \/ e = date_overflow.
Proof.
  unfold parse_body.
  destruct (detect_category nlp text) as [[[category subcategory] confidence]|e']
    eqn:Hc; cbn [bind].
  - assert (Hx : forall x,
               (if negb (category =? "informational")%string
                then amount <- extract_amount nlp text ;;
                     merchant <- extract_merchant nlp text category subcategory ;;
                     Ok (amount, merchant, extract_reference text)
                else Ok (None, None, None)) = Raise x -> nlp text = Raise x).
    { intros x. destruct (negb _); [|discriminate].
      destruct (extract_amount nlp text) as [a|e1] eqn:Ha; cbn [bind].
      - destruct (extract_merchant nlp text category subcategory) as [m|e2] eqn:Hm;
          cbn [bind]; [discriminate|].
        intros H. injection H as <-. eapply extract_merchant_raises. exact Hm.
      - intros H. injection H as <-. apply extract_amount_raises. exact Ha. }
    match goal with
    | |- bind ?x _ = _ -> _ => destruct x as [[[amount merchant] reference]|e1]
    end; cbn [bind].
    + destruct (extract_date text ts now_date) as [d|e2] eqn:Hd; cbn [bind].
      * destruct (extract_balance_total text) as [b ->]. discriminate.
      * intros H. injection H as <-. right. right.
        eapply extract_date_raises. exact Hd.
    + intros H. injection H as <-. right. left. apply Hx. reflexivity.
  - intros H. injection H as <-. left. eapply detect_category_raises. exact Hc.
Qed.

(** C6. [parse_sms_spacy] raises [SMSParseError] exactly when the text is
    empty or white space only (message "Empty SMS content") or when the
    body of the [try] block raises (message "Universal SMS parsing failed: "
    and the cause), and the body raises only what the analyzer raised or the
    overflow of the date arithmetic.  It returns a record exactly when the
    text is not blank and the body ran to its end; for the empty string it
    raises. *)
Theorem parse_error_cases text ts now_date now_record :
  (forall msg,
     parse_sms_spacy nlp text ts now_date now_record = SMSParseError msg <->
     (forallb isspace text = true /\ msg = "Empty SMS content")
     \/ (forallb isspace text = false
         /\ exists e, parse_body nlp text ts now_date now_record = Raise e
                      /\ msg = "Universal SMS parsing failed: " ++ str_exn e))
  /\ (forall e, parse_body nlp text ts now_date now_record = Raise e ->
        nlp (lower text) = Raise e \/ nlp text = Raise e \/ e = date_overflow)
  /\ (forall r,
        parse_sms_spacy nlp text ts now_date now_record = Parsed r <->
        forallb isspace text = false
        /\ parse_body nlp text ts now_date now_record = Ok r)
  /\ parse_sms_spacy nlp "" ts now_date now_record
     = SMSParseError "Empty SMS content".
Proof.
  pose proof (is_blank_iff text) as Hb.
  unfold parse_sms_spacy.
  split; [|split; [|split]].
  - intros msg. destruct (is_blank text).
    + assert (Hs : forallb isspace text = true) by (apply Hb; reflexivity).
      rewrite Hs. split.
      * intros H. injection H as <-. left. split; reflexivity.
      * intros [[_ ->]|[H _]]; [reflexivity | discriminate].
    + assert (Hs : forallb isspace text = false).
      { destruct (forallb isspace text); [|reflexivity].
        symmetry. apply Hb. reflexivity. }
      rewrite Hs.
      destruct (parse_body nlp text ts now_date now_record) as [r|e]; split.
      * discriminate.
      * intros [[H _]|[_ (e & H & _)]]; discriminate.
      * intros H. injection H as <-. right. split; [reflexivity|].
        exists e. split; reflexivity.
      * intros [[H _]|[_ (e' & H & ->)]]; [discriminate|].
        injection H as <-. reflexivity.
  - intros e. apply parse_body_raises.
  - intros r. destruct (is_blank text).
    + assert (Hs : forallb isspace text = true) by (apply Hb; reflexivity).
      rewrite Hs. split; [discriminate | intros [H _]; discriminate].
    + assert (Hs : forallb isspace text = false).
      { destruct (forallb isspace text); [|reflexivity].
        symmetry. apply Hb. reflexivity. }
      rewrite Hs.
      destruct (parse_body nlp text ts now_date now_record) as [r'|e]; split.
      * intros H. injection H as <-. split; reflexivity.
      * intros [_ H]. injection H as <-. reflexivity.
      * discriminate.
      * intros [_ H]. discriminate.
  - reflexivity.
Qed.

End Errors.

(** ** Dates *)

Section Dates.
Import PyStr PyDate.

Variable nlp : string -> result Doc.

(** Every date that [extract_date] returns comes out of [strftime]. *)
Definition formatted_date (d : string) : Prop := exists t, d = strftime_ymd t.

Lemma reformat_formatted s fmt d : reformat s fmt = Some d -> formatted_date d.
Proof.
  unfold reformat. destruct (strptime s fmt) as [t|]; [|discriminate].
  intros H. injection H as <-. exists t. reflexivity.
Qed.

Lemma relative_date_formatted text_lower ts now l d :
  relative_date text_lower ts now l = Ok (Some d) -> formatted_date d.
Proof.
  induction l as [|[rel_date offset] tl IH]; cbn [relative_date];
    [discriminate|].
  destruct (contains rel_date text_lower); [|exact IH].
  destruct (add_days _ _) as [t|]; [|discriminate].
  intros H. injection H as <-. exists t. reflexivity.
Qed.

Lemma compact_date_formatted text d :
  compact_date text = Ok (Some d) -> formatted_date d.
Proof.
  unfold compact_date. destruct (Re.search _ _) as [m|]; [|discriminate].
  destruct (groups3 m) as [[[day month_abbr] year]|e]; cbn [bind]; [|discriminate].
  intros H. apply Ok_inj in H. eapply reformat_formatted. exact H.
Qed.

Lemma first_format_formatted s fmts d :
  first_format s fmts = Some d -> formatted_date d.
Proof.
  induction fmts as [|fmt tl IH]; cbn [first_format]; [discriminate|].
  destruct (reformat s _) as [d'|] eqn:Hr; [|exact IH].
  intros H. injection H as <-. eapply reformat_formatted. exact Hr.
Qed.

Lemma standard_date_formatted text d :
  standard_date text = Ok (Some d) -> formatted_date d.
Proof.
  unfold standard_date. destruct (Re.search _ _) as [m|]; [|discriminate].
  destruct (groups3 m) as [[[p0 p1] p2]|e]; cbn [bind]; [|discriminate].
  intros H. apply Ok_inj in H. eapply first_format_formatted. exact H.
Qed.

Lemma verbose_date_formatted text d :
  verbose_date text = Ok (Some d) -> formatted_date d.
Proof.
  unfold verbose_date. destruct (Re.search _ _) as [m|]; [|discriminate].
  destruct (groups3 m) as [[[day month] year]|e]; cbn [bind]; [|discriminate].
  destruct (reformat _ "%d %B %Y") as [d'|] eqn:Hr.
  - intros H. injection H as <-. eapply reformat_formatted. exact Hr.
  - intros H. apply Ok_inj in H. eapply reformat_formatted. exact H.
Qed.

Lemma indicated_date_formatted text text_lower l d :
  indicated_date text text_lower l = Ok (Some d) -> formatted_date d.
Proof.
  induction l as [|ind tl IH]; cbn [indicated_date]; [discriminate|].
  destruct (negb _); [|exact IH].
  destruct (Re.search _ _) as [m|]; [|exact IH].
  destruct (groups3 m) as [[[g1 g2] g3]|e]; cbn [bind]; [|discriminate].
  destruct (reformat _ _) as [d'|] eqn:Hr; [|exact IH].
  intros H. injection H as <-. eapply reformat_formatted. exact Hr.
Qed.

Lemma extract_date_formatted text ts now d :
  extract_date text ts now = Ok d -> formatted_date d.
Proof.
  unfold extract_date. intros H.
  apply or_default_Ok in H as [H|[_ ->]]; [|eexists; reflexivity].
  apply or_else_returns in H as [H|[_ H]];
    [eapply relative_date_formatted; eassumption|].
  apply or_else_returns in H as [H|[_ H]];
    [eapply compact_date_formatted; eassumption|].
  apply or_else_returns in H as [H|[_ H]];
    [eapply standard_date_formatted; eassumption|].
  apply or_else_returns in H as [H|[_ H]];
    [eapply verbose_date_formatted; eassumption|].
  eapply indicated_date_formatted; eassumption.
Qed.

(** Without a matching date pattern the fallback decides. *)
Lemma relative_date_absent text_lower ts now l :
  (forall rel_date offset, In (rel_date, offset) l ->
     contains rel_date text_lower = false) ->
  relative_date text_lower ts now l = Ok None.
Proof.
  induction l as [|[rel_date offset] tl IH]; intros H; cbn [relative_date];
    [reflexivity|].
  rewrite (H rel_date offset (or_introl eq_refl)).
  apply IH. intros r o Hin. apply (H r o). right. exact Hin.
Qed.

Lemma indicated_date_absent text l :
  (forall indicator, In indicator l ->
     let pos := find indicator (lower text) in
     Re.search (Re.compile_i "(\d{1,2})\s+([a-z]{3,9})\s+(\d{4})")
               (slice text (pos + len indicator) (pos + len indicator + 30))
     = None) ->
  indicated_date text (lower text) l = Ok None.
Proof.
  induction l as [|ind tl IH]; intros H; cbn [indicated_date]; [reflexivity|].
  rewrite (H ind (or_introl eq_refl)).
  assert (Htl : indicated_date text (lower text) tl = Ok None).
  { apply IH. intros i Hin. apply H. right. exact Hin. }
  rewrite Htl. destruct (negb _); reflexivity.
Qed.

Lemma extract_date_fallback text ts now :
  no_date_pattern text ->
  extract_date text ts now = Ok (strftime_ymd (or_now ts now)).
Proof.
  intros (Hrel & Hc & Hs & Hv & Hi). unfold extract_date.
  rewrite (relative_date_absent _ _ _ _ Hrel), or_else_None.
  unfold compact_date, standard_date, verbose_date. rewrite Hc, Hs, Hv.
  rewrite (indicated_date_absent _ _ Hi). reflexivity.
Qed.

(** With a timestamp supplied the clock is not consulted. *)
Lemma relative_date_clock text_lower t now now' l :
  relative_date text_lower (Some t) now l
  = relative_date text_lower (Some t) now' l.
Proof.
  induction l as [|[rel_date offset] tl IH]; cbn [relative_date or_now];
    [reflexivity|].
  rewrite IH. reflexivity.
Qed.

Lemma extract_date_clock text t now now' :
  extract_date text (Some t) now = extract_date text (Some t) now'.
Proof.
  unfold extract_date. rewrite (relative_date_clock _ t now now').
  reflexivity.
Qed.

(** The date arithmetic of the relative keywords stays in the calendar. *)
Definition in_calendar (base : datetime) : Prop :=
  forall rel_date offset, In (rel_date, offset) relative_dates ->
    add_days base offset <> None.

Lemma extract_date_total text ts now :
  in_calendar (or_now ts now) -> exists d, extract_date text ts now = Ok d.
Proof.
  intros Hcal.
  destruct (extract_date text ts now) as [d|e] eqn:H; [eauto|].
  exfalso. pose proof (extract_date_raises _ _ _ _ H) as ->.
  unfold extract_date in H.
  assert (Hrel : forall l, (forall r o, In (r, o) l -> In (r, o) relative_dates) ->
            exists x, relative_date (lower text) ts now l = Ok x).
  { induction l as [|[rel_date offset] tl IH]; intros Hsub; cbn [relative_date].
    - unfold falls_through. eauto.
    - destruct (contains rel_date (lower text)).
      + destruct (add_days (or_now ts now) offset) as [t|] eqn:Ha;
          [unfold returns; eauto|].
        exfalso. apply (Hcal rel_date offset); [|exact Ha].
        apply Hsub. left. reflexivity.
      + apply IH. intros r o Hin. apply Hsub. right. exact Hin. }
  destruct (Hrel relative_dates (fun _ _ Hin => Hin)) as [[d|] Hr];
    rewrite Hr in H.
  - rewrite or_else_Some in H. discriminate.
  - rewrite or_else_None in H.
    destruct (compact_date_total text) as [[d|] Hx]; rewrite Hx in H;
      [rewrite or_else_Some in H; discriminate | rewrite or_else_None in H].
    destruct (standard_date_total text) as [[d|] Hy]; rewrite Hy in H;
      [rewrite or_else_Some in H; discriminate | rewrite or_else_None in H].
    destruct (verbose_date_total text) as [[d|] Hz]; rewrite Hz in H;
      [rewrite or_else_Some in H; discriminate | rewrite or_else_None in H].
    destruct (indicated_date_total text (lower text) date_indicators)
      as [[d|] Hw]; rewrite Hw in H; discriminate.
Qed.

(** C5, where the code breaks it.  [strftime] does not zero-fill the year:
    for a message dated in the year 999 [extract_date] returns "999-05-15"
    whatever the timestamp and the clock, a string that does not match
    [^\d{4}-\d{2}-\d{2}$].  Every record that [parse_sms_spacy] returns for
    that message carries this date, and with the word analyzer a record is
    returned. *)
Theorem year_not_zero_filled :
  (forall ts now, extract_date old_date_message ts now = Ok "999-05-15")
  /\ is_iso_date "999-05-15" = false
  /\ (forall ts now_date now_record r,
        parse_sms_spacy nlp old_date_message ts now_date now_record = Parsed r ->
        Txn.date r = "999-05-15")
  /\ (exists r,
        parse_sms_spacy words_nlp old_date_message None
                        noon_10_june_2025 morning_2_jan_2026 = Parsed r
        /\ Txn.date r = "999-05-15"
        /\ is_iso_date (Txn.date r) = false).
Proof.
  assert (Hd : forall ts now,
             extract_date old_date_message ts now = Ok "999-05-15").
  { intros ts now. unfold extract_date.
    rewrite relative_date_absent, or_else_None.
    2:{ intros rel_date offset Hin. cbn in Hin.
        repeat (destruct Hin as [Hin|Hin];
                [injection Hin as <- <-; vm_compute; reflexivity|]).
        destruct Hin. }
    replace (compact_date old_date_message) with (@Ok (option string) None)
      by (vm_compute; reflexivity).
    rewrite or_else_None.
    replace (standard_date old_date_message) with (@Ok (option string) None)
      by (vm_compute; reflexivity).
    rewrite or_else_None.
    replace (verbose_date old_date_message)
      with (@Ok (option string) (Some "999-05-15"))
      by (vm_compute; reflexivity).
    reflexivity. }
  split; [exact Hd|]. split; [vm_compute; reflexivity|]. split.
  - intros ts now_date now_record r H. apply parse_Parsed in H as [_ H].
    apply parse_body_inv in H as (_ & _ & Hr & _).
    rewrite Hd in Hr. injection Hr as <-. reflexivity.
  - eexists. split; [vm_compute; reflexivity|].
    split; vm_compute; reflexivity.
Qed.

(** X19. When no date pattern of the text matches, the date of the record is
    the reference timestamp (the current time if there is none) as
    [strftime] writes it.  A record is returned for every text that is not
    blank as long as the analyzer does not raise and the relative-date
    arithmetic stays inside the calendar. *)
Theorem date_fallback text ts now_date now_record :
  (forall r,
     parse_sms_spacy nlp text ts now_date now_record = Parsed r ->
     no_date_pattern text ->
     Txn.date r = strftime_ymd (or_now ts now_date))
  /\ (forallb isspace text = false ->
      (forall s, exists doc, nlp s = Ok doc) ->
      in_calendar (or_now ts now_date) ->
      exists r, parse_sms_spacy nlp text ts now_date now_record = Parsed r).
Proof.
  split.
  - intros r H Hno. apply parse_Parsed in H as [_ H].
    apply parse_body_inv in H as (_ & _ & Hd & _).
    rewrite (extract_date_fallback _ ts now_date Hno) in Hd.
    injection Hd as <-. reflexivity.
  - intros Hblank Hnlp Hcal.
    assert (Hnb : is_blank text = false).
    { destruct (is_blank text) eqn:Hb; [|reflexivity].
      apply is_blank_iff in Hb. rewrite Hb in Hblank. discriminate. }
    unfold parse_sms_spacy. rewrite Hnb.
    destruct (parse_body nlp text ts now_date now_record) as [r|e] eqn:Hb.
    + exists r. reflexivity.
    + exfalso. destruct (parse_body_raises nlp _ _ _ _ _ Hb) as [H|[H|H]].
      * destruct (Hnlp (lower text)) as [doc Hdoc]. rewrite Hdoc in H.
        discriminate.
      * destruct (Hnlp text) as [doc Hdoc]. rewrite Hdoc in H. discriminate.
      * subst e. unfold parse_body in Hb.
        destruct (detect_category nlp text)
          as [[[category subcategory] confidence]|e1] eqn:Hc; cbn [bind] in Hb.
        2:{ apply detect_category_raises in Hc.
            destruct (Hnlp (lower text)) as [doc Hdoc]. rewrite Hdoc in Hc.
            discriminate. }
        match type of Hb with
        | bind ?x _ = _ =>
            destruct x as [[[amount merchant] reference]|e1] eqn:Hx
        end; cbn [bind] in Hb.
        2:{ destruct (negb _); [|discriminate].
            destruct (extract_amount nlp text) as [a|e2] eqn:Ha;
              cbn [bind] in Hx.
            - destruct (extract_merchant nlp text category subcategory)
                as [m|e3] eqn:Hm; cbn [bind] in Hx; [discriminate|].
              apply extract_merchant_raises in Hm.
              destruct (Hnlp text) as [doc Hdoc]. rewrite Hdoc in Hm.
              discriminate.
            - apply extract_amount_raises in Ha.
              destruct (Hnlp text) as [doc Hdoc]. rewrite Hdoc in Ha.
              discriminate. }
        destruct (extract_date_total text ts now_date Hcal) as [d Hd].
        rewrite Hd in Hb. cbn [bind] in Hb.
        destruct (extract_balance_total text) as [b Hbal].
        rewrite Hbal in Hb. discriminate.
Qed.

End Dates.

(** ** Determinism *)

Section Determinism.
Import PyStr PyDate.

Variable nlp : string -> result Doc.

(** C10. Two calls of [parse_sms_spacy] on the same text and the same
    supplied timestamp, whatever the clock shows during each, both raise
    with the same message or both return, and then the two records agree
    on every key but "timestamp". *)
Theorem parse_deterministic text t now_date now_record now_date' now_record' :
  match parse_sms_spacy nlp text (Some t) now_date now_record,
        parse_sms_spacy nlp text (Some t) now_date' now_record' with
  | Parsed r, Parsed r' => same_but_timestamp r r'
  | SMSParseError msg, SMSParseError msg' => msg = msg'
  | _, _ => False
  end.
Proof.
  unfold parse_sms_spacy. destruct (is_blank text); [reflexivity|].
  unfold parse_body. rewrite (extract_date_clock text t now_date' now_date).
  destruct (detect_category nlp text) as [[[category subcategory] confidence]|e];
    cbn [bind]; [|reflexivity].
  match goal with
  | |- context [bind ?x _] =>
      destruct x as [[[amount merchant] reference]|e]
  end; cbn [bind]; [|reflexivity].
  destruct (extract_date text (Some t) now_date) as [d|e]; cbn [bind];
    [|reflexivity].
  destruct (extract_balance text) as [b|e]; cbn [bind]; [|reflexivity].
  unfold same_but_timestamp. cbn. repeat split; reflexivity.
Qed.

End Determinism.

(** ** The balance alert *)

Section BalanceAlert.
Import PyStr PyDate.

Variable nlp : string -> result Doc.

Lemma balance_alert_no_indicator :
  is_some (Re.search Patterns.transaction_indicators (lower balance_alert)) = false.
Proof. vm_compute. reflexivity. Qed.

(** "rs" is followed by digits within 30 characters. *)
Lemma balance_alert_amount_follows :
  existsb (amount_follows (lower balance_alert)) amount_indicators = true.
Proof. vm_compute. reflexivity. Qed.

Lemma balance_alert_transactional t :
  is_transactional_message nlp balance_alert = Ok t -> t = true.
Proof.
  unfold is_transactional_message. rewrite balance_alert_no_indicator.
  destruct (nlp (lower balance_alert)) as [doc|e]; cbn [bind]; [|discriminate].
  destruct (existsb is_transaction_verb (tokens doc)).
  - intros H. injection H as <-. reflexivity.
  - rewrite balance_alert_amount_follows. intros H. injection H as <-.
    reflexivity.
Qed.

Lemma balance_alert_classified :
  classify_transactional (normalize balance_alert)
  = Ok ("debit", "general", c070).
Proof. vm_compute. reflexivity. Qed.

(** The alert counts as transactional, and no keyword of a category is in it. *)
Lemma balance_alert_category c :
  detect_category nlp balance_alert = Ok c -> c = ("debit", "general", c070).
Proof.
  unfold detect_category.
  destruct (is_transactional_message nlp balance_alert) as [t|e] eqn:Ht;
    cbn [bind]; [|discriminate].
  apply balance_alert_transactional in Ht as ->. cbn [negb].
  rewrite balance_alert_classified. intros H. injection H as <-. reflexivity.
Qed.

Lemma balance_alert_balance :
  exists b, extract_balance balance_alert = Ok (Some b) /\ currency b = "INR".
Proof. eexists. split; vm_compute; reflexivity. Qed.

(** C1, as the code has it.  Every record that [parse_sms_spacy] returns for
    the balance alert has category "debit", subcategory "general" and
    confidence 0.70, no "info_type" key, and a balance that is not null. *)
Theorem balance_alert_is_debit ts now_date now_record r :
  parse_sms_spacy nlp balance_alert ts now_date now_record = Parsed r ->
  Txn.category r = "debit" /\ Txn.subcategory r = "general"
  /\ Txn.confidence r = c070 /\ Txn.info_type r = None
  /\ Txn.balance r <> None.
Proof.
  intros H. apply parse_Parsed in H as [_ H].
  apply parse_body_inv in H as (Hc & _ & _ & Hb & _ & Hi).
  apply balance_alert_category in Hc. injection Hc as Hcat Hsub Hconf.
  repeat split; try assumption.
  - apply Hi. rewrite Hcat. reflexivity.
  - destruct balance_alert_balance as (b & Hbal & _). rewrite Hbal in Hb.
    injection Hb as <-. discriminate.
Qed.

End BalanceAlert.

(** With the word analyzer the alert is parsed, as a debit. *)
Lemma balance_alert_is_debit_witness :
  exists r,
    parse_sms_spacy words_nlp balance_alert None
                    noon_10_june_2025 morning_2_jan_2026 = Parsed r
    /\ Txn.category r = "debit" /\ Txn.subcategory r = "general"
    /\ Txn.confidence r = c070 /\ Txn.info_type r = None
    /\ Txn.balance r <> None.
Proof.
  eexists. split; [vm_compute; reflexivity|].
  apply (balance_alert_is_debit words_nlp None noon_10_june_2025
           morning_2_jan_2026).
  vm_compute. reflexivity.
Defined.

(** C1, as it is stated, fails: no analyzer, timestamp or clock makes
    [parse_sms_spacy] return for the balance alert a record of category
    "informational" with info_type "balance_update", a null amount and the
    balance 45000. *)
Lemma balance_alert_not_informational :
  ~ exists nlp ts now_date now_record r,
      parse_sms_spacy nlp balance_alert ts now_date now_record = Parsed r
      /\ Txn.category r = "informational"
      /\ Txn.info_type r = Some "balance_update"
      /\ Txn.amount r = None
      /\ option_map value (Txn.balance r) = Some (PyFloat.lit "45000").
Proof.
  intros (nlp & ts & now_date & now_record & r & H & Hcat & _).
  apply parse_Parsed in H as [_ H].
  apply parse_body_inv in H as (Hc & _).
  apply balance_alert_category in Hc. injection Hc as Hdebit _ _.
  rewrite Hdebit in Hcat. discriminate Hcat.
Qed.

(** ** The account-number guard *)

Section AccountGuard.
Import PyStr.

Lemma account_message_scan :
  amount_by_indicator account_message (lower account_message) = Ok None.
Proof. vm_compute. reflexivity. Qed.

Lemma account_message_prefix :
  amount_by_prefix (lower account_message) = Ok None.
Proof. vm_compute. reflexivity. Qed.

(** C7, where the code breaks it.  For the account message no pattern of
    [extract_amount] reads 5000.  After "rs" the scan reads 500, all that
    the first alternative [\d{1,3}] takes, and drops it because a digit
    follows; after "debited" it reads 607 and drops it as an account
    number; the currency-prefixed pattern fails at its [\b].  The amount is
    then what the analyzer's entities and tokens give: nothing with the word
    analyzer, and 6072 when the digits after the X are a MONEY entity, a
    stage without an account-number guard.  The token fallback tests the
    token before, not the character before: a number after a separate "#"
    token is returned. *)
Theorem account_amount_missed :
  (let amount_pattern := "(\d{1,3}(?:,\d{3})*(?:\.\d{1,2})?|\d+\.\d{1,2}|\d+)" in
   find "rs" (lower account_message) + len "rs" = 2
   /\ option_map Re.group0
        (Re.search (Re.compile amount_pattern) (slice account_message 2 32))
      = Some "500"
   /\ find "debited" (lower account_message) + len "debited" = 15
   /\ option_map Re.group0
        (Re.search (Re.compile amount_pattern) (slice account_message 15 45))
      = Some "607")
  /\ collect_amounts account_message (lower account_message)
                     transaction_indicators = Ok []
  /\ amount_by_prefix (lower account_message) = Ok None
  /\ (forall nlp,
        extract_amount nlp account_message
        = or_else (doc <- nlp account_message ;;
                   amount_by_entity (lower account_message) (ents doc))
                  (doc <- nlp account_message ;;
                   amount_by_token None (tokens doc)))
  /\ extract_amount words_nlp account_message = Ok None
  /\ (exists r,
        parse_sms_spacy words_nlp account_message None
                        noon_10_june_2025 morning_2_jan_2026 = Parsed r
        /\ Txn.amount r = None)
  /\ (exists m,
        extract_amount (fun _ => Ok entity_doc) account_message = Ok (Some m)
        /\ value m = PyFloat.lit "6072")
  /\ (exists m,
        extract_amount (fun _ => Ok hash_doc) hash_message = Ok (Some m)
        /\ value m = PyFloat.lit "6072"
        /\ item hash_message 5 = Some "#"%char).
Proof.
  split; [repeat split; vm_compute; reflexivity|].
  split; [vm_compute; reflexivity|].
  split; [exact account_message_prefix|].
  split.
  { intros nlp. unfold extract_amount. cbv zeta.
    rewrite account_message_scan, or_else_None.
    rewrite account_message_prefix, or_else_None. reflexivity. }
  split; [vm_compute; reflexivity|].
  split; [eexists; split; vm_compute; reflexivity|].
  split; eexists; repeat split; vm_compute; reflexivity.
Qed.

End AccountGuard.


(** ** Balances *)

Section Balances.
Import PyStr.

Lemma balance_groups :
  Re.groups_ok (Re.p_icase Patterns.balance) balance_chars
               (Re.p_re Patterns.balance) = true.
Proof. vm_compute. reflexivity. Qed.

(** The amount text of a balance match, its commas removed, is made of
    digits and points. *)
Lemma balance_amount_numeric m txt :
  ReFacts.match_ok balance_chars (fun _ => true) Patterns.balance
                   (Re.m_string m) m ->
  Re.group m 2 = Some txt ->
  forallb FloatFacts.numeric (replace "," "" txt) = true.
Proof.
  intros [_ _ _ Hg _] Htxt. specialize (Hg 2%nat txt Htxt).
  unfold replace. apply StrFacts.forallb_replace_comma; [lia|].
  exact Hg.
Qed.

Lemma collect_balances_nonneg ms :
  Forall (fun m => ReFacts.match_ok balance_chars (fun _ => true)
                     Patterns.balance (Re.m_string m) m) ms ->
  forall l, collect_balances ms = Ok l ->
  Forall (fun b => FloatFacts.nonneg (fst (fst b)) = true) l.
Proof.
  induction 1 as [|m tl Hm _ IH]; intros l; cbn [collect_balances].
  - intros H. injection H as <-. constructor.
  - unfold group_str.
    destruct (Re.group m 2) as [txt|] eqn:Hg; cbn [bind]; [|discriminate].
    destruct (collect_balances tl) as [rest|e]; cbn [bind]; [|discriminate].
    specialize (IH rest eq_refl).
    destruct (PyFloat.of_string _) as [amount|] eqn:Ha.
    + intros H. injection H as <-. constructor; [|exact IH]. cbn [fst].
      eapply FloatFacts.of_string_nonneg; [|exact Ha].
      eapply balance_amount_numeric; eassumption.
    + intros H. injection H as <-. exact IH.
Qed.

(** C8, as the code has it.  A balance that [extract_balance] returns has a
    value that is not negative (0 <= value); no other range is applied
    to it. *)
Theorem balance_not_negative text b :
  extract_balance text = Ok (Some b) ->
  PyFloat.leb (PyFloat.of_Z 0) (value b) = true.
Proof.
  unfold extract_balance.
  destruct (collect_balances (Re.finditer Patterns.balance text))
    as [balances|e] eqn:Hc; cbn [bind]; [|discriminate].
  destruct (sort_by snd balances) as [|[[amount cur] pos] tl] eqn:Hs;
    [discriminate|].
  intros H. injection H as <-. cbn [value money].
  apply FloatFacts.nonneg_leb.
  apply sort_by_head in Hs.
  assert (Hall : Forall (fun b => FloatFacts.nonneg (fst (fst b)) = true)
                        balances).
  { eapply collect_balances_nonneg; [|exact Hc].
    pose proof (ReFacts.finditer_ok (fun _ => true) balance_chars
                  Patterns.balance text (ReFacts.chars_ok_top _ _)
                  balance_groups) as Hok.
    eapply Forall_impl; [|exact Hok].
    intros m Hm. destruct Hm as [H1 H2 H3 H4 H5].
    rewrite H1. constructor; assumption. }
  rewrite Forall_forall in Hall. apply (Hall _ Hs).
Qed.

End Balances.

Lemma balance_not_negative_witness :
  exists b,
    extract_balance large_balance_message = Ok (Some b)
    /\ PyFloat.leb (PyFloat.of_Z 0) (value b) = true.
Proof.
  eexists. split; [vm_compute; reflexivity|].
  apply (balance_not_negative large_balance_message).
  vm_compute. reflexivity.
Defined.

(** C8, as it is stated, fails: a balance of zero and a balance of
    twenty-five million are both returned, below and above the range. *)
Lemma balance_out_of_range :
  (exists b,
     extract_balance zero_balance_message = Ok (Some b)
     /\ value b = PyFloat.lit "0"
     /\ PyFloat.leb (PyFloat.of_Z 1) (value b) = false)
  /\ (exists b,
        extract_balance large_balance_message = Ok (Some b)
        /\ value b = PyFloat.lit "25000000"
        /\ PyFloat.leb (value b) (PyFloat.of_Z 10000000) = false).
Proof.
  split; eexists; repeat split; vm_compute; reflexivity.
Qed.

(** ** The theorems at sample inputs *)

Lemma amount_in_range_witness :
  exists m,
    extract_amount words_nlp payment_message = Ok (Some m)
    /\ in_range (value m)
    /\ exists r,
         parse_sms_spacy words_nlp payment_message None
                         noon_10_june_2025 morning_2_jan_2026 = Parsed r
         /\ Txn.amount r = Some (value m).
Proof.
  eexists. split; [vm_compute; reflexivity|]. split.
  - apply (proj1 (amount_in_range words_nlp payment_message)).
    vm_compute. reflexivity.
  - eexists. split; vm_compute; reflexivity.
Defined.

Lemma informational_fields_null_witness :
  exists r,
    parse_sms_spacy words_nlp low_balance_message None
                    noon_10_june_2025 morning_2_jan_2026 = Parsed r
    /\ Txn.category r = "informational"
    /\ Txn.amount r = None /\ Txn.currency r = None
    /\ Txn.formatted_amount r = None /\ Txn.merchant r = None
    /\ Txn.reference r = None.
Proof.
  eexists. split; [vm_compute; reflexivity|]. split; [reflexivity|].
  apply (informational_fields_null words_nlp low_balance_message None
           noon_10_june_2025 morning_2_jan_2026);
    vm_compute; reflexivity.
Defined.

Lemma payment_message_no_date : no_date_pattern payment_message.
Proof.
  unfold no_date_pattern. split; [|split; [|split; [|split]]].
  - intros rel_date offset Hin. cbn in Hin.
    repeat (destruct Hin as [Hin|Hin];
            [injection Hin as <- <-; vm_compute; reflexivity|]).
    destruct Hin.
  - vm_compute. reflexivity.
  - vm_compute. reflexivity.
  - vm_compute. reflexivity.
  - intros indicator Hin. cbn in Hin.
    repeat (destruct Hin as [<-|Hin]; [vm_compute; reflexivity|]).
    destruct Hin.
Defined.

Lemma noon_in_calendar : in_calendar noon_10_june_2025.
Proof.
  intros rel_date offset Hin. cbn in Hin.
  repeat (destruct Hin as [Hin|Hin];
          [injection Hin as <- <-; vm_compute; discriminate|]).
  destruct Hin.
Defined.

Lemma date_fallback_witness :
  exists r,
    parse_sms_spacy words_nlp payment_message None
                    noon_10_june_2025 morning_2_jan_2026 = Parsed r
    /\ Txn.date r = "2025-06-10".
Proof.
  destruct (proj2 (date_fallback words_nlp payment_message None
                     noon_10_june_2025 morning_2_jan_2026))
    as [r Hr].
  - vm_compute. reflexivity.
  - intros s. eexists. reflexivity.
  - exact noon_in_calendar.
  - exists r. split; [exact Hr|].
    rewrite (proj1 (date_fallback words_nlp payment_message None
                      noon_10_june_2025 morning_2_jan_2026)
                   r Hr payment_message_no_date).
    vm_compute. reflexivity.
Defined.

(** ** Substrings *)

#[local] Transparent PyStr.contains PyStr.find.

Module SubstringFacts.
Import PyStr.

(** [sub in s] holds as soon as [sub] is read at some position of [s]. *)
Lemma contains_at sub s n :
  substring n (String.length sub) s = sub -> contains sub s = true.
Proof.
  intros H. unfold contains.
  destruct (index 0 sub s) as [m|] eqn:Hi; [reflexivity|].
  destruct sub as [|c sub'].
  - destruct s; cbn in Hi; discriminate.
  - exfalso.
    apply (index_correct3 0 n (String c sub') s Hi); [discriminate | lia | exact H].
Qed.

Lemma contains_inv sub s :
  contains sub s = true -> exists n, substring n (String.length sub) s = sub.
Proof.
  unfold contains. destruct (index 0 sub s) as [m|] eqn:Hi; [|discriminate].
  intros _. exists m. apply (index_correct1 0 m sub s Hi).
Qed.

Lemma substring_substring s :
  forall a n b k, (b + k <= n)%nat ->
    substring b k (substring a n s) = substring (a + b) k s.
Proof.
  induction s as [|c s IH]; intros a n b k H.
  - destruct a, n, b, k; reflexivity.
  - destruct a as [|a].
    + destruct n as [|n].
      * assert (b = 0%nat) by lia. assert (k = 0%nat) by lia. subst.
        reflexivity.
      * cbn [substring Nat.add]. destruct b as [|b].
        -- destruct k as [|k]; [reflexivity|]. cbn [substring]. f_equal.
           apply (IH 0%nat n 0%nat k). lia.
        -- cbn [substring]. apply (IH 0%nat n b k). lia.
    + cbn [substring Nat.add]. apply IH. exact H.
Qed.

(** A word that contains [inner] is found only in texts that contain
    [inner]. *)
Lemma contains_trans inner word s :
  contains inner word = true -> contains word s = true ->
  contains inner s = true.
Proof.
  intros H1 H2.
  destruct inner as [|c inner'];
    [apply (contains_at "" s 0); destruct s; reflexivity|].
  apply contains_inv in H1 as [b Hb].
  apply contains_inv in H2 as [a Ha].
  apply (contains_at _ s (a + b)).
  rewrite <- (substring_substring s a (String.length word)).
  - rewrite Ha. exact Hb.
  - pose proof (StrFacts.length_substring word b
                  (String.length (String c inner'))) as HL.
    rewrite Hb in HL. cbn [String.length] in *. lia.
Qed.

(** Every character of a substring is a character of the string. *)
Lemma forallb_substring_of P s :
  forall a n, forallb P s = true -> forallb P (substring a n s) = true.
Proof.
  induction s as [|c s IH]; intros a n H.
  - destruct a, n; reflexivity.
  - cbn [forallb] in H. apply andb_true_iff in H as [Hc Hs].
    destruct a as [|a].
    + destruct n as [|n]; [reflexivity|]. cbn [substring forallb].
      rewrite Hc. cbn. apply IH. exact Hs.
    + cbn [substring]. apply IH. exact Hs.
Qed.

Lemma forallb_contains P sub s :
  forallb P s = true -> contains sub s = true -> forallb P sub = true.
Proof.
  intros Hs Hc. apply contains_inv in Hc as [n Hn]. rewrite <- Hn.
  apply forallb_substring_of. exact Hs.
Qed.

End SubstringFacts.

#[local] Opaque PyStr.contains PyStr.find.

(** ** Patterns that begin with a literal *)

#[local] Transparent Re.search.

Module LiteralFacts.
Import PyStr Re.

(** The pattern begins with the characters of [w], each written as
    itself. *)
Fixpoint starts_with (w : list ascii) (r : regex) : bool :=
  match w, r with
  | [], _ => true
  | a :: w', Seq (Set_ false [CRange lo hi]) r' =>
      (lo =? a)%char && (hi =? a)%char && starts_with w' r'
  | _, _ => false
  end.

Lemma in_range_same a c : in_range a a c = true -> c = a.
Proof.
  unfold in_range. intros H. apply andb_true_iff in H as [H1 H2].
  apply Z.leb_le in H1, H2.
  rewrite (StrFacts.code_inj c (code a)) by lia.
  unfold chr, code. rewrite N2Z.id, ascii_N_embedding. reflexivity.
Qed.

Lemma run_starts_with {R : Type} (w : list ascii) :
  forall r (k : @cont R) st c x,
    starts_with w r = true -> run false r k st c = Some x ->
    exists rest, c_rest st = (w ++ rest)%list.
Proof.
  induction w as [|a w IH]; intros r k st c x Hw H.
  - exists (c_rest st). reflexivity.
  - destruct r as [| | | |r1 r2| | | | | |]; try discriminate Hw.
    destruct r1 as [| | |negated items| | | | | | |]; try discriminate Hw.
    destruct negated; [discriminate Hw|].
    destruct items as [|[lo hi| | |] [|it items]]; try discriminate Hw.
    cbn [starts_with] in Hw.
    apply andb_true_iff in Hw as [Hw Hr]. apply andb_true_iff in Hw as [Hlo Hhi].
    apply Ascii.eqb_eq in Hlo, Hhi. subst lo hi.
    cbn [run] in H.
    destruct (c_rest st) as [|a' tl] eqn:Hrest; [discriminate|].
    destruct (set_mem false false [CRange a a] a') eqn:Hm; [|discriminate].
    unfold set_mem in Hm. cbn [existsb item_mem xorb orb] in Hm.
    rewrite orb_false_r in Hm. apply in_range_same in Hm. subst a'.
    destruct (IH _ _ _ _ _ Hr H) as [rest Hrest']. cbn [advance c_rest] in Hrest'.
    exists rest. cbn [app]. rewrite Hrest'. reflexivity.
Qed.

(** A successful scan found its match at some cursor of the text. *)
Lemma scan_here p s rest :
  forall pos prev m pre,
    to_list s = (pre ++ rest)%list -> length pre = pos ->
    scan p s pos prev rest = Some m ->
    exists pre' rest' prev',
      to_list s = (pre' ++ rest')%list
      /\ match_here p s {| c_pos := length pre'; c_prev := prev';
                           c_rest := rest' |} = Some m.
Proof.
  induction rest as [|a tl IH]; intros pos prev m pre Hl Hlen H; cbn [scan] in H.
  - destruct (match_here p s _) as [m'|] eqn:Hm; [|discriminate].
    injection H as ->. exists pre, [], prev. subst pos. auto.
  - destruct (match_here p s _) as [m'|] eqn:Hm.
    + injection H as ->. exists pre, (a :: tl), prev. subst pos. auto.
    + apply (IH _ _ _ (pre ++ [a])%list) in H; [exact H | |].
      * rewrite <- app_assoc. exact Hl.
      * rewrite length_app. cbn. lia.
Qed.

Lemma substring_at (w : string) :
  forall pre s post,
    to_list s = (pre ++ to_list w ++ post)%list ->
    substring (length pre) (String.length w) s = w.
Proof.
  assert (H0 : forall w s post, to_list s = (to_list w ++ post)%list ->
                 substring 0 (String.length w) s = w).
  { clear w. induction w as [|c w IH]; intros s post H.
    - destruct s; reflexivity.
    - destruct s as [|c' s]; [discriminate|]. cbn in H. injection H as -> H.
      cbn [String.length substring]. f_equal. eapply IH. exact H. }
  induction pre as [|a pre IH]; intros s post H.
  - eapply H0. exact H.
  - destruct s as [|c' s]; [discriminate|]. cbn in H. injection H as -> H.
    cbn [length substring]. eapply IH. exact H.
Qed.

(** A pattern that begins with the word [w] matches only texts that
    contain [w]. *)
Theorem search_literal p s m w :
  p_icase p = false -> starts_with (to_list w) (p_re p) = true ->
  search p s = Some m -> contains w s = true.
Proof.
  intros Hi Hw H. unfold search in H.
  apply (scan_here _ _ _ _ _ _ [] eq_refl eq_refl) in H
    as (pre & rest & prev & Hl & Hm).
  unfold match_here in Hm. rewrite Hi in Hm.
  apply (run_starts_with _ _ _ _ _ _ Hw) in Hm as [post Hpost].
  cbn [c_rest] in Hpost. rewrite Hpost in Hl.
  apply (SubstringFacts.contains_at w s (length pre)).
  eapply substring_at. exact Hl.
Qed.

End LiteralFacts.

#[local] Opaque Re.search.

(** ** What the classifier can return *)

Section ClassifierRange.
Import PyStr.

Variable nlp : string -> result Doc.

Lemma find_provider_key d text_lower provider :
  find_provider d text_lower = Some provider -> In provider (List.map fst d).
Proof.
  induction d as [|[p aliases] tl IH]; cbn [find_provider]; [discriminate|].
  destruct (existsb _ aliases).
  - intros H. injection H as <-. left. reflexivity.
  - intros H. right. apply IH. exact H.
Qed.

Lemma scan_keywords_returns category cfg text_lower kws c :
  scan_keywords category cfg text_lower kws = Ok (Some c) ->
  any_in kws text_lower = true /\ on_keyword category cfg text_lower = Ok c.
Proof.
  induction kws as [|kw tl IH]; cbn [scan_keywords any_in existsb];
    [discriminate|].
  destruct (contains kw text_lower).
  - destruct (on_keyword category cfg text_lower) as [c'|e]; cbn [bind];
      [|discriminate].
    intros H. injection H as <-. split; reflexivity.
  - intros H. apply IH in H. exact H.
Qed.

Lemma any_in_false kws text_lower kw :
  any_in kws text_lower = false -> In kw kws -> contains kw text_lower = false.
Proof.
  unfold any_in. intros H Hin.
  destruct (contains kw text_lower) eqn:Hc; [|reflexivity].
  assert (Hex : existsb (fun x => contains x text_lower) kws = true)
    by (apply existsb_exists; eauto).
  rewrite Hex in H. discriminate H.
Qed.

Definition basic (category : string) : bool :=
  mem category ["credit"; "debit"; "informational"].

(** One round of the specialised scan. *)
Lemma scan_categories_round category cfg kws tl text_lower c :
  basic category = false -> keywords cfg = Some kws ->
  scan_categories ((category, cfg) :: tl) text_lower = Ok (Some c) ->
  (any_in kws text_lower = true /\ on_keyword category cfg text_lower = Ok c)
  \/ (any_in kws text_lower = false /\ scan_categories tl text_lower = Ok (Some c)).
Proof.
  unfold basic. intros Hb Hk. cbn [scan_categories]. rewrite Hb, Hk.
  intros H. apply or_else_returns in H as [H|[Hf H]].
  - left. eapply scan_keywords_returns. exact H.
  - right. split; [|exact H]. eapply scan_keywords_falls. exact Hf.
Qed.

Lemma scan_categories_skip category cfg tl text_lower :
  basic category = true ->
  scan_categories ((category, cfg) :: tl) text_lower
  = scan_categories tl text_lower.
Proof. unfold basic. intros H. cbn [scan_categories]. rewrite H. reflexivity. Qed.

(** A scan that falls through found no keyword of any specialised
    category. *)
Lemma scan_categories_falls cats text_lower :
  scan_categories cats text_lower = Ok None ->
  forall category cfg kws,
    In (category, cfg) cats -> basic category = false ->
    keywords cfg = Some kws -> any_in kws text_lower = false.
Proof.
  unfold basic.
  induction cats as [|[cat0 cfg0] tl IH]; intros H category cfg kws Hin Hb Hk;
    [destruct Hin|].
  cbn [scan_categories] in H.
  destruct Hin as [Heq|Hin].
  - injection Heq as -> ->. rewrite Hb, Hk in H.
    apply or_else_falls in H as [H _]. eapply scan_keywords_falls. exact H.
  - destruct (mem cat0 _); [eapply IH; eassumption|].
    destruct (keywords cfg0) as [kws0|]; [|eapply IH; eassumption].
    apply or_else_falls in H as [_ H]. eapply IH; eassumption.
Qed.

(** Without context phrases a keyword decides. *)
Lemma on_keyword_plain category cfg text_lower c :
  context_phrases cfg = None ->
  on_keyword category cfg text_lower = Ok c -> c = (category, "", c085).
Proof.
  unfold on_keyword. intros ->. intros H. injection H as <-. reflexivity.
Qed.

Lemma on_keyword_context category cfg phrases text_lower c :
  context_phrases cfg = Some phrases -> (category =? "loan")%string = false ->
  on_keyword category cfg text_lower = Ok c ->
  (any_search phrases text_lower = true /\ c = (category, "", c090))
  \/ (any_search phrases text_lower = false /\ c = (category, "", c085)).
Proof.
  unfold on_keyword. intros -> ->.
  destruct (any_search phrases text_lower); intros H; injection H as <-; auto.
Qed.

Lemma on_keyword_loan text_lower c :
  on_keyword "loan" loan_config text_lower = Ok c ->
  (exists provider, In provider loan_providers /\ c = ("loan", provider, c095))
  \/ c = ("loan", "", c090) \/ c = ("loan", "", c085).
Proof.
  unfold on_keyword. cbn [context_phrases providers loan_config].
  destruct (any_search _ text_lower).
  - cbn [String.eqb Ascii.eqb Bool.eqb items bind].
    destruct (find_provider _ text_lower) as [provider|] eqn:Hp;
      intros H; injection H as <-; [|auto].
    left. exists provider. split; [|reflexivity].
    apply find_provider_key in Hp. exact Hp.
  - intros H. injection H as <-. auto.
Qed.

(** The context phrases of the instalment category begin with "emi". *)
Lemma emi_phrases_need_emi phrases text_lower :
  context_phrases emi_config = Some phrases ->
  any_search phrases text_lower = true -> contains "emi" text_lower = true.
Proof.
  cbn [context_phrases emi_config]. intros H. injection H as <-.
  unfold any_search. cbn [existsb]. intros H.
  repeat (apply orb_true_iff in H as [H|H]);
    try discriminate H;
    match type of H with
    | is_some (Re.search ?p _) = true =>
        destruct (Re.search p text_lower) as [m|] eqn:Hs; [|discriminate H];
        apply (LiteralFacts.search_literal p text_lower m "emi");
        [vm_compute; reflexivity | vm_compute; reflexivity | exact Hs]
    end.
Qed.

(** What the specialised scan can return. *)
Definition specialised : list classification :=
  (List.map (fun provider => ("loan", provider, c095)) loan_providers
   ++ [("loan", "", c090); ("loan", "", c085);
       ("investment", "", c090); ("investment", "", c085);
       ("insurance", "", c085);
       ("emi", "", c085);
       ("recharge", "", c085);
       ("atm", "", c085);
       ("cheque", "", c085)])%list.

Ltac in_list := cbn; repeat first [left; reflexivity | right].

Lemma scan_categories_range text_lower c :
  scan_categories TRANSACTION_CATEGORIES text_lower = Ok (Some c) ->
  In c specialised.
Proof.
  unfold TRANSACTION_CATEGORIES. intros H.
  (* loan *)
  apply (scan_categories_round "loan" loan_config _ _ _ _ eq_refl eq_refl) in H
    as [[_ H]|[Hloan H]].
  { apply on_keyword_loan in H as [(provider & Hin & ->)|[->| ->]];
      [|in_list..].
    unfold specialised. apply in_or_app. left.
    apply (in_map (fun provider => ("loan", provider, c095))). exact Hin. }
  (* credit and debit are passed over *)
  rewrite (scan_categories_skip "credit" _ _ _ eq_refl) in H.
  rewrite (scan_categories_skip "debit" _ _ _ eq_refl) in H.
  (* investment *)
  apply (scan_categories_round "investment" investment_config _ _ _ _ eq_refl eq_refl) in H
    as [[_ H]|[_ H]].
  { apply (on_keyword_context "investment" investment_config _ _ _ eq_refl eq_refl) in H
      as [[_ ->]|[_ ->]]; in_list. }
  (* insurance *)
  apply (scan_categories_round "insurance" insurance_config _ _ _ _ eq_refl eq_refl) in H
    as [[_ H]|[_ H]].
  { apply (on_keyword_plain "insurance" insurance_config _ _ eq_refl) in H as ->. in_list. }
  (* emi *)
  apply (scan_categories_round "emi" emi_config _ _ _ _ eq_refl eq_refl) in H
    as [[_ H]|[_ H]].
  { apply (on_keyword_context "emi" emi_config _ _ _ eq_refl eq_refl) in H
      as [[Hctx _]|[_ ->]]; [|in_list].
    exfalso. apply (emi_phrases_need_emi _ _ eq_refl) in Hctx.
    rewrite (any_in_false _ _ "emi" Hloan) in Hctx; [discriminate|].
    cbn. auto. }
  (* recharge *)
  apply (scan_categories_round "recharge" recharge_config _ _ _ _ eq_refl eq_refl) in H
    as [[_ H]|[_ H]].
  { apply (on_keyword_plain "recharge" recharge_config _ _ eq_refl) in H as ->. in_list. }
  (* atm *)
  apply (scan_categories_round "atm" atm_config _ _ _ _ eq_refl eq_refl) in H
    as [[_ H]|[_ H]].
  { apply (on_keyword_plain "atm" atm_config _ _ eq_refl) in H as ->. in_list. }
  (* cheque *)
  apply (scan_categories_round "cheque" cheque_config _ _ _ _ eq_refl eq_refl) in H
    as [[_ H]|[_ H]].
  { apply (on_keyword_plain "cheque" cheque_config _ _ eq_refl) in H as ->. in_list. }
  rewrite (scan_categories_skip "informational" _ _ _ eq_refl) in H.
  discriminate H.
Qed.

(** After a scan that fell through the text has neither "emi" nor "atm". *)
Lemma scan_falls_emi_atm text_lower :
  scan_categories TRANSACTION_CATEGORIES text_lower = Ok None ->
  contains "emi" text_lower = false /\ contains "atm" text_lower = false.
Proof.
  intros H. split.
  - apply (any_in_false
             ["loan"; "emi"; "equated monthly installment"; "repayment";
              "disbursement"; "borrow"; "lend"; "credit limit"; "credit line";
              "credit score"; "creditline"; "pre-approved"; "sanctioned";
              "borrow limit"; "loan a/c"; "loan account"]);
      [|cbn; auto].
    apply (scan_categories_falls _ _ H "loan" loan_config);
      [in_list | reflexivity | reflexivity].
  - apply (any_in_false
             ["atm"; "cash withdrawal"; "cash withdraw"; "withdrawn at atm";
              "atm transaction"; "atm withdrawal"]);
      [|cbn; auto].
    apply (scan_categories_falls _ _ H "atm" atm_config);
      [in_list | reflexivity | reflexivity].
Qed.

Lemma credit_scan_range text_lower c :
  contains "emi" text_lower = false ->
  basic_scan credit_keywords "credit" text_lower = Ok (Some c) ->
  c = ("credit", "", c080).
Proof.
  intros Hemi. unfold basic_scan.
  cbn [lookup TRANSACTION_CATEGORIES String.eqb Ascii.eqb Bool.eqb].
  cbn [keywords credit_config getitem bind].
  match goal with |- credit_keywords _ _ ?kws = _ -> _ => generalize kws end.
  intros kws. induction kws as [|kw tl IH]; cbn [credit_keywords];
    [discriminate|].
  destruct (contains kw text_lower); [|exact IH].
  cbn [exceptions credit_config getitem bind].
  destruct (negb (any_in _ text_lower)); [|exact IH].
  rewrite Hemi. cbn [andb]. intros H. injection H as <-. reflexivity.
Qed.

Lemma debit_scan_range text_lower c :
  contains "emi" text_lower = false -> contains "atm" text_lower = false ->
  basic_scan debit_keywords "debit" text_lower = Ok (Some c) ->
  In c [("debit", "upi", c080); ("debit", "pos", c080);
        ("debit", "general", c075)].
Proof.
  intros Hemi Hatm. unfold basic_scan.
  cbn [lookup TRANSACTION_CATEGORIES String.eqb Ascii.eqb Bool.eqb].
  cbn [keywords debit_config getitem bind].
  match goal with |- debit_keywords _ _ ?kws = _ -> _ => generalize kws end.
  intros kws. induction kws as [|kw tl IH]; cbn [debit_keywords];
    [discriminate|].
  destruct (contains kw text_lower); [|exact IH].
  cbn [exceptions debit_config getitem bind].
  destruct (negb (any_in _ text_lower)); [|exact IH].
  rewrite Hemi, Hatm.
  destruct (contains "upi" text_lower);
    [intros H; injection H as <-; in_list|].
  destruct (contains "pos" text_lower || contains "swipe" text_lower);
    intros H; injection H as <-; in_list.
Qed.

Lemma classify_transactional_range text_lower c :
  classify_transactional text_lower = Ok c ->
  In c classifications /\ fst (fst c) <> "informational".
Proof.
  unfold classify_transactional. intros H.
  assert (Hsub : forall x, In x specialised ->
            In x classifications /\ fst (fst x) <> "informational").
  { intros x Hx. split.
    - unfold classifications. right. unfold specialised in Hx.
      apply in_app_or in Hx as [Hx|Hx]; apply in_or_app; [left; exact Hx|].
      right. cbn in Hx |- *. intuition auto.
    - unfold specialised in Hx. apply in_app_or in Hx as [Hx|Hx].
      + apply in_map_iff in Hx as (p & <- & _). discriminate.
      + cbn in Hx. repeat (destruct Hx as [<-|Hx]; [discriminate|]).
        destruct Hx. }
  apply or_default_Ok in H as [H|[_ ->]].
  2:{ split; [unfold classifications; right; apply in_or_app; right; in_list
             | discriminate]. }
  apply or_else_returns in H as [H|[Hscan H]].
  { apply Hsub. eapply scan_categories_range. exact H. }
  rewrite (loan_recheck_dead _ Hscan), or_else_None in H.
  destruct (scan_falls_emi_atm _ Hscan) as [Hemi Hatm].
  apply or_else_returns in H as [H|[_ H]].
  - apply (credit_scan_range _ _ Hemi) in H as ->.
    split; [unfold classifications; right; apply in_or_app; right; in_list
           | discriminate].
  - apply (debit_scan_range _ _ Hemi Hatm) in H.
    split.
    + unfold classifications. right. apply in_or_app. right.
      cbn in H |- *. intuition auto.
    + cbn in H. repeat (destruct H as [<-|H]; [discriminate|]). destruct H.
Qed.


(** When a loan keyword is in the text the scan goes no further. *)
Lemma scan_keywords_hit category cfg text_lower kws :
  any_in kws text_lower = true ->
  scan_keywords category cfg text_lower kws
  = (r <- on_keyword category cfg text_lower ;; returns r).
Proof.
  induction kws as [|kw tl IH]; cbn [scan_keywords any_in existsb];
    [discriminate|].
  destruct (contains kw text_lower); [reflexivity|]. cbn [orb]. exact IH.
Qed.

Lemma detect_category_classified text c :
  detect_category nlp text = Ok c -> In c classifications.
Proof.
  unfold detect_category.
  destruct (is_transactional_message nlp text) as [t|e]; cbn [bind];
    [|discriminate].
  destruct t; cbn [negb].
  - intros H. apply classify_transactional_range in H as [H _]. exact H.
  - intros H. injection H as <-. left. reflexivity.
Qed.

(** X1. Whatever the text and the analyzer, [detect_category] returns one
    of the twenty-three classifications of [classifications]: the
    subcategory "generic" and the pairs emi/credit, emi/debit and debit/atm
    that the source also writes are never returned, nor is the instalment
    category returned with confidence 0.90. *)
Theorem detect_category_range text c :
  detect_category nlp text = Ok c -> In c classifications.
Proof. apply detect_category_classified. Qed.

(** X2. A message is classified informational exactly when
    [is_transactional_message] finds it not transactional; the keywords and
    exclusions listed under "informational" play no part. *)
Theorem informational_iff_not_transactional text category subcategory confidence :
  detect_category nlp text = Ok (category, subcategory, confidence) ->
  (category = "informational"
   <-> is_transactional_message nlp text = Ok false).
Proof.
  unfold detect_category.
  destruct (is_transactional_message nlp text) as [t|e]; cbn [bind];
    [|discriminate].
  destruct t; cbn [negb].
  - intros H. apply classify_transactional_range in H as [_ H]. cbn in H.
    split; [intros Hc; contradiction | discriminate].
  - intros H. injection H as <- _ _. split; reflexivity.
Qed.

Lemma loan_keyword_decides text kws kw :
  keywords loan_config = Some kws -> In kw kws ->
  is_transactional_message nlp text = Ok true ->
  contains kw (normalize text) = true ->
  exists subcategory confidence,
    detect_category nlp text = Ok ("loan", subcategory, confidence)
    /\ In (subcategory, confidence)
          (("", c090) :: ("", c085)
           :: List.map (fun provider => (provider, c095)) loan_providers).
Proof.
  intros Hk Hin Ht Hc. unfold detect_category. rewrite Ht. cbn [bind negb].
  unfold classify_transactional, TRANSACTION_CATEGORIES.
  rewrite (scan_categories_loan _ _ _ Hk).
  assert (Hany : any_in kws (normalize text) = true).
  { unfold any_in. apply existsb_exists. exists kw. split; assumption. }
  rewrite (scan_keywords_hit _ _ _ _ Hany).
  destruct (on_keyword "loan" loan_config (normalize text)) as [c|e] eqn:Hon.
  - cbn [bind]. unfold returns. rewrite !or_else_Some.
    unfold or_default. cbn [bind].
    apply on_keyword_loan in Hon as [(provider & Hp & ->)|[->| ->]].
    + exists provider, c095. split; [reflexivity|]. right. right.
      apply (in_map (fun provider => (provider, c095))). exact Hp.
    + exists "", c090. split; [reflexivity | left; reflexivity].
    + exists "", c085. split; [reflexivity | right; left; reflexivity].
  - exfalso.
    destruct (on_keyword_total "loan" loan_config (normalize text)) as [c Hc'].
    + intros _ l. discriminate.
    + rewrite Hc' in Hon. discriminate.
Qed.

(** X3. A transactional message whose normalised text contains a loan
    keyword ("loan", "emi", "repayment", ...) is classified as a loan,
    whatever other keywords it contains: with a provider and confidence
    0.95, or without one and confidence 0.90 or 0.85. *)
Theorem loan_keywords_first text kws kw :
  keywords loan_config = Some kws -> In kw kws ->
  is_transactional_message nlp text = Ok true ->
  contains kw (normalize text) = true ->
  exists subcategory confidence,
    detect_category nlp text = Ok ("loan", subcategory, confidence)
    /\ In (subcategory, confidence)
          (("", c090) :: ("", c085)
           :: List.map (fun provider => (provider, c095)) loan_providers).
Proof. apply loan_keyword_decides. Qed.

(** X14. Keywords are looked for as substrings, and the insurance keyword
    "premium" and every keyword of the instalment category but
    "installment" contain a loan keyword ("emi", or the keyword itself): a
    transactional message with one of them is classified as a loan, so that
    they never decide for their own category. *)
Theorem shadowed_keywords_are_loan text kw :
  In kw shadowed_keywords ->
  is_transactional_message nlp text = Ok true ->
  contains kw (normalize text) = true ->
  exists subcategory confidence,
    detect_category nlp text = Ok ("loan", subcategory, confidence).
Proof.
  intros Hin Ht Hc.
  assert (Hloan : exists kws loan_kw,
             keywords loan_config = Some kws /\ In loan_kw kws
             /\ contains loan_kw kw = true).
  { eexists. unfold shadowed_keywords in Hin. cbn [In] in Hin.
    destruct Hin as [<-|Hin];
      [exists "emi"; split; [reflexivity|];
       split; [cbn; auto | vm_compute; reflexivity]|].
    destruct Hin as [<-|Hin];
      [exists "emi"; split; [reflexivity|];
       split; [cbn; auto | vm_compute; reflexivity]|].
    destruct Hin as [<-|Hin];
      [exists "equated monthly installment"; split; [reflexivity|];
       split; [cbn; auto | vm_compute; reflexivity]|].
    repeat (destruct Hin as [<-|Hin];
            [exists "emi"; split; [reflexivity|];
             split; [cbn; auto | vm_compute; reflexivity]|]).
    destruct Hin. }
  destruct Hloan as (kws & loan_kw & Hk & Hkw & Hsub).
  pose proof (SubstringFacts.contains_trans _ _ _ Hsub Hc) as Hc'.
  destruct (loan_keyword_decides text kws loan_kw Hk Hkw Ht Hc')
    as (sub & conf & H & _).
  exists sub, conf. exact H.
Qed.

End ClassifierRange.

(** ** The record *)

Section Records.
Import PyStr PyDate.

Variable nlp : string -> result Doc.

(** Outside the informational category a merchant is always named. *)
Lemma extract_merchant_some text category subcategory m :
  (category =? "informational")%string = false ->
  extract_merchant nlp text category subcategory = Ok m ->
  exists name, m = Some name.
Proof.
  unfold extract_merchant. intros ->.
  destruct (_ && _); [intros H; injection H as <-; eauto|].
  destruct (category =? "recharge")%string.
  { destruct (providers_of "recharge"); cbn [bind]; [|discriminate].
    intros H. injection H as <-. eauto. }
  destruct (category =? "insurance")%string.
  { destruct (providers_of "insurance"); cbn [bind]; [|discriminate].
    intros H. injection H as <-. eauto. }
  destruct (category =? "investment")%string;
    [intros H; injection H as <-; eauto|].
  match goal with
  | |- bind ?x _ = _ -> _ => destruct x as [merchant|e]
  end; cbn [bind]; [|discriminate].
  intros H. injection H as <-. eauto.
Qed.

(** The keys that [parse_body] adds for some categories. *)
Lemma parse_body_keys text ts now_date now_record r :
  parse_body nlp text ts now_date now_record = Ok r ->
  Txn.loan_provider r
  = (if (Txn.category r =? "loan")%string
     then Some (if negb (Txn.subcategory r =? "generic")%string
                then Some (u (Txn.subcategory r)) else Txn.merchant r)
     else None)
  /\ Txn.investment_platform r
     = (if negb (Txn.category r =? "loan")%string
           && (Txn.category r =? "investment")%string
        then Some (or_merchant (Txn.subcategory r) (Txn.merchant r)) else None)
  /\ Txn.insurance_provider r
     = (if negb (Txn.category r =? "loan")%string
           && negb (Txn.category r =? "investment")%string
           && (Txn.category r =? "insurance")%string
        then Some (or_merchant (Txn.subcategory r) (Txn.merchant r)) else None)
  /\ Txn.raw_text r = text /\ Txn.description r = text.
Proof.
  unfold parse_body.
  destruct (detect_category nlp text) as [[[category subcategory] confidence]|e];
    cbn [bind]; [|discriminate].
  match goal with
  | |- bind ?x _ = _ -> _ => destruct x as [[[amount merchant] reference]|e]
  end; cbn [bind]; [|discriminate].
  destruct (extract_date text ts now_date) as [d|e]; cbn [bind]; [|discriminate].
  destruct (extract_balance text) as [b|e]; cbn [bind]; [|discriminate].
  intros H. injection H as <-. cbn. repeat split; reflexivity.
Qed.

(** X4. In a record that [parse_sms_spacy] returns the merchant is null
    exactly when the category is "informational". *)
Theorem merchant_null_iff_informational text ts now_date now_record r :
  parse_sms_spacy nlp text ts now_date now_record = Parsed r ->
  (Txn.merchant r = None <-> Txn.category r = "informational").
Proof.
  intros H. apply parse_Parsed in H as [_ H].
  apply parse_body_inv in H as (_ & H & _).
  destruct (Txn.category r =? "informational")%string eqn:Hcat.
  - apply String.eqb_eq in Hcat. destruct H as (_ & _ & _ & Hm & _).
    split; auto.
  - destruct H as (a & _ & _ & _ & _ & Hm & _).
    apply (extract_merchant_some _ _ _ _ Hcat) in Hm as [name Hname].
    apply String.eqb_neq in Hcat. rewrite Hname.
    split; [discriminate | intros Hc; contradiction].
Qed.


Lemma classifications_subcategories :
  Forall (fun c : classification =>
            (snd (fst c) =? "generic")%string = false
            /\ (fst (fst c) = "loan" -> In (snd (fst c)) ("" :: loan_providers))
            /\ (In (fst (fst c)) ["recharge"; "insurance"; "investment"] ->
                snd (fst c) = ""))
         classifications.
Proof.
  unfold classifications, loan_providers. cbn [List.map app].
  repeat (apply Forall_cons;
          [cbn [fst snd]; split; [reflexivity|];
           split;
           [intros Hc;
            first [discriminate Hc
                  | cbn [In]; repeat first [left; reflexivity | right]]
           |intros [Hc|[Hc|[Hc|[]]]];
            first [discriminate Hc | reflexivity]]|]).
  apply Forall_nil.
Qed.

Lemma generic_not_returned text category subcategory confidence :
  detect_category nlp text = Ok (category, subcategory, confidence) ->
  (subcategory =? "generic")%string = false
  /\ (category = "loan" -> In subcategory ("" :: loan_providers))
  /\ (In category ["recharge"; "insurance"; "investment"] -> subcategory = "").
Proof.
  intros H. apply detect_category_classified in H.
  pose proof classifications_subcategories as Hall.
  rewrite Forall_forall in Hall. apply (Hall _ H).
Qed.

(** X5. A record of category "loan" names the provider found by the
    classifier, or nothing: the subcategory is a key of the provider table
    or the empty string, the merchant is its title form followed by
    " Loan", and "loan_provider" is the subcategory itself; the merchant is
    never used for it. *)
Theorem loan_record text ts now_date now_record r :
  parse_sms_spacy nlp text ts now_date now_record = Parsed r ->
  Txn.category r = "loan" ->
  In (Txn.subcategory r) ("" :: loan_providers)
  /\ Txn.merchant r = Some (title (Txn.subcategory r) ++ u " Loan")%list
  /\ Txn.loan_provider r = Some (Some (u (Txn.subcategory r)))
  /\ Txn.investment_platform r = None /\ Txn.insurance_provider r = None
  /\ Txn.info_type r = None.
Proof.
  intros H Hcat. apply parse_Parsed in H as [_ H].
  pose proof (parse_body_keys _ _ _ _ _ H) as (Hl & Hi & Hs & _).
  apply parse_body_inv in H as (Hc & H & _ & _ & _ & Hinfo).
  rewrite Hcat in *.
  destruct (generic_not_returned _ _ _ _ Hc) as (Hg & Hsub & _).
  cbn [String.eqb Ascii.eqb Bool.eqb negb andb] in *.
  rewrite Hg in Hl. cbn [negb] in Hl.
  destruct H as (a & _ & _ & _ & _ & Hm & _).
  unfold extract_merchant in Hm.
  cbn [String.eqb Ascii.eqb Bool.eqb negb andb] in Hm. rewrite Hg in Hm.
  cbn [negb] in Hm. injection Hm as <-.
  repeat split; auto.
Qed.

Lemma provider_merchant_range l text_lower suffix default :
  In (provider_merchant l text_lower suffix default)
     (u default :: List.map (fun provider => (title provider ++ u suffix)%list) l).
Proof.
  induction l as [|provider tl IH]; cbn [provider_merchant List.map];
    [left; reflexivity|].
  destruct (contains provider text_lower).
  - right. left. reflexivity.
  - destruct IH as [IH|IH]; [left; exact IH | right; right; exact IH].
Qed.

Lemma recharge_names text_lower l :
  providers_of "recharge" = Ok l ->
  In (Some (provider_merchant l text_lower " Recharge" "Mobile Recharge"))
     (List.map (fun name => Some (u name)) recharge_merchants).
Proof.
  intros H. vm_compute in H. injection H as <-.
  pose proof (provider_merchant_range
                ["airtel"; "jio"; "vi"; "vodafone"; "idea"; "bsnl"; "reliance"]
                text_lower " Recharge" "Mobile Recharge") as Hin.
  revert Hin. generalize (provider_merchant
                ["airtel"; "jio"; "vi"; "vodafone"; "idea"; "bsnl"; "reliance"]
                text_lower " Recharge" "Mobile Recharge") as x.
  intros x Hin. vm_compute in Hin. vm_compute.
  repeat (destruct Hin as [<-|Hin]; [auto 12|]). destruct Hin.
Qed.

Lemma insurance_names text_lower l :
  providers_of "insurance" = Ok l ->
  In (Some (provider_merchant l text_lower " Insurance" "Insurance Premium"))
     (List.map (fun name => Some (u name)) insurance_merchants).
Proof.
  intros H. vm_compute in H. injection H as <-.
  pose proof (provider_merchant_range
                ["lic"; "bharti axa"; "hdfc ergo"; "icici lombard"; "tata aig"]
                text_lower " Insurance" "Insurance Premium") as Hin.
  revert Hin. generalize (provider_merchant
                ["lic"; "bharti axa"; "hdfc ergo"; "icici lombard"; "tata aig"]
                text_lower " Insurance" "Insurance Premium") as x.
  intros x Hin. vm_compute in Hin. vm_compute.
  repeat (destruct Hin as [<-|Hin]; [auto 12|]). destruct Hin.
Qed.

Lemma investment_names text_lower :
  In (Some (provider_merchant ["groww"; "coin"; "zerodha"; "upstox"; "mf utility"]
                              text_lower " Investment" "Investment"))
     (List.map (fun name => Some (u name)) investment_merchants).
Proof.
  pose proof (provider_merchant_range
                ["groww"; "coin"; "zerodha"; "upstox"; "mf utility"]
                text_lower " Investment" "Investment") as Hin.
  revert Hin. generalize (provider_merchant
                ["groww"; "coin"; "zerodha"; "upstox"; "mf utility"]
                text_lower " Investment" "Investment") as x.
  intros x Hin. vm_compute in Hin. vm_compute.
  repeat (destruct Hin as [<-|Hin]; [auto 12|]). destruct Hin.
Qed.

(** X6. In a record of category "recharge", "insurance" or "investment"
    the merchant is one of a fixed list of names (the title form of the
    first provider of the table found in the text, or the default of the
    category), and "insurance_provider" and "investment_platform" repeat
    the merchant, the subcategory of these categories being always
    empty. *)
Theorem category_merchants text ts now_date now_record r :
  parse_sms_spacy nlp text ts now_date now_record = Parsed r ->
  (Txn.category r = "recharge" ->
   In (Txn.merchant r) (List.map (fun name => Some (u name)) recharge_merchants))
  /\ (Txn.category r = "insurance" ->
      In (Txn.merchant r)
         (List.map (fun name => Some (u name)) insurance_merchants)
      /\ Txn.insurance_provider r = Some (Txn.merchant r))
  /\ (Txn.category r = "investment" ->
      In (Txn.merchant r)
         (List.map (fun name => Some (u name)) investment_merchants)
      /\ Txn.investment_platform r = Some (Txn.merchant r)).
Proof.
  intros H. apply parse_Parsed in H as [_ H].
  pose proof (parse_body_keys _ _ _ _ _ H) as (_ & Hi & Hs & _).
  apply parse_body_inv in H as (Hc & H & _).
  destruct (generic_not_returned _ _ _ _ Hc) as (_ & _ & Hsub).
  split; [|split]; intros Hcat; rewrite Hcat in *;
    cbn [String.eqb Ascii.eqb Bool.eqb negb andb] in *;
    (rewrite Hsub in * by (cbn; auto));
    destruct H as (a & _ & _ & _ & _ & Hm & _);
    unfold extract_merchant in Hm;
    cbn [String.eqb Ascii.eqb Bool.eqb negb andb] in Hm.
  - destruct (providers_of "recharge") as [l|e] eqn:Hp; cbn [bind] in Hm;
      [|discriminate].
    injection Hm as <-. apply recharge_names. exact Hp.
  - destruct (providers_of "insurance") as [l|e] eqn:Hp; cbn [bind] in Hm;
      [|discriminate].
    injection Hm as Hm. cbn [or_merchant] in Hs.
    split; [rewrite <- Hm; apply insurance_names; exact Hp | exact Hs].
  - injection Hm as Hm. cbn [or_merchant] in Hi.
    split; [rewrite <- Hm; apply investment_names | exact Hi].
Qed.

(** *** The amount, its currency and its formatted form *)

Lemma first_currency_codes text_lower :
  In (first_currency CURRENCY_CODES text_lower) currency_codes.
Proof.
  unfold CURRENCY_CODES, currency_codes. cbn [first_currency key_in].
  repeat match goal with
         | |- context [if contains ?k text_lower then _ else _] =>
             destruct (contains k text_lower); [cbn; auto 10|]
         end.
  cbn. auto.
Qed.

Lemma first_currency_rupee text_lower :
  contains "rs" text_lower || contains "inr" text_lower = true ->
  first_currency CURRENCY_CODES text_lower = "INR".
Proof.
  unfold CURRENCY_CODES. cbn [first_currency key_in].
  destruct (contains "rs" text_lower); [reflexivity|].
  cbn [orb]. intros ->. reflexivity.
Qed.

(** Where the currency of an amount comes from. *)
Definition amount_shape (text_lower : string) (m : MonetaryAmount) : Prop :=
  exists amount cur,
    m = money amount cur
    /\ (cur = first_currency CURRENCY_CODES text_lower \/ cur = "INR").

Lemma amount_by_indicator_shape text text_lower m :
  amount_by_indicator text text_lower = Ok (Some m) -> amount_shape text_lower m.
Proof.
  unfold amount_by_indicator.
  destruct (collect_amounts text text_lower transaction_indicators)
    as [amounts|e]; cbn [bind]; [|discriminate].
  destruct (sort_by snd amounts) as [|[amount pos] tl]; [discriminate|].
  intros H. injection H as <-. eexists amount, _. split; [reflexivity | auto].
Qed.

Lemma amount_by_entity_shape text_lower l m :
  amount_by_entity text_lower l = Ok (Some m) -> amount_shape text_lower m.
Proof.
  induction l as [|ent tl IH]; cbn [amount_by_entity]; [discriminate|].
  destruct (label_ ent =? "MONEY")%string; [|exact IH].
  destruct (existsb _ _); [|exact IH].
  destruct (isdigit _); [|exact IH].
  destruct (PyFloat.of_string _) as [amount|]; [|exact IH].
  destruct (PyFloat.plausible amount); [|exact IH].
  intros H. injection H as <-. eexists amount, _. split; [reflexivity | auto].
Qed.

Lemma amount_by_prefix_shape text_lower m :
  amount_by_prefix text_lower = Ok (Some m) -> amount_shape text_lower m.
Proof.
  unfold amount_by_prefix.
  destruct (Re.search _ _) as [mt|]; [|discriminate].
  destruct (group_str mt 1) as [g|e]; cbn [bind]; [|discriminate].
  destruct (PyFloat.of_string _) as [amount|]; [|discriminate].
  destruct (PyFloat.plausible amount); [|discriminate].
  intros H. injection H as <-. eexists amount, _. split; [reflexivity | auto].
Qed.

Lemma amount_by_token_shape text_lower l :
  forall prev m, amount_by_token prev l = Ok (Some m) -> amount_shape text_lower m.
Proof.
  induction l as [|token tl IH]; intros prev m; cbn [amount_by_token];
    [discriminate|].
  destruct (like_num token && negb (ent_type_ token =? "DATE")%string);
    [|apply IH].
  destruct (PyFloat.of_string _) as [amount|]; [|apply IH].
  destruct (match prev with Some _ => _ | None => _ end); [apply IH|].
  destruct (PyFloat.plausible amount); [|apply IH].
  intros H. injection H as <-. exists amount, "INR". auto.
Qed.

Lemma extract_amount_shape text m :
  extract_amount nlp text = Ok (Some m) -> amount_shape (lower text) m.
Proof.
  unfold extract_amount. intros H.
  apply or_else_returns in H as [H|[_ H]];
    [eapply amount_by_indicator_shape; eassumption|].
  apply or_else_returns in H as [H|[_ H]].
  { destruct (nlp text) as [doc|e]; cbn [bind] in H; [|discriminate].
    eapply amount_by_entity_shape; eassumption. }
  apply or_else_returns in H as [H|[_ H]];
    [eapply amount_by_prefix_shape; eassumption|].
  destruct (nlp text) as [doc|e]; cbn [bind] in H; [|discriminate].
  eapply amount_by_token_shape; eassumption.
Qed.

(** X7. In a record that [parse_sms_spacy] returns, "amount", "currency"
    and "formatted_amount" are null together; when they are not, the
    currency is one of the seven codes of [CURRENCY_CODES] and the formatted
    amount is the currency, a space and the amount with two decimals and
    thousands separators. *)
Theorem amount_fields_agree text ts now_date now_record r :
  parse_sms_spacy nlp text ts now_date now_record = Parsed r ->
  match Txn.amount r with
  | None => Txn.currency r = None /\ Txn.formatted_amount r = None
  | Some amount =>
      exists cur,
        Txn.currency r = Some cur /\ In cur currency_codes
        /\ Txn.formatted_amount r = Some (cur ++ " " ++ PyFloat.format_2f amount)
  end.
Proof.
  intros H. apply parse_Parsed in H as [_ H].
  apply parse_body_inv in H as (_ & H & _).
  destruct (Txn.category r =? "informational")%string.
  - destruct H as (-> & -> & -> & _). split; reflexivity.
  - destruct H as (a & Ha & -> & -> & -> & _).
    destruct a as [m|]; cbn [option_map]; [|split; reflexivity].
    apply extract_amount_shape in Ha as (amount & cur & -> & Hcur).
    cbn [value currency formatted money]. exists cur.
    repeat split; try reflexivity.
    destruct Hcur as [-> | ->]; [apply first_currency_codes | left; reflexivity].
Qed.

(** X8. The currency of an amount is read off the whole text, not off the
    amount: it is INR as soon as the lower-cased text contains "rs" or
    "inr" anywhere, inside a word included, whichever currency is written
    before the amount. *)
Theorem rupee_word_wins text m :
  extract_amount nlp text = Ok (Some m) ->
  contains "rs" (lower text) || contains "inr" (lower text) = true ->
  currency m = "INR".
Proof.
  intros H Hrs. apply extract_amount_shape in H as (amount & cur & -> & Hcur).
  cbn [currency money].
  destruct Hcur as [-> | ->]; [apply first_currency_rupee; exact Hrs | reflexivity].
Qed.

End Records.

(** ** Dates: the calendar *)

Section Calendar.
Import PyStr PyDate.

Lemma between_iff lo hi z : between lo hi z = true <-> lo <= z <= hi.
Proof.
  unfold between. rewrite andb_true_iff, !Z.leb_le. reflexivity.
Qed.

(** What the constructor of [datetime] has checked of the date. *)
Lemma date_valid (t : datetime) :
  1 <= year t <= 9999 /\ 1 <= month t <= 12
  /\ 1 <= day t <= days_in_month (year t) (month t).
Proof.
  pose proof (dt_ok t) as H. unfold valid_fields in H.
  rewrite !andb_true_iff, !between_iff in H. lia.
Qed.

Lemma with_date_some t y m d :
  1 <= y <= 9999 -> 1 <= m <= 12 -> 1 <= d <= days_in_month y m ->
  exists t', with_date t y m d = Some t'.
Proof.
  intros Hy Hm Hd. unfold with_date, make.
  destruct (bool_dec _ true) as [H|H]; [eauto|].
  exfalso. apply H. clear H.
  pose proof (dt_ok t) as Ht. unfold valid_fields in Ht |- *.
  rewrite !andb_true_iff, !between_iff in Ht |- *. lia.
Qed.

Lemma with_date_none t y m d : ~ 1 <= y <= 9999 -> with_date t y m d = None.
Proof.
  intros Hy. unfold with_date, make.
  destruct (bool_dec _ true) as [H|H]; [|reflexivity].
  exfalso. apply Hy. unfold valid_fields in H.
  rewrite !andb_true_iff, !between_iff in H. lia.
Qed.

Lemma days_in_month_ge y m : 28 <= days_in_month y m.
Proof.
  unfold days_in_month.
  destruct (m =? 2); [destruct (is_leap y); lia|].
  destruct (_ || _); lia.
Qed.

Lemma days_in_december y : days_in_month y 12 = 31.
Proof. reflexivity. Qed.

(** The day before exists but for the first day of the calendar. *)
Lemma yesterday_none (t : datetime) :
  yesterday t = None <-> year t = 1 /\ month t = 1 /\ day t = 1.
Proof.
  destruct (date_valid t) as (Hy & Hm & Hd). unfold yesterday.
  destruct (1 <? day t) eqn:H1.
  { apply Z.ltb_lt in H1.
    destruct (with_date_some t (year t) (month t) (day t - 1)) as [t' ->];
      try lia.
    split; [discriminate | lia]. }
  apply Z.ltb_ge in H1.
  destruct (1 <? month t) eqn:H2.
  { apply Z.ltb_lt in H2.
    pose proof (days_in_month_ge (year t) (month t - 1)).
    destruct (with_date_some t (year t) (month t - 1)
                (days_in_month (year t) (month t - 1))) as [t' ->]; try lia.
    split; [discriminate | lia]. }
  apply Z.ltb_ge in H2.
  destruct (Z.eq_dec (year t) 1) as [Hone|Hone].
  - rewrite with_date_none by lia. split; [lia | reflexivity].
  - destruct (with_date_some t (year t - 1) 12 31) as [t' ->];
      try (rewrite ?days_in_december; lia).
    split; [discriminate | lia].
Qed.

(** The day after exists but for the last day of the calendar. *)
Lemma tomorrow_none (t : datetime) :
  tomorrow t = None <-> year t = 9999 /\ month t = 12 /\ day t = 31.
Proof.
  destruct (date_valid t) as (Hy & Hm & Hd). unfold tomorrow.
  destruct (day t <? days_in_month (year t) (month t)) eqn:H1.
  { apply Z.ltb_lt in H1.
    destruct (with_date_some t (year t) (month t) (day t + 1)) as [t' ->];
      try lia.
    split; [discriminate|]. intros (_ & Hm12 & Hd31).
    rewrite Hm12, days_in_december in H1. lia. }
  apply Z.ltb_ge in H1.
  destruct (month t <? 12) eqn:H2.
  { apply Z.ltb_lt in H2.
    pose proof (days_in_month_ge (year t) (month t + 1)).
    destruct (with_date_some t (year t) (month t + 1) 1) as [t' ->]; try lia.
    split; [discriminate | lia]. }
  apply Z.ltb_ge in H2.
  assert (Hm12 : month t = 12) by lia.
  assert (Hd31 : day t = 31) by (rewrite Hm12, days_in_december in *; lia).
  destruct (Z.eq_dec (year t) 9999) as [Hlast|Hlast].
  - rewrite with_date_none by lia. split; [auto | reflexivity].
  - pose proof (days_in_month_ge (year t + 1) 1).
    destruct (with_date_some t (year t + 1) 1 1) as [t' ->]; try lia.
    split; [discriminate | lia].
Qed.

(** X9. A relative word decides the date before any written date is
    looked at, "today" first: a text with "today" is dated with the
    reference instant (the timestamp, or the clock without one); without
    "today", "yesterday" gives the day before and, without either,
    "tomorrow" the day after; without the three, "now" gives the reference
    day. *)
Theorem relative_dates_first text ts now :
  let base := or_now ts now in
  let date_of (o : option datetime) :=
    match o with
    | Some t => Ok (strftime_ymd t)
    | None => Raise date_overflow
    end in
  (contains "today" (lower text) = true ->
   extract_date text ts now = Ok (strftime_ymd base))
  /\ (contains "today" (lower text) = false ->
      contains "yesterday" (lower text) = true ->
      extract_date text ts now = date_of (yesterday base))
  /\ (contains "today" (lower text) = false ->
      contains "yesterday" (lower text) = false ->
      contains "tomorrow" (lower text) = true ->
      extract_date text ts now = date_of (tomorrow base))
  /\ (contains "today" (lower text) = false ->
      contains "yesterday" (lower text) = false ->
      contains "tomorrow" (lower text) = false ->
      contains "now" (lower text) = true ->
      extract_date text ts now = Ok (strftime_ymd base)).
Proof.
  cbv zeta. unfold extract_date, relative_dates.
  cbn [relative_date add_days Pos.iter bind_opt]. unfold returns.
  split; [|split; [|split]].
  - intros ->. rewrite or_else_Some. reflexivity.
  - intros -> ->. destruct (yesterday (or_now ts now));
      [rewrite or_else_Some | rewrite or_else_Raise]; reflexivity.
  - intros -> -> ->. destruct (tomorrow (or_now ts now));
      [rewrite or_else_Some | rewrite or_else_Raise]; reflexivity.
  - intros -> -> -> ->. rewrite or_else_Some. reflexivity.
Qed.

Lemma extract_date_raise_relative text ts now e :
  extract_date text ts now = Raise e <->
  relative_date (lower text) ts now relative_dates = Raise e.
Proof.
  unfold extract_date.
  destruct (relative_date (lower text) ts now relative_dates) as [[d|]|e'].
  - rewrite or_else_Some. split; discriminate.
  - rewrite or_else_None.
    destruct (compact_date_total text) as [[d|] ->];
      [rewrite or_else_Some; split; discriminate | rewrite or_else_None].
    destruct (standard_date_total text) as [[d|] ->];
      [rewrite or_else_Some; split; discriminate | rewrite or_else_None].
    destruct (verbose_date_total text) as [[d|] ->];
      [rewrite or_else_Some; split; discriminate | rewrite or_else_None].
    destruct (indicated_date_total text (lower text) date_indicators) as [[d|] ->];
      split; discriminate.
  - rewrite or_else_Raise. unfold or_default. cbn [bind].
    split; intros H; injection H as ->; reflexivity.
Qed.

(** X10. [extract_date] raises in two cases only, both at an end of the
    calendar: the text has "yesterday" (and not "today") and the reference
    day is 1 January of year 1, or it has "tomorrow" (and neither "today"
    nor "yesterday") and the reference day is 31 December 9999.  What it
    raises is the overflow of the date arithmetic. *)
Theorem extract_date_overflow text ts now e :
  extract_date text ts now = Raise e <->
  e = date_overflow
  /\ contains "today" (lower text) = false
  /\ ((contains "yesterday" (lower text) = true
       /\ year (or_now ts now) = 1 /\ month (or_now ts now) = 1
       /\ day (or_now ts now) = 1)
      \/ (contains "yesterday" (lower text) = false
          /\ contains "tomorrow" (lower text) = true
          /\ year (or_now ts now) = 9999 /\ month (or_now ts now) = 12
          /\ day (or_now ts now) = 31)).
Proof.
  rewrite extract_date_raise_relative. unfold relative_dates, date_overflow.
  cbn [relative_date add_days Pos.iter bind_opt].
  destruct (contains "today" (lower text)).
  { split; [discriminate | intros (_ & Hf & _); discriminate]. }
  destruct (contains "yesterday" (lower text)).
  { pose proof (yesterday_none (or_now ts now)) as Hy.
    destruct (yesterday (or_now ts now)) as [t|].
    - split; [discriminate|]. intros (_ & _ & [(_ & H)|(Hf & _)]).
      + apply Hy in H. discriminate.
      + discriminate.
    - split.
      + intros H. injection H as <-. split; [reflexivity|].
        split; [reflexivity|]. left. split; [reflexivity|]. apply Hy.
        reflexivity.
      + intros (-> & _). reflexivity. }
  destruct (contains "tomorrow" (lower text)).
  { pose proof (tomorrow_none (or_now ts now)) as Hy.
    destruct (tomorrow (or_now ts now)) as [t|].
    - split; [discriminate|]. intros (_ & _ & [(Hf & _)|(_ & _ & H)]).
      + discriminate.
      + apply Hy in H. discriminate.
    - split.
      + intros H. injection H as <-. split; [reflexivity|].
        split; [reflexivity|]. right. split; [reflexivity|].
        split; [reflexivity|]. apply Hy. reflexivity.
      + intros (-> & _). reflexivity. }
  destruct (contains "now" (lower text)).
  { split; [discriminate|].
    intros (_ & _ & [(Hf & _)|(_ & Hf & _)]); discriminate. }
  destruct (contains "just now" (lower text)).
  { split; [discriminate|].
    intros (_ & _ & [(Hf & _)|(_ & Hf & _)]); discriminate. }
  destruct (contains "a moment ago" (lower text));
    (split; [discriminate|]);
    intros (_ & _ & [(Hf & _)|(_ & Hf & _)]); discriminate.
Qed.

Variable nlp : string -> result Doc.

(** X11. The date of a record is a day of the calendar, not only a string
    of some shape: the year as [strftime] writes it, without leading
    zeros, then the month and the day zero-filled to two digits, with the
    month between 1 and 12 and the day no more than the month has in that
    year.  It matches [^\d{4}-\d{2}-\d{2}$] exactly when the year has four
    digits. *)
Theorem date_is_calendar_day text ts now_date now_record r :
  parse_sms_spacy nlp text ts now_date now_record = Parsed r ->
  exists y m d,
    Txn.date r = dec y ++ "-" ++ pad 2 m ++ "-" ++ pad 2 d
    /\ 1 <= y <= 9999 /\ 1 <= m <= 12 /\ 1 <= d <= days_in_month y m
    /\ (is_iso_date (Txn.date r) = true <-> 1000 <= y).
Proof.
  intros H. apply parse_Parsed in H as [_ H].
  apply parse_body_inv in H as (_ & _ & Hd & _).
  apply extract_date_formatted in Hd as [t ->].
  exists (year t), (month t), (day t). split; [reflexivity|].
  destruct (date_valid t) as (Hy & Hm & Hday).
  repeat split; try lia.
  - rewrite DateFacts.strftime_iso. apply Z.leb_le.
  - rewrite DateFacts.strftime_iso. apply Z.leb_le.
Qed.

Definition decimal_digits : list ascii := to_list "0123456789".

Lemma is_digit_cases c : is_digit c = true -> In c decimal_digits.
Proof.
  assert (H : List.forallb
                (fun c => implb (is_digit c)
                            (existsb (Ascii.eqb c) decimal_digits))
                Re.all_ascii = true) by (vm_compute; reflexivity).
  rewrite forallb_forall in H. specialize (H c (ReFacts.all_ascii_complete c)).
  intros Hc. rewrite Hc in H. cbn [implb] in H.
  apply existsb_exists in H as (d & Hin & Heq).
  apply Ascii.eqb_eq in Heq. subst d. exact Hin.
Qed.

(** The year that stands for two digits: below 50 in the 2000s, from 50 on
    in the 1900s. *)
Lemma full_year_value year :
  len year = 2 -> forallb is_digit year = true ->
  String.length (full_year year) = 4%nat
  /\ int_ (full_year year)
     = (if int_ year <? 50 then 2000 else 1900) + int_ year
  /\ 1950 <= int_ (full_year year) <= 2049.
Proof.
  intros Hlen Hd.
  destruct year as [|a [|b [|c rest]]]; try discriminate Hlen.
  2:{ unfold len in Hlen. cbn [String.length] in Hlen. lia. }
  cbn [forallb] in Hd. apply andb_true_iff in Hd as [Ha Hd].
  apply andb_true_iff in Hd as [Hb _].
  apply is_digit_cases in Ha, Hb.
  assert (H : List.forallb
                (fun a => List.forallb
                   (fun b =>
                      let y := String a (String b "") in
                      (String.length (full_year y) =? 4)%nat
                      && (int_ (full_year y)
                          =? (if int_ y <? 50 then 2000 else 1900) + int_ y)
                      && (1950 <=? int_ (full_year y))
                      && (int_ (full_year y) <=? 2049))
                   decimal_digits)
                decimal_digits = true) by (vm_compute; reflexivity).
  rewrite forallb_forall in H. specialize (H a Ha).
  rewrite forallb_forall in H. specialize (H b Hb). cbv zeta in H.
  repeat (apply andb_true_iff in H as [H ?]).
  apply Nat.eqb_eq in H.
  repeat match goal with
         | Hq : (_ <=? _) = true |- _ => apply Z.leb_le in Hq
         | Hq : (_ =? _) = true |- _ => apply Z.eqb_eq in Hq
         end.
  repeat split; assumption.
Qed.

End Calendar.

(** ** The route *)

Section Route.
Import PyStr PyDate Routes.

Variable nlp : string -> result Doc.

(** X13. The answer of [parse_expense] does not depend on the day of the
    request: the clock read inside [extract_date] is never used, because
    the request always carries a timestamp; and a request sent without one
    carries the instant at which the module was loaded, so that a message
    without a date of its own is dated with that day. *)
Theorem parse_expense_date class_default message ts now_date now_date' now_record :
  parse_expense nlp (new_SMSRequest class_default message ts) now_date now_record
  = parse_expense nlp (new_SMSRequest class_default message ts) now_date' now_record
  /\ (forall r,
        parse_expense nlp (new_SMSRequest class_default message None)
                      now_date now_record = Success r ->
        no_date_pattern message ->
        Txn.date r = strftime_ymd class_default).
Proof.
  unfold parse_expense, new_SMSRequest. cbn [Routes.message Routes.timestamp].
  split.
  - unfold parse_sms_spacy, parse_body.
    rewrite (extract_date_clock message _ now_date now_date'). reflexivity.
  - intros r H Hno.
    destruct (parse_sms_spacy nlp message (Some class_default) now_date now_record)
      as [r'|msg] eqn:Hp; [|discriminate].
    injection H as ->. apply parse_Parsed in Hp as [_ Hp].
    apply parse_body_inv in Hp as (_ & _ & Hd & _).
    rewrite (extract_date_fallback _ _ _ Hno) in Hd. injection Hd as <-.
    reflexivity.
Qed.

End Route.

(** ** More about the matcher: first characters, compulsory characters,
    substitution *)

#[local] Transparent Re.search Re.match_start Re.finditer Re.sub.

Module RunFacts.
Import PyStr Re ReFacts.

(** The first character that a match of [r] consumes satisfies [P], and
    there is one. *)
Fixpoint first_ok (icase : bool) (P : ascii -> bool) (r : regex) : bool :=
  match r with
  | Set_ negated items => set_within icase negated items P
  | Seq WordB b | Seq Bol b => first_ok icase P b
  | Seq a _ => first_ok icase P a
  | Alt a b => first_ok icase P a && first_ok icase P b
  | Grp _ r' => first_ok icase P r'
  | Rep r' (S _) _ => first_ok icase P r'
  | _ => false
  end.

(** Every match of [r] consumes a character that satisfies [P]. *)
Fixpoint needs (icase : bool) (P : ascii -> bool) (r : regex) : bool :=
  match r with
  | Set_ negated items => set_within icase negated items P
  | Seq a b => needs icase P a || needs icase P b
  | Alt a b => needs icase P a && needs icase P b
  | Grp _ r' => needs icase P r'
  | Rep r' (S _) _ => needs icase P r'
  | _ => false
  end.

(** [r] matches the empty text wherever it is tried. *)
Fixpoint accepts_all (r : regex) : bool :=
  match r with
  | Eps => true
  | Rep _ O _ => true
  | Seq a b => accepts_all a && accepts_all b
  | Grp _ r' => accepts_all r'
  | _ => false
  end.

(** The set accepts every character that satisfies [S]. *)
Definition set_covers (icase negated : bool) (items : list citem)
           (S : ascii -> bool) : bool :=
  List.forallb (fun a => implb (S a) (set_mem icase negated items a)) all_ascii.

(** [r] matches at every character that satisfies [S]. *)
Definition head_complete (icase : bool) (S : ascii -> bool) (r : regex) : bool :=
  match r with
  | Set_ negated items => set_covers icase negated items S
  | Seq (Set_ negated items) b => set_covers icase negated items S && accepts_all b
  | Rep (Set_ negated items) 1 None => set_covers icase negated items S
  | _ => false
  end.

Definition any_char : ascii -> bool := fun _ => true.
Definition any_group : nat -> ascii -> bool := fun _ _ => true.

Section Runs.
Context {R : Type}.
Variable icase : bool.
Variable l : list ascii.

Definition state_ok (st : cursor) (c : caps) : Prop :=
  cursor_ok l st /\ caps_ok l any_group c.

Lemma within_any a b : (b <= length l)%nat -> within l any_char a b.
Proof.
  intros Hb i Hi. destruct (nth_error l i) as [ch|] eqn:Hn.
  - exists ch. split; reflexivity.
  - apply nth_error_None in Hn. lia.
Qed.

(** A successful run moves the cursor forward inside the text. *)
Lemma run_on r (k : @cont R) st c x :
  state_ok st c -> run icase r k st c = Some x ->
  exists st' c', state_ok st' c' /\ (c_pos st <= c_pos st')%nat
                 /\ k st' c' = Some x.
Proof.
  intros [Hst Hc] H.
  apply (run_inv icase l any_group r any_char) in H;
    [|apply chars_ok_top | apply groups_ok_top | assumption..].
  destruct H as (st' & c' & (Hst' & Hle & _ & Hc' & _) & H).
  exists st', c'. repeat split; assumption.
Qed.

Lemma rep_loop_on r lo hi (k : @cont R) fuel n st c x :
  state_ok st c -> rep_loop (run icase r) lo hi k fuel n st c = Some x ->
  exists st' c', state_ok st' c' /\ (c_pos st <= c_pos st')%nat
                 /\ k st' c' = Some x.
Proof.
  intros [Hst Hc] H.
  apply (rep_loop_inv l any_group (run icase r) any_char (must r)) in H;
    [| |assumption..].
  - destruct H as (st' & c' & (Hst' & Hle & _ & Hc' & _) & H).
    exists st', c'. repeat split; assumption.
  - intros k' st0 c0 x0 Hst0 Hc0 H0.
    apply (run_inv icase l any_group r any_char) in H0;
      [exact H0 | apply chars_ok_top | apply groups_ok_top | assumption..].
Qed.

Lemma state_ok_group g st c st' c' :
  state_ok st c -> state_ok st' c' -> (c_pos st <= c_pos st')%nat ->
  state_ok st' ((g, (c_pos st, c_pos st')) :: c').
Proof.
  intros [Hst Hc] [Hst' Hc'] Hle. split; [exact Hst'|].
  constructor; [|exact Hc']. unfold entry_ok. cbn.
  pose proof (cursor_ok_le _ _ Hst') as Hlen.
  repeat split; [exact Hle | exact Hlen |]. apply within_any. exact Hlen.
Qed.

Lemma state_ok_advance st c a tl :
  state_ok st c -> c_rest st = a :: tl ->
  state_ok (advance st a tl) c /\ nth_error l (c_pos st) = Some a.
Proof.
  intros [Hst Hc] Hrest.
  destruct (cursor_ok_advance l st a tl Hst Hrest) as [Hst' Hn].
  repeat split; assumption.
Qed.

Theorem run_first P r :
  forall (k : @cont R) st c x,
    first_ok icase P r = true -> state_ok st c ->
    run icase r k st c = Some x ->
    exists a tl st' c',
      c_rest st = a :: tl /\ P a = true /\ state_ok st' c'
      /\ (c_pos st < c_pos st')%nat /\ k st' c' = Some x.
Proof.
  induction r as [| | |negated items|r1 IH1 r2 IH2|r1 IH1 r2 IH2|r' IH lo hi
                 |g r' IH| | |];
    intros k st c x Hf Hok H; try discriminate Hf.
  - cbn [run] in H. cbn [first_ok] in Hf.
    destruct (c_rest st) as [|a tl] eqn:Hrest; [discriminate|].
    destruct (set_mem icase negated items a) eqn:Hm; [|discriminate].
    destruct (state_ok_advance _ _ _ _ Hok Hrest) as [Hok' _].
    exists a, tl, (advance st a tl), c.
    split; [reflexivity|]. split; [eapply set_within_mem; eassumption|].
    split; [exact Hok'|]. split; [cbn; lia | exact H].
  - assert (Hhead : first_ok icase P r1 = true ->
              exists a tl st' c',
                c_rest st = a :: tl /\ P a = true /\ state_ok st' c'
                /\ (c_pos st < c_pos st')%nat /\ k st' c' = Some x).
    { intros Hf1. cbn [run] in H.
      apply (IH1 _ _ _ _ Hf1 Hok) in H
        as (a & tl & st1 & c1 & Hrest & HP & Hok1 & Hlt & H).
      apply (run_on _ _ _ _ _ Hok1) in H as (st2 & c2 & Hok2 & Hle & H).
      exists a, tl, st2, c2.
      split; [exact Hrest|]. split; [exact HP|]. split; [exact Hok2|].
      split; [lia | exact H]. }
    destruct r1; try (apply Hhead; exact Hf); try discriminate Hf.
    + cbn [run] in H. cbn [first_ok] in Hf.
      destruct (at_boundary st); [|discriminate]. eapply IH2; eassumption.
    + cbn [run] in H. cbn [first_ok] in Hf.
      destruct (c_pos st =? 0)%nat; [|discriminate]. eapply IH2; eassumption.
  - cbn [run] in H. cbn [first_ok] in Hf.
    apply andb_true_iff in Hf as [Hf1 Hf2].
    destruct (run icase r1 k st c) as [x0|] eqn:H1.
    + injection H as ->. eapply IH1; eassumption.
    + eapply IH2; eassumption.
  - destruct lo as [|lo]; [discriminate Hf|]. cbn [first_ok] in Hf.
    cbn [run] in H.
    destruct (length (c_rest st)) as [|f]; cbn [rep_loop Nat.leb] in H;
      [discriminate|].
    destruct (under hi 0); [|discriminate].
    match type of H with
    | match ?b with _ => _ end = _ => destruct b as [x0|] eqn:Hb
    end; [|discriminate].
    injection H as ->.
    apply (IH _ _ _ _ Hf Hok) in Hb
      as (a & tl & st1 & c1 & Hrest & HP & Hok1 & Hlt & Hb).
    destruct (c_pos st <? c_pos st1)%nat; [|discriminate].
    apply (rep_loop_on _ _ _ _ _ _ _ _ _ Hok1) in Hb
      as (st2 & c2 & Hok2 & Hle & Hb).
    exists a, tl, st2, c2.
    split; [exact Hrest|]. split; [exact HP|]. split; [exact Hok2|].
    split; [lia | exact Hb].
  - cbn [run] in H. cbn [first_ok] in Hf.
    apply (IH _ _ _ _ Hf Hok) in H
      as (a & tl & st1 & c1 & Hrest & HP & Hok1 & Hlt & H).
    exists a, tl, st1, ((g, (c_pos st, c_pos st1)) :: c1).
    split; [exact Hrest|]. split; [exact HP|].
    split; [apply (state_ok_group g st c st1 c1 Hok Hok1); lia|].
    split; [exact Hlt | exact H].
Qed.

Definition consumed (P : ascii -> bool) (a b : nat) : Prop :=
  exists i ch, (a <= i < b)%nat /\ nth_error l i = Some ch /\ P ch = true.

Lemma consumed_wider P a b a' b' :
  (a' <= a)%nat -> (b <= b')%nat -> consumed P a b -> consumed P a' b'.
Proof.
  intros Ha Hb (i & ch & Hi & Hn & HP). exists i, ch.
  split; [lia|]. split; assumption.
Qed.

Theorem run_needs P r :
  forall (k : @cont R) st c x,
    needs icase P r = true -> state_ok st c ->
    run icase r k st c = Some x ->
    exists st' c',
      state_ok st' c' /\ (c_pos st <= c_pos st')%nat
      /\ consumed P (c_pos st) (c_pos st') /\ k st' c' = Some x.
Proof.
  induction r as [| | |negated items|r1 IH1 r2 IH2|r1 IH1 r2 IH2|r' IH lo hi
                 |g r' IH| | |];
    intros k st c x Hf Hok H; try discriminate Hf.
  - cbn [run] in H. cbn [needs] in Hf.
    destruct (c_rest st) as [|a tl] eqn:Hrest; [discriminate|].
    destruct (set_mem icase negated items a) eqn:Hm; [|discriminate].
    destruct (state_ok_advance _ _ _ _ Hok Hrest) as [Hok' Hn].
    exists (advance st a tl), c.
    split; [exact Hok'|]. split; [cbn; lia|]. split; [|exact H].
    exists (c_pos st), a. split; [cbn; lia|]. split; [exact Hn|].
    eapply set_within_mem; eassumption.
  - cbn [run] in H. cbn [needs] in Hf. apply orb_true_iff in Hf as [Hf|Hf].
    + apply (IH1 _ _ _ _ Hf Hok) in H as (st1 & c1 & Hok1 & Hle1 & Hc1 & H).
      apply (run_on _ _ _ _ _ Hok1) in H as (st2 & c2 & Hok2 & Hle2 & H).
      exists st2, c2. split; [exact Hok2|]. split; [lia|]. split; [|exact H].
      eapply consumed_wider; [| |exact Hc1]; lia.
    + apply (run_on _ _ _ _ _ Hok) in H as (st1 & c1 & Hok1 & Hle1 & H).
      apply (IH2 _ _ _ _ Hf Hok1) in H as (st2 & c2 & Hok2 & Hle2 & Hc2 & H).
      exists st2, c2. split; [exact Hok2|]. split; [lia|]. split; [|exact H].
      eapply consumed_wider; [| |exact Hc2]; lia.
  - cbn [run] in H. cbn [needs] in Hf.
    apply andb_true_iff in Hf as [Hf1 Hf2].
    destruct (run icase r1 k st c) as [x0|] eqn:H1.
    + injection H as ->. eapply IH1; eassumption.
    + eapply IH2; eassumption.
  - destruct lo as [|lo]; [discriminate Hf|]. cbn [needs] in Hf.
    cbn [run] in H.
    destruct (length (c_rest st)) as [|f]; cbn [rep_loop Nat.leb] in H;
      [discriminate|].
    destruct (under hi 0); [|discriminate].
    match type of H with
    | match ?b with _ => _ end = _ => destruct b as [x0|] eqn:Hb
    end; [|discriminate].
    injection H as ->.
    apply (IH _ _ _ _ Hf Hok) in Hb as (st1 & c1 & Hok1 & Hle1 & Hc1 & Hb).
    destruct (c_pos st <? c_pos st1)%nat; [|discriminate].
    apply (rep_loop_on _ _ _ _ _ _ _ _ _ Hok1) in Hb
      as (st2 & c2 & Hok2 & Hle & Hb).
    exists st2, c2. split; [exact Hok2|]. split; [lia|]. split; [|exact Hb].
    eapply consumed_wider; [| |exact Hc1]; lia.
  - cbn [run] in H. cbn [needs] in Hf.
    apply (IH _ _ _ _ Hf Hok) in H as (st1 & c1 & Hok1 & Hle1 & Hc1 & H).
    exists st1, ((g, (c_pos st, c_pos st1)) :: c1).
    split; [apply (state_ok_group g st c st1 c1 Hok Hok1); lia|].
    split; [exact Hle1|]. split; [exact Hc1 | exact H].
Qed.

(** Once the lower bound is reached, a repetition hands over to its
    continuation at the latest when no further round succeeds. *)
Lemma rep_loop_total body lo hi (k : @cont R) fuel n st c :
  (lo <= n)%nat -> (forall st' c', k st' c' <> None) ->
  rep_loop body lo hi k fuel n st c <> None.
Proof.
  intros Hlo Hk. apply Nat.leb_le in Hlo.
  destruct fuel as [|f]; cbn [rep_loop]; rewrite Hlo; [apply Hk|].
  destruct (under hi n); [|apply Hk].
  destruct (body _ st c); [discriminate | apply Hk].
Qed.

Lemma run_accepts_all r :
  accepts_all r = true ->
  forall (k : @cont R) st c,
    (forall st' c', k st' c' <> None) -> run icase r k st c <> None.
Proof.
  induction r as [| | |negated items|r1 IH1 r2 IH2|r1 IH1 r2 IH2|r' IH lo hi
                 |g r' IH| | |];
    intros Ha k st c Hk; try discriminate Ha; cbn [run].
  - apply Hk.
  - cbn [accepts_all] in Ha. apply andb_true_iff in Ha as [Ha1 Ha2].
    apply IH1; [exact Ha1|]. intros st' c'. apply IH2; assumption.
  - destruct lo; [|discriminate Ha]. apply rep_loop_total; [lia | exact Hk].
  - cbn [accepts_all] in Ha. apply IH; [exact Ha|]. intros st' c'. apply Hk.
Qed.

Lemma set_covers_mem negated items S a :
  set_covers icase negated items S = true -> S a = true ->
  set_mem icase negated items a = true.
Proof.
  unfold set_covers. rewrite forallb_forall. intros H Hs.
  specialize (H a (all_ascii_complete a)). rewrite Hs in H. exact H.
Qed.

Lemma run_head_complete S r (k : @cont R) st c a tl :
  head_complete icase S r = true -> c_rest st = a :: tl -> S a = true ->
  (forall st' c', k st' c' <> None) -> run icase r k st c <> None.
Proof.
  intros Hh Hrest Hs Hk.
  destruct r as [| | |negated items|r1 r2| |r' lo hi| | | |];
    try discriminate Hh.
  - cbn [head_complete] in Hh. cbn [run]. rewrite Hrest.
    rewrite (set_covers_mem _ _ _ _ Hh Hs). apply Hk.
  - destruct r1 as [| | |negated items| | | | | | |]; try discriminate Hh.
    cbn [head_complete] in Hh. apply andb_true_iff in Hh as [Hh Ha].
    cbn [run]. rewrite Hrest. rewrite (set_covers_mem _ _ _ _ Hh Hs).
    apply run_accepts_all; assumption.
  - destruct r' as [| | |negated items| | | | | | |]; try discriminate Hh.
    destruct lo as [|[|lo]]; try discriminate Hh.
    destruct hi; [discriminate Hh|]. cbn [head_complete] in Hh.
    cbn [run]. rewrite Hrest. cbn [length rep_loop under Nat.leb run].
    rewrite Hrest. rewrite (set_covers_mem _ _ _ _ Hh Hs).
    cbn [advance c_pos]. rewrite (proj2 (Nat.ltb_lt _ _) (Nat.lt_succ_diag_r _)).
    match goal with
    | |- match ?b with _ => _ end <> None =>
        assert (Hb : b <> None) by (apply rep_loop_total; [lia | exact Hk]);
        destruct b; [discriminate | contradiction]
    end.
Qed.

End Runs.

(** *** Matches at a cursor *)

Lemma state_ok_nil l st : cursor_ok l st -> state_ok l st [].
Proof. intros H. split; [exact H | constructor]. Qed.

(** A match of a pattern with a marked first character starts on such a
    character and is not empty. *)
Lemma match_here_first P p s st m :
  first_ok (p_icase p) P (p_re p) = true ->
  cursor_ok (to_list s) st -> match_here p s st = Some m ->
  exists a tl, c_rest st = a :: tl /\ P a = true
               /\ (m_start_n m < m_end_n m)%nat.
Proof.
  intros Hf Hst H. unfold match_here in H.
  apply (run_first (p_icase p) (to_list s) P _ _ _ _ _ Hf (state_ok_nil _ _ Hst))
    in H as (a & tl & st' & c' & Hrest & HP & _ & Hlt & H).
  injection H as <-. exists a, tl. cbn. auto.
Qed.

Lemma match_here_complete S p s st a tl :
  head_complete (p_icase p) S (p_re p) = true ->
  c_rest st = a :: tl -> S a = true -> match_here p s st <> None.
Proof.
  intros Hh Hrest Hs. unfold match_here.
  eapply run_head_complete; try eassumption. intros st' c'. discriminate.
Qed.

Lemma substring_cons (pre : list ascii) :
  forall s a tl n,
    to_list s = (pre ++ a :: tl)%list ->
    substring (length pre) (Datatypes.S n) s
    = String a (substring (Datatypes.S (length pre)) n s).
Proof.
  induction pre as [|b pre IH]; intros s a tl n H.
  - destruct s as [|c s]; [discriminate|]. cbn in H. injection H as -> _.
    cbn [length substring]. reflexivity.
  - destruct s as [|c s]; [discriminate|]. cbn in H. injection H as _ H.
    cbn [length substring]. eapply IH. exact H.
Qed.

(** The text of a match found by [search] begins with a character that
    the pattern can begin with. *)
Lemma search_first P p s m :
  first_ok (p_icase p) P (p_re p) = true -> search p s = Some m ->
  exists a rest, group0 m = String a rest /\ P a = true.
Proof.
  intros Hf H. unfold search in H.
  apply (LiteralFacts.scan_here _ _ _ _ _ _ [] eq_refl eq_refl) in H
    as (pre & rest & prev & Hl & Hm).
  assert (Hst : cursor_ok (to_list s)
                  {| c_pos := length pre; c_prev := prev; c_rest := rest |})
    by (exists pre; split; [exact Hl | reflexivity]).
  pose proof (match_here_first P p s _ m Hf Hst Hm) as (a & tl & Hrest & HP & Hlt).
  apply (match_here_ok any_char any_group p s
           (chars_ok_top _ _) (groups_ok_top _ _) _ _ Hst) in Hm
    as [[Hstr _ _ _ _] Hstart].
  cbn [c_rest c_pos] in Hrest, Hstart. subst rest.
  unfold group0. rewrite Hstr, Hstart.
  destruct (m_end_n m - length pre)%nat as [|n] eqn:Hn; [lia|].
  rewrite (substring_cons pre s a tl n Hl). eauto.
Qed.

(** The text holds a character that the pattern cannot do without. *)
Lemma match_start_needs P p s m :
  needs (p_icase p) P (p_re p) = true -> match_start p s = Some m ->
  exists ch, In ch (to_list s) /\ P ch = true.
Proof.
  intros Hn H. unfold match_start, match_here in H.
  apply (run_needs (p_icase p) (to_list s) P _ _ _ _ _ Hn) in H.
  - destruct H as (st' & c' & _ & _ & (i & ch & _ & Hnth & HP) & _).
    exists ch. split; [eapply nth_error_In; exact Hnth | exact HP].
  - apply state_ok_nil. exists []. split; reflexivity.
Qed.

(** *** Substitution *)

Lemma forallb_app P (a b : string) :
  forallb P (a ++ b) = forallb P a && forallb P b.
Proof.
  induction a as [|c a IH]; cbn [append forallb]; [reflexivity|].
  rewrite IH. apply andb_assoc.
Qed.

(** Substitution brings in no character beyond those of the text and of
    the replacement. *)
Lemma sub_from_chars P repl s ms :
  forallb P s = true -> forallb P repl = true ->
  forall from, forallb P (sub_from ms repl s from) = true.
Proof.
  intros Hs Hr. induction ms as [|m tl IH]; intros from; cbn [sub_from].
  - apply SubstringFacts.forallb_substring_of. exact Hs.
  - rewrite !forallb_app, Hr, IH.
    rewrite SubstringFacts.forallb_substring_of by exact Hs. reflexivity.
Qed.

Theorem sub_chars P p repl s :
  forallb P s = true -> forallb P repl = true ->
  forallb P (sub p repl s) = true.
Proof. intros Hs Hr. unfold sub. apply sub_from_chars; assumption. Qed.

Lemma cursor_at_pos n :
  forall pos prev rest, (n <= length rest)%nat ->
    c_pos (cursor_at n pos prev rest) = (pos + n)%nat.
Proof.
  induction n as [|n IH]; intros pos prev rest Hn; cbn [cursor_at].
  - cbn. lia.
  - destruct rest as [|a tl]; [cbn in Hn; lia|].
    rewrite IH by (cbn in Hn; lia). lia.
Qed.

Lemma within_forallb P s :
  forallb P s = true ->
  forall a b, (b <= String.length s)%nat -> within (to_list s) P a b.
Proof.
  intros Hs a b Hb i Hi.
  destruct (nth_error (to_list s) i) as [ch|] eqn:Hn.
  - exists ch. split; [reflexivity|].
    rewrite FloatFacts.forallb_to_list in Hs. rewrite forallb_forall in Hs.
    apply Hs. eapply nth_error_In. exact Hn.
  - apply nth_error_None in Hn. rewrite length_to_list in Hn. lia.
Qed.

Section Substitution.
Variable S : ascii -> bool.
Variable p : pattern.
Hypothesis Hfirst : first_ok (p_icase p) S (p_re p) = true.
Hypothesis Hhead : head_complete (p_icase p) S (p_re p) = true.

(** The scan passes over characters outside [S] only. *)
Lemma scan_skips s rest :
  forall pos prev pre,
    to_list s = (pre ++ rest)%list -> length pre = pos ->
    match scan p s pos prev rest with
    | Some m => within (to_list s) (fun c => negb (S c)) pos (m_start_n m)
    | None => within (to_list s) (fun c => negb (S c)) pos (String.length s)
    end.
Proof.
  induction rest as [|a tl IH]; intros pos prev pre Hl Hlen; cbn [scan].
  - destruct (match_here p s _) as [m|] eqn:Hm.
    + apply match_here_first with (P := S) in Hm
        as (a & tl & Hrest & _); [discriminate Hrest | exact Hfirst|].
      exists pre. split; assumption.
    + intros i Hi. rewrite <- (length_to_list s), Hl, length_app in Hi.
      cbn in Hi. lia.
  - destruct (match_here p s _) as [m|] eqn:Hm.
    + apply (match_here_ok any_char any_group p s
               (chars_ok_top _ _) (groups_ok_top _ _)) in Hm as [_ Hs];
        [|exists pre; split; assumption].
      cbn in Hs. rewrite Hs. intros i Hi. lia.
    + assert (Ha : S a = false).
      { destruct (S a) eqn:Hsa; [|reflexivity]. exfalso.
        eapply (match_here_complete S p s); [exact Hhead | | exact Hsa | exact Hm].
        reflexivity. }
      specialize (IH (Datatypes.S pos) (Some a) (pre ++ [a])%list).
      rewrite <- app_assoc in IH. specialize (IH Hl).
      rewrite length_app in IH. cbn [length] in IH.
      specialize (IH ltac:(lia)).
      assert (Hn : nth_error (to_list s) pos = Some a).
      { rewrite Hl, <- Hlen, nth_error_app2 by lia.
        rewrite Nat.sub_diag. reflexivity. }
      destruct (scan p s (Datatypes.S pos) (Some a) tl) as [m|];
        intros i Hi;
        (destruct (Nat.eq_dec i pos) as [->|Hne];
         [exists a; rewrite Ha; split; [exact Hn | reflexivity]
         |apply IH; lia]).
Qed.

Lemma within_and P Q l a b :
  within l P a b -> within l Q a b -> within l (fun c => P c && Q c) a b.
Proof.
  intros HP HQ i Hi. destruct (HP i Hi) as (ch & Hn & Hp).
  destruct (HQ i Hi) as (ch' & Hn' & Hq). rewrite Hn in Hn'.
  injection Hn' as <-. exists ch. rewrite Hp, Hq. auto.
Qed.

Lemma within_impl (P Q : ascii -> bool) l a b :
  (forall c, P c = true -> Q c = true) -> within l P a b -> within l Q a b.
Proof.
  intros Hpq HP i Hi. destruct (HP i Hi) as (ch & Hn & Hp).
  exists ch. auto.
Qed.

(** After a substitution, what is left of the text are characters outside
    [S]; the others have made way for the replacement. *)
Theorem sub_removes (P Q : ascii -> bool) repl s :
  forallb P s = true -> forallb Q repl = true ->
  (forall c, P c = true -> S c = false -> Q c = true) ->
  forallb Q (sub p repl s) = true.
Proof.
  intros Hs Hr Hpq. unfold sub, finditer.
  assert (Hgen : forall fuel from,
             (from <= String.length s)%nat -> (String.length s - from < fuel)%nat ->
             forallb Q (sub_from (finditer_from fuel p s from) repl s from) = true).
  { assert (Hkeep : forall a b, (a <= b)%nat -> (b <= String.length s)%nat ->
               within (to_list s) (fun c => negb (S c)) a b ->
               forallb Q (substring a (b - a) s) = true).
    { intros a b Hab Hb Hw. apply forallb_substring.
      replace (a + (b - a))%nat with b by lia.
      apply (within_impl (fun c => P c && negb (S c))).
      - intros c Hc. apply andb_true_iff in Hc as [Hp Hn].
        apply Hpq; [exact Hp|]. apply negb_true_iff. exact Hn.
      - apply within_and; [|exact Hw]. apply within_forallb; assumption. }
    induction fuel as [|f IH]; intros from Hfrom Hfuel; [lia|].
    cbn [finditer_from].
    replace (String.length s <? from)%nat with false
      by (symmetry; apply Nat.ltb_ge; lia).
    destruct (cursor_at_ok s from 0 None (to_list s) [] eq_refl eq_refl)
      as [Hl Hlen].
    pose proof (cursor_at_pos from 0 None (to_list s)
                  ltac:(rewrite length_to_list; lia)) as Hpos.
    cbn [Nat.add] in Hpos. rewrite Hpos in Hl, Hlen.
    pose proof (scan_skips s _ _ (c_prev (cursor_at from 0 None (to_list s)))
                  _ Hl Hlen) as Hskip.
    rewrite Hpos.
    destruct (scan p s from _ _) as [m|] eqn:Hscan; cbn [sub_from].
    - pose proof Hscan as Hhere.
      apply (LiteralFacts.scan_here _ _ _ _ _ _ _ Hl Hlen) in Hhere
        as (pre' & rest' & prev' & Hl' & Hm).
      apply (match_here_first S) in Hm as (_ & _ & _ & _ & Hlt);
        [|exact Hfirst | exists pre'; split; [exact Hl' | reflexivity]].
      apply (scan_ok any_char any_group p s
               (chars_ok_top _ _) (groups_ok_top _ _) _ _ _ _ _ Hl Hlen)
        in Hscan as [[_ Hspan _ _ _] Hge].
      replace (m_start_n m <? m_end_n m)%nat with true
        by (symmetry; apply Nat.ltb_lt; exact Hlt).
      rewrite !forallb_app, Hr.
      rewrite (Hkeep from (m_start_n m)) by (lia || exact Hskip).
      rewrite IH by lia. reflexivity.
    - apply (Hkeep from (String.length s)); [lia | lia | exact Hskip]. }
  apply Hgen; lia.
Qed.

(** A first character outside [S] stays the first character. *)
Theorem sub_keeps_head repl a s :
  S a = false -> exists rest, sub p repl (String a s) = String a rest.
Proof.
  intros Ha. unfold sub, finditer. cbn [String.length finditer_from Nat.ltb Nat.leb].
  cbn [to_list list_ascii_of_string cursor_at c_pos c_prev c_rest scan].
  destruct (match_here p (String a s) _) as [m|] eqn:Hm.
  { apply (match_here_first S) in Hm as (b & tl & Hrest & Hb & _);
      [|exact Hfirst | exists []; split; reflexivity].
    cbn in Hrest. injection Hrest as <- _. rewrite Ha in Hb. discriminate. }
  destruct (scan p (String a s) 1 (Some a) _) as [m'|] eqn:Hscan; cbn [sub_from].
  - apply (scan_ok any_char any_group p (String a s)
             (chars_ok_top _ _) (groups_ok_top _ _) _ _ _ _ [a] eq_refl eq_refl)
      in Hscan as [_ Hge].
    cbn [length] in Hge.
    rewrite Nat.sub_0_r. destruct (m_start_n m') as [|k] eqn:Hk; [lia|].
    cbn [substring append]. eauto.
  - cbn [String.length Nat.sub substring]. rewrite StrFacts.substring_all. eauto.
Qed.

End Substitution.

End RunFacts.

#[local] Opaque Re.search Re.match_start Re.finditer Re.sub.

(** ** Groups that capture one of a few words *)

#[local] Transparent Re.search Re.match_start Re.finditer Re.sub PyStr.lower.

Module GroupFacts.
Import PyStr Re ReFacts.

(** The words, in lower case, of a pattern made of literal characters,
    sequences and alternatives. *)
Fixpoint fin_lang (r : regex) : option (list string) :=
  match r with
  | Eps => Some [""]
  | Set_ false [CRange lo hi] =>
      if (lo =? hi)%char then Some [String (lower_char lo) ""] else None
  | Seq a b =>
      match fin_lang a, fin_lang b with
      | Some la, Some lb =>
          Some (flat_map (fun x => List.map (fun y => x ++ y) lb) la)
      | _, _ => None
      end
  | Alt a b =>
      match fin_lang a, fin_lang b with
      | Some la, Some lb => Some (la ++ lb)%list
      | _, _ => None
      end
  | _ => None
  end.

(** Group [g] is to capture a word of [W g], when [W g] is a list. *)
Fixpoint groups_fin (W : nat -> option (list string)) (r : regex) : bool :=
  match r with
  | Seq a b | Alt a b => groups_fin W a && groups_fin W b
  | Rep r' _ _ => groups_fin W r'
  | Grp g r' =>
      match W g with
      | None => groups_fin W r'
      | Some ws =>
          match fin_lang r' with
          | Some ws' => List.forallb (fun w => mem w ws) ws'
          | None => false
          end
      end
  | _ => true
  end.

Lemma literal_char icase a c :
  set_mem icase false [CRange a a] c = true -> lower_char c = lower_char a.
Proof.
  assert (H : List.forallb
                (fun a => List.forallb
                   (fun c =>
                      implb (set_mem true false [CRange a a] c
                             || set_mem false false [CRange a a] c)
                            (code (lower_char c) =? code (lower_char a)))
                   all_ascii) all_ascii = true) by (vm_compute; reflexivity).
  rewrite forallb_forall in H. specialize (H a (all_ascii_complete a)).
  rewrite forallb_forall in H. specialize (H c (all_ascii_complete c)).
  intros Hm.
  assert (Hor : set_mem true false [CRange a a] c
                || set_mem false false [CRange a a] c = true)
    by (destruct icase; rewrite Hm; auto using orb_true_r).
  rewrite Hor in H. cbn [implb] in H. apply Z.eqb_eq in H.
  rewrite (StrFacts.code_inj _ _ H).
  unfold chr, code. rewrite N2Z.id, ascii_N_embedding. reflexivity.
Qed.

Lemma lower_app (a b : string) : lower (a ++ b) = (lower a ++ lower b)%string.
Proof.
  unfold lower. induction a as [|c a IH]; cbn [append map]; [reflexivity|].
  rewrite IH. reflexivity.
Qed.

Lemma of_list_app (a b : list ascii) :
  of_list (a ++ b) = (of_list a ++ of_list b)%string.
Proof.
  unfold of_list. induction a as [|c a IH]; cbn; [reflexivity|].
  rewrite IH. reflexivity.
Qed.

Section Words.
Context {R : Type}.
Variable icase : bool.

(** A run of such a pattern consumes one of its words and leaves the
    captures as they were. *)
Theorem run_fin r :
  forall ws (k : @cont R) st c x,
    fin_lang r = Some ws -> run icase r k st c = Some x ->
    exists w st',
      c_rest st = (w ++ c_rest st')%list
      /\ c_pos st' = (c_pos st + length w)%nat
      /\ In (lower (of_list w)) ws /\ k st' c = Some x.
Proof.
  induction r as [| | |negated items|r1 IH1 r2 IH2|r1 IH1 r2 IH2|r' IH lo hi
                 |g r' IH| | |];
    intros ws k st c x Hw H; try discriminate Hw.
  - injection Hw as <-. cbn [run] in H. exists [], st.
    cbn. split; [reflexivity|]. split; [lia|]. split; [auto | exact H].
  - destruct negated; [discriminate Hw|].
    destruct items as [|[lo hi| | |] [|it items]]; try discriminate Hw.
    cbn [fin_lang] in Hw. destruct (lo =? hi)%char eqn:Heq; [|discriminate Hw].
    apply Ascii.eqb_eq in Heq. subst hi. injection Hw as <-.
    cbn [run] in H. destruct (c_rest st) as [|a tl] eqn:Hrest; [discriminate|].
    destruct (set_mem icase false [CRange lo lo] a) eqn:Hm; [|discriminate].
    apply literal_char in Hm.
    exists [a], (advance st a tl). cbn [advance c_rest c_pos app length].
    split; [reflexivity|]. split; [lia|]. split; [|exact H].
    left. cbn. rewrite Hm. reflexivity.
  - cbn [fin_lang] in Hw.
    destruct (fin_lang r1) as [la|]; [|discriminate Hw].
    destruct (fin_lang r2) as [lb|]; [|discriminate Hw].
    injection Hw as <-. cbn [run] in H.
    apply (IH1 _ _ _ _ _ eq_refl) in H as (w1 & st1 & Hr1 & Hp1 & Hin1 & H).
    apply (IH2 _ _ _ _ _ eq_refl) in H as (w2 & st2 & Hr2 & Hp2 & Hin2 & H).
    exists (w1 ++ w2)%list, st2.
    split; [rewrite Hr1, Hr2, app_assoc; reflexivity|].
    split; [rewrite length_app; lia|]. split; [|exact H].
    apply in_flat_map. exists (lower (of_list w1)). split; [exact Hin1|].
    apply in_map_iff. exists (lower (of_list w2)). split; [|exact Hin2].
    rewrite of_list_app, lower_app. reflexivity.
  - cbn [fin_lang] in Hw.
    destruct (fin_lang r1) as [la|]; [|discriminate Hw].
    destruct (fin_lang r2) as [lb|]; [|discriminate Hw].
    injection Hw as <-. cbn [run] in H.
    destruct (run icase r1 k st c) as [x0|] eqn:H1.
    + injection H as ->.
      apply (IH1 _ _ _ _ _ eq_refl) in H1 as (w & st' & Hr & Hp & Hin & H1).
      exists w, st'. repeat split; try assumption. apply in_or_app. auto.
    + apply (IH2 _ _ _ _ _ eq_refl) in H as (w & st' & Hr & Hp & Hin & H).
      exists w, st'. repeat split; try assumption. apply in_or_app. auto.
Qed.

Variable s : string.
Variable W : nat -> option (list string).

(** What a capture holds when its group is listed in [W]. *)
Definition entry_fin (e : nat * (nat * nat)) : Prop :=
  match W (fst e) with
  | None => True
  | Some ws =>
      In (lower (substring (fst (snd e)) (snd (snd e) - fst (snd e)) s)) ws
  end.

Definition inv (st : cursor) (c : caps) : Prop :=
  cursor_ok (to_list s) st /\ Forall entry_fin c.

Lemma rep_loop_inv_fin (body : @cont R -> cursor -> caps -> option R)
      lo hi (k : @cont R) :
  (forall (k' : @cont R) st c x, inv st c -> body k' st c = Some x ->
     exists st' c', inv st' c' /\ k' st' c' = Some x) ->
  forall fuel n st c x, inv st c ->
    rep_loop body lo hi k fuel n st c = Some x ->
    exists st' c', inv st' c' /\ k st' c' = Some x.
Proof.
  intros Hbody.
  assert (Hstop : forall n st c x, inv st c ->
            (if (lo <=? n)%nat then k st c else None) = Some x ->
            exists st' c', inv st' c' /\ k st' c' = Some x).
  { intros n st c x Hi H. destruct (lo <=? n)%nat; [|discriminate]. eauto. }
  induction fuel as [|f IH]; intros n st c x Hi H; cbn [rep_loop] in H.
  - eapply Hstop; eassumption.
  - destruct (under hi n); [|eapply Hstop; eassumption].
    match type of H with
    | match ?b with _ => _ end = _ => destruct b as [x0|] eqn:Hb
    end; [|eapply Hstop; eassumption].
    injection H as ->.
    apply (Hbody _ _ _ _ Hi) in Hb as (st1 & c1 & Hi1 & Hb).
    destruct (c_pos st <? c_pos st1)%nat; [|discriminate].
    eapply IH; eassumption.
Qed.

Lemma inv_advance st c a tl :
  inv st c -> c_rest st = a :: tl -> inv (advance st a tl) c.
Proof.
  intros [Hst Hc] Hrest. split; [|exact Hc].
  apply (cursor_ok_advance _ _ _ _ Hst Hrest).
Qed.

Theorem run_groups_fin r :
  forall (k : @cont R) st c x,
    groups_fin W r = true -> inv st c -> run icase r k st c = Some x ->
    exists st' c', inv st' c' /\ k st' c' = Some x.
Proof.
  induction r as [| | |negated items|r1 IH1 r2 IH2|r1 IH1 r2 IH2|r' IH lo hi
                 |g r' IH| | |];
    intros k st c x Hg Hi H; cbn [run] in H.
  - eauto.
  - discriminate.
  - destruct (c_rest st) as [|a tl] eqn:Hrest; [discriminate|].
    destruct (code a =? 10); [discriminate|].
    exists (advance st a tl), c. split; [|exact H].
    eapply inv_advance; eassumption.
  - destruct (c_rest st) as [|a tl] eqn:Hrest; [discriminate|].
    destruct (set_mem icase negated items a); [|discriminate].
    exists (advance st a tl), c. split; [|exact H].
    eapply inv_advance; eassumption.
  - cbn [groups_fin] in Hg. apply andb_true_iff in Hg as [Hg1 Hg2].
    apply (IH1 _ _ _ _ Hg1 Hi) in H as (st1 & c1 & Hi1 & H).
    eapply IH2; eassumption.
  - cbn [groups_fin] in Hg. apply andb_true_iff in Hg as [Hg1 Hg2].
    destruct (run icase r1 k st c) as [x0|] eqn:H1.
    + injection H as ->. eapply IH1; eassumption.
    + eapply IH2; eassumption.
  - cbn [groups_fin] in Hg.
    eapply (rep_loop_inv_fin (run icase r')); [|exact Hi | exact H].
    intros k' st0 c0 x0 Hi0 H0. eapply IH; eassumption.
  - cbn [groups_fin] in Hg.
    destruct (W g) as [ws|] eqn:Hw.
    + destruct (fin_lang r') as [ws'|] eqn:Hl; [|discriminate Hg].
      apply (run_fin _ _ _ _ _ _ Hl) in H as (w & st' & Hrest & Hpos & Hin & H).
      exists st', ((g, (c_pos st, c_pos st')) :: c). split; [|exact H].
      destruct Hi as [(pre & Hpre & Hlen) Hc].
      assert (Hs : to_list s = (pre ++ to_list (of_list w) ++ c_rest st')%list).
      { rewrite Hpre, Hrest. unfold to_list, of_list.
        rewrite list_ascii_of_string_of_list_ascii. reflexivity. }
      split.
      * exists (pre ++ w)%list. split.
        -- rewrite Hpre, Hrest, app_assoc. reflexivity.
        -- rewrite length_app. lia.
      * constructor; [|exact Hc]. unfold entry_fin. cbn [fst snd].
        rewrite Hw.
        replace (c_pos st' - c_pos st)%nat with (String.length (of_list w)).
        2:{ rewrite <- length_to_list. unfold to_list, of_list.
            rewrite list_ascii_of_string_of_list_ascii. lia. }
        rewrite <- Hlen. rewrite (LiteralFacts.substring_at _ _ _ _ Hs).
        rewrite forallb_forall in Hg. specialize (Hg _ Hin).
        unfold mem in Hg. apply existsb_exists in Hg as (y & Hy & Heq).
        apply String.eqb_eq in Heq. subst y. exact Hy.
    + apply (IH _ _ _ _ Hg Hi) in H as (st' & c' & [Hst' Hc'] & H).
      exists st', ((g, (c_pos st, c_pos st')) :: c'). split; [|exact H].
      split; [exact Hst'|]. constructor; [|exact Hc'].
      unfold entry_fin. cbn [fst]. rewrite Hw. exact I.
  - destruct (at_boundary st); [|discriminate]. eauto.
  - destruct (c_pos st =? 0)%nat; [|discriminate]. eauto.
  - destruct (at_end st); [|discriminate]. eauto.
Qed.

End Words.

(** What holds of the groups of a match object. *)
Definition words_ok (W : nat -> option (list string)) (m : match_) : Prop :=
  forall g ws txt, W g = Some ws -> group m g = Some txt -> In (lower txt) ws.

Lemma match_here_words W p s st m :
  groups_fin W (p_re p) = true ->
  cursor_ok (to_list s) st -> match_here p s st = Some m -> words_ok W m.
Proof.
  intros Hg Hst H. unfold match_here in H.
  apply (run_groups_fin (p_icase p) s W _ _ _ _ _ Hg) in H;
    [|split; [exact Hst | constructor]].
  destruct H as (st' & c' & [_ Hc] & H). injection H as <-.
  intros g ws txt Hw. unfold group. cbn [m_caps m_string].
  destruct (cap_lookup g c') as [[a b]|] eqn:Hlk; [|discriminate].
  intros Ht. injection Ht as <-. apply cap_lookup_In in Hlk.
  rewrite Forall_forall in Hc. specialize (Hc _ Hlk).
  unfold entry_fin in Hc. cbn [fst snd] in Hc. rewrite Hw in Hc. exact Hc.
Qed.

Theorem finditer_words W p s :
  groups_fin W (p_re p) = true -> Forall (words_ok W) (finditer p s).
Proof.
  intros Hg. unfold finditer. generalize (S (String.length s)) as fuel.
  generalize 0%nat as from. intros from fuel. revert from.
  induction fuel as [|f IH]; intros from; cbn [finditer_from]; [constructor|].
  destruct (String.length s <? from)%nat; [constructor|].
  destruct (scan p s _ _ _) as [m|] eqn:Hm; [|constructor].
  constructor; [|apply IH].
  destruct (cursor_at_ok s from 0 None (to_list s) [] eq_refl eq_refl) as [Hl Hlen].
  apply (LiteralFacts.scan_here _ _ _ _ _ _ _ Hl Hlen) in Hm
    as (pre' & rest' & prev' & Hl' & Hm).
  eapply match_here_words; [exact Hg | | exact Hm].
  exists pre'. split; [exact Hl' | reflexivity].
Qed.

End GroupFacts.

#[local] Opaque Re.search Re.match_start Re.finditer Re.sub PyStr.lower.

Section BalanceCurrency.
Import PyStr.

(** Only the first group of the balance pattern is constrained. *)
Definition balance_words (g : nat) : option (list string) :=
  if (g =? 1)%nat then Some balance_currency_words else None.

Lemma currency_word_code word default :
  In (lower word) balance_currency_words ->
  In (currency_get CURRENCY_CODES (lower word) default) balance_currency_codes.
Proof.
  unfold balance_currency_words, balance_currency_codes. cbn [In].
  intros [<-|[<-|[<-|[<-|[<-|[]]]]]];
    unfold CURRENCY_CODES;
    cbn [currency_get String.eqb Ascii.eqb Bool.eqb]; auto.
Qed.

Lemma collect_balances_currency ms :
  Forall (GroupFacts.words_ok balance_words) ms ->
  forall l, collect_balances ms = Ok l ->
  Forall (fun b => snd (fst b) = "INR"
                   \/ In (lower (snd (fst b))) balance_currency_words) l.
Proof.
  induction 1 as [|m tl Hm _ IH]; intros l; cbn [collect_balances].
  - intros H. injection H as <-. constructor.
  - destruct (group_str m 2) as [g|e]; cbn [bind]; [|discriminate].
    destruct (collect_balances tl) as [rest|e]; cbn [bind]; [|discriminate].
    specialize (IH rest eq_refl).
    destruct (PyFloat.of_string _) as [amount|];
      intros H; injection H as <-; [|exact IH].
    constructor; [|exact IH]. cbn [fst snd].
    destruct (Re.group m 1) as [[|c0 c]|] eqn:Hg; auto.
    right. apply (Hm 1%nat _ _ eq_refl Hg).
Qed.

(** X18. The currency of a balance that [extract_balance] returns is one
    of INR, USD, AED and EUR: the currency group of the balance pattern
    reads only "rs", "inr", "usd", "aed" and "eur" (in any case), each a key
    of [CURRENCY_CODES], so that the default of the lookup, the word in
    upper case, is never used. *)
Theorem balance_currency text b :
  extract_balance text = Ok (Some b) ->
  In (currency b) balance_currency_codes.
Proof.
  unfold extract_balance.
  destruct (collect_balances (Re.finditer Patterns.balance text))
    as [balances|e] eqn:Hc; cbn [bind]; [|discriminate].
  destruct (sort_by snd balances) as [|[[amount cur] pos] tl] eqn:Hs;
    [discriminate|].
  intros H. injection H as <-. cbn [currency money].
  apply sort_by_head in Hs.
  pose proof (collect_balances_currency _
                (GroupFacts.finditer_words balance_words Patterns.balance text
                   ltac:(vm_compute; reflexivity)) _ Hc) as Hall.
  rewrite Forall_forall in Hall. specialize (Hall _ Hs). cbn [fst snd] in Hall.
  destruct Hall as [-> | Hin].
  - vm_compute. auto.
  - apply currency_word_code. exact Hin.
Qed.

End BalanceCurrency.

(** ** The text that the classifier scans *)

#[local] Transparent PyStr.lower PyStr.strip.

Module CaseFacts.
Import PyStr.

(** A property of all 256 characters, checked on each. *)
Lemma all_chars (F : ascii -> bool) :
  List.forallb F Re.all_ascii = true -> forall c, F c = true.
Proof.
  rewrite forallb_forall. intros H c. apply H. apply ReFacts.all_ascii_complete.
Qed.

Lemma forallb_map (P : ascii -> bool) f s :
  (forall c, P (f c) = true) -> forallb P (map f s) = true.
Proof.
  intros H. induction s as [|c s IH]; cbn [map forallb]; [reflexivity|].
  rewrite H, IH. reflexivity.
Qed.

Lemma lower_no_capital s : forallb (fun c => negb (is_upper c)) (lower s) = true.
Proof.
  unfold lower. apply forallb_map.
  apply (all_chars (fun c => negb (is_upper (lower_char c)))).
  vm_compute. reflexivity.
Qed.

Lemma append_assoc (a b c : string) : ((a ++ b) ++ c = a ++ (b ++ c))%string.
Proof.
  induction a as [|x a IH]; cbn [append]; [reflexivity|]. rewrite IH. reflexivity.
Qed.

Lemma rev_acc_app s :
  forall acc, rev_acc s acc = (rev_acc s "" ++ acc)%string.
Proof.
  induction s as [|c s IH]; intros acc; cbn [rev_acc]; [reflexivity|].
  rewrite IH, (IH (String c "")). rewrite append_assoc. reflexivity.
Qed.

Lemma lstrip_snoc s a :
  isspace a = false -> exists y, lstrip (s ++ String a "") = (y ++ String a "")%string.
Proof.
  intros Ha. induction s as [|c s IH]; cbn [append lstrip].
  - rewrite Ha. exists "". reflexivity.
  - destruct (isspace c); [exact IH|]. exists (String c s). reflexivity.
Qed.

Lemma rev_acc_snoc y a :
  forall acc, rev_acc (y ++ String a "") acc = String a (rev_acc y acc).
Proof.
  induction y as [|c y IH]; intros acc; cbn [append rev_acc];
    [reflexivity | apply IH].
Qed.

Lemma rev_snoc y a : rev (y ++ String a "") = String a (rev y).
Proof. unfold rev. apply rev_acc_snoc. Qed.

(** Stripping keeps a first character that is no white space. *)
Lemma strip_keeps_head a s :
  isspace a = false -> exists rest, strip (String a s) = String a rest.
Proof.
  intros Ha. unfold strip. cbn [lstrip]. rewrite Ha.
  unfold rev at 2. cbn [rev_acc]. rewrite rev_acc_app.
  destruct (lstrip_snoc (rev_acc s "") a Ha) as [y ->].
  rewrite rev_snoc. eauto.
Qed.

Lemma forallb_upper (Q T : ascii -> bool) s :
  (forall c, Q c = true -> (code c =? 223) = false /\ T (upper_char c) = true) ->
  forallb Q s = true -> forallb T (upper s) = true.
Proof.
  intros H. induction s as [|c s IH]; cbn [upper forallb]; [reflexivity|].
  intros Hs. apply andb_true_iff in Hs as [Hc Hs].
  destruct (H c Hc) as [H223 Ht]. rewrite H223. cbn [forallb].
  rewrite Ht, IH by exact Hs. reflexivity.
Qed.

End CaseFacts.

#[local] Opaque PyStr.lower PyStr.strip.

Section Normalize.
Import PyStr.

Lemma normalize_plain text : forallb plain_char (normalize text) = true.
Proof.
  unfold normalize. apply FloatFacts.forallb_strip.
  apply RunFacts.sub_chars; [|reflexivity].
  apply (RunFacts.sub_removes
           (fun c => negb (is_word c || isspace c)) (Re.compile "[^\w\s]")
           ltac:(vm_compute; reflexivity) ltac:(vm_compute; reflexivity)
           (fun c => negb (is_upper c)) plain_char).
  - apply CaseFacts.lower_no_capital.
  - reflexivity.
  - intros c Hc Hs. unfold plain_char. rewrite Hc.
    apply negb_false_iff in Hs. rewrite Hs. reflexivity.
Qed.

(** X15. The text in which [detect_category] looks for keywords has been
    lower-cased and rid of punctuation, so a keyword or alias that holds a
    punctuation mark or a capital is never found: the loan keywords
    "pre-approved" and "loan a/c", the recharge keyword "top-up" and the
    alias "cRED" are of that kind. *)
Theorem punctuated_keywords_dead text :
  (forall kw, forallb plain_char kw = false ->
     contains kw (normalize text) = false)
  /\ contains "pre-approved" (normalize text) = false
  /\ contains "loan a/c" (normalize text) = false
  /\ contains "top-up" (normalize text) = false
  /\ contains "cRED" (normalize text) = false.
Proof.
  assert (H : forall kw, forallb plain_char kw = false ->
                contains kw (normalize text) = false).
  { intros kw Hkw. destruct (contains kw (normalize text)) eqn:Hc; [|reflexivity].
    rewrite (SubstringFacts.forallb_contains _ _ _ (normalize_plain text) Hc)
      in Hkw.
    discriminate Hkw. }
  split; [exact H|]. repeat split; apply H; vm_compute; reflexivity.
Qed.

End Normalize.

(** ** Dates written with separators *)

Section StandardDates.
Import PyStr PyDate.

Definition no_dot (c : ascii) : bool := negb (c =? ".")%char.

(** A format with dots between its fields reads no text without a dot. *)
Lemma strptime_dotted data fmt :
  In fmt ["%d.%m.%Y"; "%m.%d.%Y"] ->
  forallb no_dot data = true -> strptime data fmt = None.
Proof.
  intros Hfmt Hd. unfold strptime.
  destruct (format_re (to_list fmt) false) as [[re_text ds]|] eqn:Hf;
    [|reflexivity].
  destruct (Re.match_start (Re.compile_i re_text) data) as [m|] eqn:Hm;
    [|reflexivity].
  exfalso.
  apply (RunFacts.match_start_needs (fun c => (c =? ".")%char)) in Hm.
  - destruct Hm as (ch & Hin & Hch).
    rewrite FloatFacts.forallb_to_list in Hd. rewrite forallb_forall in Hd.
    specialize (Hd ch Hin). unfold no_dot in Hd. rewrite Hch in Hd.
    discriminate Hd.
  - destruct Hfmt as [<-|[<-|[]]]; vm_compute in Hf; injection Hf as <- _;
      vm_compute; reflexivity.
Qed.

Lemma digits_no_dot s : forallb is_digit s = true -> forallb no_dot s = true.
Proof.
  induction s as [|c s IH]; cbn [forallb]; [reflexivity|].
  intros H. apply andb_true_iff in H as [Hc Hs]. rewrite IH by exact Hs.
  pose proof (CaseFacts.all_chars (fun c => implb (is_digit c) (no_dot c))
                ltac:(vm_compute; reflexivity) c) as Hi.
  cbv beta in Hi. rewrite Hc in Hi. cbn [implb] in Hi. rewrite Hi. reflexivity.
Qed.

Lemma full_year_no_dot year :
  forallb is_digit year = true -> forallb no_dot (full_year year) = true.
Proof.
  intros H. apply digits_no_dot in H. unfold full_year.
  destruct (len year =? 2); [|exact H].
  destruct (int_ year <? 50); cbn [append forallb]; rewrite H; reflexivity.
Qed.

Lemma first_format_day_first s :
  forallb no_dot s = true -> first_format s standard_formats = day_first s.
Proof.
  intros Hs. unfold standard_formats, day_first. cbn [first_format].
  change (replace "-" " " (replace "/" " " "%d/%m/%Y")) with "%d %m %Y".
  change (replace "-" " " (replace "/" " " "%m/%d/%Y")) with "%m %d %Y".
  change (replace "-" " " (replace "/" " " "%d-%m-%Y")) with "%d %m %Y".
  change (replace "-" " " (replace "/" " " "%m-%d-%Y")) with "%m %d %Y".
  change (replace "-" " " (replace "/" " " "%d.%m.%Y")) with "%d.%m.%Y".
  change (replace "-" " " (replace "/" " " "%m.%d.%Y")) with "%m.%d.%Y".
  destruct (reformat s "%d %m %Y") as [d|]; [reflexivity|].
  destruct (reformat s "%m %d %Y") as [d|]; [reflexivity|].
  unfold reformat.
  rewrite (strptime_dotted s "%d.%m.%Y") by (cbn; auto).
  rewrite (strptime_dotted s "%m.%d.%Y") by (cbn; auto).
  reflexivity.
Qed.

(** X16. Of the six formats that [extract_date] tries on a date written
    with separators, the first two decide: the date is read day first, and
    month first only when that gives no date.  The formats with dashes
    become the same as those with slashes once both are rewritten to
    spaces, and the formats with dots never read the space-separated
    fields. *)
Theorem standard_date_day_first text :
  standard_date text
  = match Re.search Patterns.date_standard text with
    | Some m =>
        parts <- groups3 m ;;
        let '(p0, p1, p2) := parts in
        Ok (day_first (p0 ++ " " ++ p1 ++ " " ++ full_year p2))
    | None => falls_through
    end.
Proof.
  unfold standard_date.
  destruct (Re.search Patterns.date_standard text) as [m|] eqn:Hs;
    [|reflexivity].
  pose proof (ReFacts.search_ok (fun _ => true) (fun _ c => is_digit c)
                Patterns.date_standard text (ReFacts.chars_ok_top _ _)
                ltac:(vm_compute; reflexivity) m Hs) as [_ _ _ Hg _].
  unfold groups3.
  destruct (Re.group m 1) as [p0|] eqn:H0; [|reflexivity].
  destruct (Re.group m 2) as [p1|] eqn:H1; [|reflexivity].
  destruct (Re.group m 3) as [p2|] eqn:H2; [|reflexivity].
  cbn [bind]. rewrite first_format_day_first; [reflexivity|].
  apply Hg in H0, H1, H2.
  rewrite !RunFacts.forallb_app.
  rewrite (digits_no_dot _ H0), (digits_no_dot _ H1), (full_year_no_dot _ H2).
  reflexivity.
Qed.

End StandardDates.

(** ** The year that [strptime] reads *)

#[local] Transparent Re.search Re.match_start Re.finditer Re.sub.

Module YearFacts.
Import PyStr PyDate Re ReFacts.

(** The number of characters that every match of a pattern without groups,
    alternatives and repetitions consumes. *)
Fixpoint fixed_width (r : regex) : option nat :=
  match r with
  | Eps => Some 0%nat
  | Dot | Set_ _ _ => Some 1%nat
  | Seq a b =>
      match fixed_width a, fixed_width b with
      | Some x, Some y => Some (x + y)%nat
      | _, _ => None
      end
  | _ => None
  end.

(** The pattern ends with group [g], and the group has [w] characters. *)
Fixpoint tail_group (g w : nat) (r : regex) : bool :=
  match r with
  | Seq _ b => tail_group g w b
  | Grp g' body =>
      (g' =? g)%nat
      && match fixed_width body with
         | Some w' => (w' =? w)%nat
         | None => false
         end
  | _ => false
  end.

Lemma groups_fin_none r : GroupFacts.groups_fin (fun _ => None) r = true.
Proof.
  induction r; cbn [GroupFacts.groups_fin]; try reflexivity;
    try assumption; rewrite ?IHr1, ?IHr2; reflexivity.
Qed.

Section Tail.
Context {R : Type}.
Variable icase : bool.

Lemma run_fixed_width r :
  forall w (k : @cont R) st c x,
    fixed_width r = Some w -> run icase r k st c = Some x ->
    exists st', c_pos st' = (c_pos st + w)%nat /\ k st' c = Some x.
Proof.
  induction r as [| | |negated items|r1 IH1 r2 IH2|r1 IH1 r2 IH2|r' IH lo hi
                 |g r' IH| | |];
    intros w k st c x Hw H; try discriminate Hw; cbn [run] in H.
  - injection Hw as <-. exists st. split; [lia | exact H].
  - injection Hw as <-.
    destruct (c_rest st) as [|a tl]; [discriminate|].
    destruct (code a =? 10); [discriminate|].
    exists (advance st a tl). split; [cbn [advance c_pos]; lia | exact H].
  - injection Hw as <-.
    destruct (c_rest st) as [|a tl]; [discriminate|].
    destruct (set_mem icase negated items a); [|discriminate].
    exists (advance st a tl). split; [cbn [advance c_pos]; lia | exact H].
  - cbn [fixed_width] in Hw.
    destruct (fixed_width r1) as [w1|]; [|discriminate Hw].
    destruct (fixed_width r2) as [w2|]; [|discriminate Hw].
    injection Hw as <-.
    apply (IH1 _ _ _ _ _ eq_refl) in H as (st1 & Hp1 & H).
    apply (IH2 _ _ _ _ _ eq_refl) in H as (st2 & Hp2 & H).
    exists st2. split; [lia | exact H].
Qed.

Variable s : string.

(** The last group of a match ends where the match ends. *)
Lemma run_tail_group g w r :
  forall (k : @cont R) st c x,
    tail_group g w r = true -> cursor_ok (to_list s) st ->
    run icase r k st c = Some x ->
    exists st' c',
      cap_lookup g c' = Some ((c_pos st' - w)%nat, c_pos st')
      /\ (w <= c_pos st')%nat /\ k st' c' = Some x.
Proof.
  induction r as [| | |negated items|r1 IH1 r2 IH2|r1 IH1 r2 IH2|r' IH lo hi
                 |g' r' IH| | |];
    intros k st c x Ht Hst H; try discriminate Ht; cbn [tail_group] in Ht.
  - cbn [run] in H.
    apply (GroupFacts.run_groups_fin icase s (fun _ => None)) in H.
    + destruct H as (st1 & c1 & [Hst1 _] & H). eapply IH2; eassumption.
    + apply groups_fin_none.
    + split; [exact Hst|]. apply Forall_forall. intros e _. exact I.
  - apply andb_true_iff in Ht as [Hg Hw]. apply Nat.eqb_eq in Hg. subst g'.
    destruct (fixed_width r') as [w'|] eqn:Hf; [|discriminate Hw].
    apply Nat.eqb_eq in Hw. subst w'. cbn [run] in H.
    apply (run_fixed_width _ _ _ _ _ _ Hf) in H as (st' & Hp & H).
    exists st', ((g, (c_pos st, c_pos st')) :: c).
    split; [|split; [lia | exact H]].
    cbn [cap_lookup]. rewrite Nat.eqb_refl.
    replace (c_pos st' - w)%nat with (c_pos st) by lia. reflexivity.
Qed.

End Tail.

Lemma match_start_tail p s g w m :
  tail_group g w (p_re p) = true -> match_start p s = Some m ->
  group m g = Some (substring (m_end_n m - w) w s).
Proof.
  intros Ht H. unfold match_start, match_here in H.
  apply (run_tail_group (p_icase p) s g w _ _ _ _ _ Ht) in H.
  - destruct H as (st' & c' & Hlk & Hle & H). injection H as <-.
    unfold group. cbn [m_caps m_string m_end_n]. rewrite Hlk.
    replace (c_pos st' - (c_pos st' - w))%nat with w by lia. reflexivity.
  - exists []. split; reflexivity.
Qed.

Lemma make_year y mo d t : make y mo d 0 0 0 0 = Some t -> year t = y.
Proof.
  unfold make. destruct (bool_dec _ _); [|discriminate].
  intros H. injection H as <-. reflexivity.
Qed.

(** The formats of [extract_date], their separators rewritten to spaces. *)
Definition year_last_formats : list string :=
  ["%d %b %Y"; "%d %m %Y"; "%m %d %Y"; "%d %B %Y"].

Lemma strptime_year_of data fmt re_text ds t :
  format_re (to_list fmt) false = Some (re_text, ds) ->
  tail_group 3 4 (p_re (compile_i re_text)) = true ->
  ds = ["d"; "b"; "Y"]%char \/ ds = ["d"; "m"; "Y"]%char
  \/ ds = ["m"; "d"; "Y"]%char \/ ds = ["d"; "B"; "Y"]%char ->
  strptime data fmt = Some t ->
  year t = int_ (substring (String.length data - 4) 4 data).
Proof.
  intros Hf Ht Hds H. unfold strptime in H. rewrite Hf in H.
  destruct (match_start (compile_i re_text) data) as [m|] eqn:Hm;
    [|discriminate].
  destruct (m_end m =? len data) eqn:He; [|discriminate].
  apply Z.eqb_eq in He. unfold m_end, len in He. apply Nat2Z.inj in He.
  pose proof (match_start_tail _ _ _ _ _ Ht Hm) as Hg. rewrite He in Hg.
  destruct (fields m ds 1 (1900, 1, 1)) as [[[y mo] d]|] eqn:Hfl;
    [|discriminate].
  apply make_year in H. rewrite H.
  destruct Hds as [-> | [-> | [-> | ->]]]; cbn [fields] in Hfl;
    destruct (group m 1) as [t1|]; try discriminate Hfl;
    destruct (group m 2) as [t2|]; try discriminate Hfl;
    rewrite Hg in Hfl;
    repeat match type of Hfl with
           | match ?o with _ => _ end = _ => destruct o; try discriminate Hfl
           end;
    injection Hfl as <- _ _; reflexivity.
Qed.

(** With one of these formats the year is read off the last four
    characters. *)
Theorem strptime_year data fmt t :
  In fmt year_last_formats -> strptime data fmt = Some t ->
  year t = int_ (substring (String.length data - 4) 4 data).
Proof.
  intros Hfmt H.
  destruct Hfmt as [<-|[<-|[<-|[<-|[]]]]];
    match type of H with
    | strptime _ ?f = _ =>
        let v := eval vm_compute in (format_re (to_list f) false) in
        match v with
        | Some (?re_text, ?ds) =>
            apply (strptime_year_of data f re_text ds t);
            [vm_compute; reflexivity | vm_compute; reflexivity
            | cbn; auto | exact H]
        end
    end.
Qed.

Lemma length_append (a b : string) :
  String.length (a ++ b) = (String.length a + String.length b)%nat.
Proof. induction a as [|c a IH]; cbn; [reflexivity | rewrite IH; reflexivity]. Qed.

Lemma substring_suffix (a b : string) :
  substring (String.length (a ++ b) - String.length b) (String.length b) (a ++ b)
  = b.
Proof.
  rewrite length_append.
  replace (String.length a + String.length b - String.length b)%nat
    with (String.length a) by lia.
  induction a as [|c a IH]; cbn [append String.length substring].
  - clear. induction b as [|c b IH]; cbn [String.length substring];
      [reflexivity | rewrite IH; reflexivity].
  - exact IH.
Qed.

(** The year read off a text that ends with four characters [y]. *)
Lemma reformat_year (a y : string) fmt d :
  In fmt year_last_formats -> String.length y = 4%nat ->
  reformat (a ++ y) fmt = Some d ->
  exists t, d = strftime_ymd t /\ year t = int_ y.
Proof.
  intros Hfmt Hy H. unfold reformat in H.
  destruct (strptime (a ++ y) fmt) as [t|] eqn:Ht; [|discriminate].
  injection H as <-. exists t. split; [reflexivity|].
  rewrite (strptime_year _ _ _ Hfmt Ht). rewrite <- Hy.
  rewrite substring_suffix. reflexivity.
Qed.

End YearFacts.

#[local] Opaque Re.search Re.match_start Re.finditer Re.sub.

Section YearWindow.
Import PyStr PyDate.

(** Group 3 of the date patterns is made of digits. *)
Definition year_digits (g : nat) (c : ascii) : bool :=
  if (g =? 3)%nat then is_digit c else true.

Lemma dated day month year d fmt :
  In fmt YearFacts.year_last_formats ->
  len year = 2 -> forallb is_digit year = true ->
  reformat (day ++ " " ++ month ++ " " ++ full_year year) fmt = Some d ->
  exists t,
    d = strftime_ymd t
    /\ PyDate.year t = (if int_ year <? 50 then 2000 else 1900) + int_ year
    /\ 1950 <= PyDate.year t <= 2049.
Proof.
  intros Hfmt Hlen Hd H.
  destruct (full_year_value year Hlen Hd) as (Hl & Hv & Hr).
  replace (day ++ " " ++ month ++ " " ++ full_year year)
    with ((day ++ " " ++ month ++ " ") ++ full_year year) in H
    by (rewrite !CaseFacts.append_assoc; reflexivity).
  apply (YearFacts.reformat_year _ _ _ _ Hfmt Hl) in H as (t & -> & Hy).
  exists t. split; [reflexivity|]. rewrite Hy. split; [exact Hv | exact Hr].
Qed.

(** X12. A date written with a two-digit year is read in the window
    1950-2049.  When no relative word occurs in the text and the compact
    pattern (15May25), or failing it the standard pattern (15/05/25), reads
    a date whose year group has two digits, [extract_date] returns that date,
    and its year is 2000 plus the two digits when they are below 50, and
    1900 plus the two digits from 50 on. *)
Theorem two_digit_year_window text ts now m yy d :
  (forall rel_date offset, In (rel_date, offset) relative_dates ->
     contains rel_date (lower text) = false) ->
  Re.group m 3 = Some yy -> len yy = 2 ->
  (Re.search Patterns.date_compact text = Some m
   /\ compact_date text = Ok (Some d))
  \/ (compact_date text = Ok None
      /\ Re.search Patterns.date_standard text = Some m
      /\ standard_date text = Ok (Some d)) ->
  extract_date text ts now = Ok d
  /\ exists t,
       d = strftime_ymd t
       /\ year t = (if int_ yy <? 50 then 2000 else 1900) + int_ yy
       /\ 1950 <= year t <= 2049.
Proof.
  intros Hrel Hg Hlen Hcase. split.
  - unfold extract_date.
    rewrite (relative_date_absent _ _ _ _ Hrel), or_else_None.
    destruct Hcase as [[_ Hc]|(Hc & _ & Hs)].
    + rewrite Hc. reflexivity.
    + rewrite Hc, or_else_None, Hs. reflexivity.
  - destruct Hcase as [[Hm Hc]|(_ & Hm & Hs)].
    + pose proof (ReFacts.search_ok (fun _ => true) year_digits
                    Patterns.date_compact text (ReFacts.chars_ok_top _ _)
                    ltac:(vm_compute; reflexivity) m Hm) as [_ _ _ Hq _].
      specialize (Hq 3%nat yy Hg). cbn in Hq.
      unfold compact_date in Hc. rewrite Hm in Hc. unfold groups3 in Hc.
      destruct (Re.group m 1) as [p0|]; [|discriminate Hc].
      destruct (Re.group m 2) as [p1|]; [|discriminate Hc].
      rewrite Hg in Hc. cbn [bind] in Hc. apply Ok_inj in Hc.
      apply (dated p0 p1 yy d "%d %b %Y"); try assumption.
      cbn; auto.
    + pose proof (ReFacts.search_ok (fun _ => true) (fun _ c => is_digit c)
                    Patterns.date_standard text (ReFacts.chars_ok_top _ _)
                    ltac:(vm_compute; reflexivity) m Hm) as [_ _ _ Hq _].
      unfold standard_date in Hs. rewrite Hm in Hs. unfold groups3 in Hs.
      destruct (Re.group m 1) as [p0|] eqn:H0; [|discriminate Hs].
      destruct (Re.group m 2) as [p1|] eqn:H1; [|discriminate Hs].
      rewrite Hg in Hs. cbn [bind] in Hs. apply Ok_inj in Hs.
      pose proof (Hq _ _ H0) as Hd0. pose proof (Hq _ _ H1) as Hd1.
      pose proof (Hq _ _ Hg) as Hd2.
      rewrite first_format_day_first in Hs.
      2:{ rewrite !RunFacts.forallb_app.
          rewrite (digits_no_dot _ Hd0), (digits_no_dot _ Hd1),
                  (full_year_no_dot _ Hd2). reflexivity. }
      unfold day_first in Hs.
      destruct (reformat _ "%d %m %Y") as [d'|] eqn:Hr.
      * injection Hs as <-.
        apply (dated p0 p1 yy d' "%d %m %Y"); try assumption.
        cbn; auto.
      * apply (dated p0 p1 yy d "%m %d %Y"); try assumption.
        cbn; auto.
Qed.

End YearWindow.

(** ** References *)

Section References.
Import PyStr.

(** What the reference pattern can consume: ASCII letters and digits, the
    colon, the hyphen and white space. *)
Definition reference_char (c : ascii) : bool :=
  is_ascii_alpha c || is_digit c || (c =? ":")%char || (c =? "-")%char
  || isspace c.

Definition colon_or_hyphen (c : ascii) : bool := (c =? ":")%char || (c =? "-")%char.

(** Letters, digits and white space; letters, digits and the space. *)
Definition spaced (c : ascii) : bool := is_ascii_alpha c || is_digit c || isspace c.
Definition single_spaced (c : ascii) : bool :=
  is_ascii_alpha c || is_digit c || (c =? " ")%char.

Ltac char_fact F :=
  let H := fresh "H" in
  pose proof (CaseFacts.all_chars F ltac:(vm_compute; reflexivity)) as H;
  cbv beta in H.

(** X17. A reference that [extract_reference] returns is made of ASCII
    capitals, digits and single-space characters only (no colon, hyphen,
    tab or lower-case letter is left), and it begins with a capital
    letter: it is never empty. *)
Theorem reference_shape text ref :
  extract_reference text = Some ref ->
  forallb ref_char ref = true
  /\ exists c rest, ref = String c rest /\ is_ascii_upper c = true.
Proof.
  unfold extract_reference.
  destruct (Re.search Patterns.reference text) as [m|] eqn:Hs; [|discriminate].
  intros H. injection H as <-.
  (* the matched text *)
  pose proof (ReFacts.search_ok reference_char (fun _ _ => true)
                Patterns.reference text ltac:(vm_compute; reflexivity)
                (ReFacts.groups_ok_top _ _) m Hs) as [_ _ _ _ Hwhole].
  destruct (RunFacts.search_first is_ascii_alpha Patterns.reference text m
              ltac:(vm_compute; reflexivity) Hs) as (a & g & Hg0 & Ha).
  rewrite Hg0 in *.
  char_fact (fun c => implb (is_ascii_alpha c)
                        (negb (colon_or_hyphen c) && negb (isspace c)
                         && negb (code c =? 223)
                         && is_ascii_upper (upper_char c))).
  specialize (H a). rewrite Ha in H. cbn [implb] in H.
  repeat (apply andb_true_iff in H as [H ?]).
  repeat match goal with
         | Hn : negb _ = true |- _ => apply negb_true_iff in Hn
         end.
  (* colons and hyphens, with the white space after them, become a space *)
  set (p1 := Re.compile "[:\-]\s*").
  assert (F1 : RunFacts.first_ok (Re.p_icase p1) colon_or_hyphen (Re.p_re p1) = true)
    by (vm_compute; reflexivity).
  assert (C1 : RunFacts.head_complete (Re.p_icase p1) colon_or_hyphen (Re.p_re p1)
               = true) by (vm_compute; reflexivity).
  destruct (RunFacts.sub_keeps_head colon_or_hyphen p1 F1 " " a g H)
    as [r1 Hr1].
  assert (Q1 : forallb spaced (Re.sub p1 " " (String a g)) = true).
  { apply (RunFacts.sub_removes colon_or_hyphen p1 F1 C1 reference_char spaced);
      [exact Hwhole | reflexivity|].
    intros c Hc Hn. unfold reference_char in Hc. unfold colon_or_hyphen in Hn.
    apply orb_false_iff in Hn as [Hn1 Hn2]. unfold spaced.
    rewrite Hn1, Hn2 in Hc. rewrite !orb_false_r in Hc. exact Hc. }
  rewrite Hr1 in *.
  (* runs of white space become one space *)
  set (p2 := Re.compile "\s+").
  assert (F2 : RunFacts.first_ok (Re.p_icase p2) isspace (Re.p_re p2) = true)
    by (vm_compute; reflexivity).
  assert (C2 : RunFacts.head_complete (Re.p_icase p2) isspace (Re.p_re p2) = true)
    by (vm_compute; reflexivity).
  destruct (RunFacts.sub_keeps_head isspace p2 F2 " " a r1 H2) as [r2 Hr2].
  assert (Q2 : forallb single_spaced (Re.sub p2 " " (String a r1)) = true).
  { apply (RunFacts.sub_removes isspace p2 F2 C2 spaced single_spaced);
      [exact Q1 | reflexivity|].
    intros c Hc Hn. unfold spaced in Hc. unfold single_spaced.
    rewrite Hn in Hc. rewrite orb_false_r in Hc. rewrite Hc. reflexivity. }
  rewrite Hr2 in *.
  (* stripped and upper-cased *)
  destruct (CaseFacts.strip_keeps_head a r2 H2) as [r3 Hr3].
  apply FloatFacts.forallb_strip in Q2. rewrite Hr3 in *.
  split.
  - apply (CaseFacts.forallb_upper single_spaced ref_char); [|exact Q2].
    char_fact (fun c => implb (single_spaced c)
                          (negb (code c =? 223) && ref_char (upper_char c))).
    intros c Hc. specialize (H3 c). rewrite Hc in H3. cbn [implb] in H3.
    apply andb_true_iff in H3 as [H3 H4]. apply negb_true_iff in H3. auto.
  - cbn [upper]. rewrite H1. eauto.
Qed.

End References.

(** ** The theorems at sample inputs *)

Lemma detect_category_range_witness :
  detect_category words_nlp slice_message = Ok ("loan", "slice", c095)
  /\ In ("loan", "slice", c095) classifications.
Proof.
  split; [vm_compute; reflexivity|].
  apply (detect_category_range words_nlp slice_message).
  vm_compute. reflexivity.
Defined.

Lemma informational_iff_not_transactional_witness :
  detect_category words_nlp low_balance_message
  = Ok ("informational", "general", c095)
  /\ is_transactional_message words_nlp low_balance_message = Ok false.
Proof.
  split; [vm_compute; reflexivity|].
  apply (informational_iff_not_transactional words_nlp low_balance_message
           "informational" "general" c095).
  - vm_compute. reflexivity.
  - reflexivity.
Defined.

Lemma loan_keywords_first_witness :
  exists subcategory confidence,
    detect_category words_nlp loan_message = Ok ("loan", subcategory, confidence)
    /\ In (subcategory, confidence)
          (("", c090) :: ("", c085)
           :: List.map (fun provider => (provider, c095)) loan_providers).
Proof.
  apply (loan_keywords_first words_nlp loan_message _ "loan" eq_refl).
  - left. reflexivity.
  - vm_compute. reflexivity.
  - vm_compute. reflexivity.
Defined.

Lemma shadowed_keywords_are_loan_witness :
  exists subcategory confidence,
    detect_category words_nlp premium_message
    = Ok ("loan", subcategory, confidence).
Proof.
  apply (shadowed_keywords_are_loan words_nlp premium_message "premium").
  - left. reflexivity.
  - vm_compute. reflexivity.
  - vm_compute. reflexivity.
Defined.

Lemma merchant_null_iff_informational_witness :
  exists r,
    parse_sms_spacy words_nlp low_balance_message None
                    noon_10_june_2025 morning_2_jan_2026 = Parsed r
    /\ (Txn.merchant r = None <-> Txn.category r = "informational").
Proof.
  eexists. split; [vm_compute; reflexivity|].
  apply (merchant_null_iff_informational words_nlp low_balance_message None
           noon_10_june_2025 morning_2_jan_2026).
  vm_compute. reflexivity.
Defined.

Lemma loan_record_witness :
  exists r,
    parse_sms_spacy words_nlp slice_message None
                    noon_10_june_2025 morning_2_jan_2026 = Parsed r
    /\ Txn.subcategory r = "slice"
    /\ Txn.merchant r = Some (PyStr.u "Slice Loan")
    /\ Txn.loan_provider r = Some (Some (PyStr.u "slice")).
Proof.
  eexists. split; [vm_compute; reflexivity|]. split; [reflexivity|].
  destruct (loan_record words_nlp slice_message None
              noon_10_june_2025 morning_2_jan_2026 _
              ltac:(vm_compute; reflexivity) eq_refl)
    as (_ & Hm & Hl & _).
  split; [exact Hm | exact Hl].
Defined.

Lemma category_merchants_witness :
  exists r,
    parse_sms_spacy words_nlp insurance_message None
                    noon_10_june_2025 morning_2_jan_2026 = Parsed r
    /\ Txn.category r = "insurance"
    /\ In (Txn.merchant r)
          (List.map (fun name => Some (PyStr.u name)) insurance_merchants)
    /\ Txn.insurance_provider r = Some (Txn.merchant r).
Proof.
  eexists. split; [vm_compute; reflexivity|]. split; [reflexivity|].
  apply (proj1 (proj2 (category_merchants words_nlp insurance_message None
                         noon_10_june_2025 morning_2_jan_2026 _
                         ltac:(vm_compute; reflexivity)))).
  reflexivity.
Defined.

Lemma amount_fields_agree_witness :
  exists r amount,
    parse_sms_spacy words_nlp insurance_message None
                    noon_10_june_2025 morning_2_jan_2026 = Parsed r
    /\ Txn.amount r = Some amount
    /\ exists cur,
         Txn.currency r = Some cur /\ In cur currency_codes
         /\ Txn.formatted_amount r
            = Some (cur ++ " " ++ PyFloat.format_2f amount).
Proof.
  eexists. eexists. split; [vm_compute; reflexivity|]. split; [reflexivity|].
  apply (amount_fields_agree words_nlp insurance_message None
           noon_10_june_2025 morning_2_jan_2026 _
           ltac:(vm_compute; reflexivity)).
Defined.

Lemma rupee_word_wins_witness :
  exists m,
    extract_amount words_nlp transfers_message = Ok (Some m)
    /\ value m = PyFloat.lit "50" /\ currency m = "INR".
Proof.
  eexists. split; [vm_compute; reflexivity|]. split; [vm_compute; reflexivity|].
  apply (rupee_word_wins words_nlp transfers_message).
  - vm_compute. reflexivity.
  - vm_compute. reflexivity.
Defined.

Lemma relative_dates_first_witness :
  extract_date today_message None noon_10_june_2025 = Ok "2025-06-10".
Proof.
  rewrite (proj1 (relative_dates_first today_message None noon_10_june_2025)).
  - vm_compute. reflexivity.
  - vm_compute. reflexivity.
Defined.

Lemma date_is_calendar_day_witness :
  exists r y m d,
    parse_sms_spacy words_nlp old_date_message None
                    noon_10_june_2025 morning_2_jan_2026 = Parsed r
    /\ Txn.date r = "999-05-15"
    /\ Txn.date r = PyDate.dec y ++ "-" ++ PyDate.pad 2 m ++ "-" ++ PyDate.pad 2 d
    /\ 1 <= y <= 9999 /\ 1 <= m <= 12 /\ 1 <= d <= PyDate.days_in_month y m
    /\ (is_iso_date (Txn.date r) = true <-> 1000 <= y).
Proof.
  eexists.
  destruct (date_is_calendar_day words_nlp old_date_message None
              noon_10_june_2025 morning_2_jan_2026 _
              ltac:(vm_compute; reflexivity))
    as (y & m & d & H).
  exists y, m, d. split; [vm_compute; reflexivity|].
  split; [vm_compute; reflexivity | exact H].
Defined.

Lemma two_digit_year_window_witness :
  extract_date compact_message None noon_10_june_2025 = Ok "2025-05-15"
  /\ exists t,
       "2025-05-15" = PyDate.strftime_ymd t
       /\ PyDate.year t = 2025
       /\ 1950 <= PyDate.year t <= 2049.
Proof.
  destruct (Re.search Patterns.date_compact compact_message) as [m|] eqn:Hm;
    [|vm_compute in Hm; discriminate Hm].
  apply (two_digit_year_window compact_message None noon_10_june_2025
           m "25" "2025-05-15").
  - intros rel_date offset Hin. cbn in Hin.
    repeat (destruct Hin as [Hin|Hin];
            [injection Hin as <- <-; vm_compute; reflexivity|]).
    destruct Hin.
  - vm_compute in Hm. injection Hm as <-. vm_compute. reflexivity.
  - reflexivity.
  - left. split; [exact Hm | vm_compute; reflexivity].
Defined.

Lemma parse_expense_date_witness :
  exists r,
    Routes.parse_expense words_nlp
      (Routes.new_SMSRequest noon_10_june_2025 payment_message None)
      morning_2_jan_2026 morning_2_jan_2026 = Routes.Success r
    /\ Txn.date r = "2025-06-10".
Proof.
  eexists. split; [vm_compute; reflexivity|].
  rewrite (proj2 (parse_expense_date words_nlp noon_10_june_2025 payment_message
                    None morning_2_jan_2026 morning_2_jan_2026
                    morning_2_jan_2026) _
                 ltac:(vm_compute; reflexivity) payment_message_no_date).
  vm_compute. reflexivity.
Defined.

Lemma balance_currency_witness :
  exists b,
    extract_balance dollar_balance_message = Ok (Some b)
    /\ currency b = "USD"
    /\ In (currency b) balance_currency_codes.
Proof.
  eexists. split; [vm_compute; reflexivity|].
  split; [vm_compute; reflexivity|].
  apply (balance_currency dollar_balance_message).
  vm_compute. reflexivity.
Defined.

Lemma reference_shape_witness :
  extract_reference reference_message = Some "REF AB12CD34"
  /\ PyStr.forallb ref_char "REF AB12CD34" = true
  /\ exists c rest,
       "REF AB12CD34" = String c rest /\ PyStr.is_ascii_upper c = true.
Proof.
  split; [vm_compute; reflexivity|].
  apply (reference_shape reference_message).
  vm_compute. reflexivity.
Defined.

Lemma punctuated_keywords_dead_witness :
  PyStr.forallb plain_char "top-up" = false
  /\ PyStr.contains "top-up" (PyStr.lower top_up_message) = true
  /\ PyStr.contains "top-up" (normalize top_up_message) = false.
Proof.
  split; [vm_compute; reflexivity|].
  split; [vm_compute; reflexivity|].
  apply (proj1 (punctuated_keywords_dead top_up_message)).
  vm_compute. reflexivity.
Defined.
